(** * Reminder dispatch of the meeting-management backend

    A shallow embedding of
    - [backend/src/jobs/reminderJob.ts]             (selector and dispatch loop),
    - [backend/src/services/notification.service.ts] (in-app writer, external fan-out),
    - the reminder parts of the meeting service      (createReminders, update, cancel),
    over an in-memory relational store whose tables are lists of rows in
    table order.  Dates are milliseconds since the epoch ([Date.getTime()]). *)

From Stdlib Require Import ZArith List String Bool Lia DecimalString Sorted Permutation.
Import ListNotations.

Local Open Scope Z_scope.
Local Open Scope list_scope.

(** ** Data model (prisma schema, restricted to the columns the code reads) *)

Definition Id := string.
Definition DateTime := Z.

Inductive ParticipantStatus := INVITED | ACCEPTED | DECLINED | TENTATIVE.

Inductive NotificationType :=
| MEETING_CREATED | MEETING_UPDATED | MEETING_CANCELLED
| MEETING_INVITATION | MEETING_REMINDER | PARTICIPANT_RESPONDED.

Module User.
Record t := mk { id : Id; email : string; name : string }.
End User.

Module UserSettings.
Record t := mk {
  userId : Id;
  emailNotificationsEnabled : bool;
  pushNotificationsEnabled : bool;
  inAppNotificationsEnabled : bool }.
End UserSettings.

Module Meeting.
Record t := mk {
  id : Id;
  title : string;
  description : option string;
  startTime : DateTime;
  endTime : DateTime;
  timezone : string;
  videoLink : option string;
  isCancelled : bool;
  googleCalendarEventId : option string;
  reminderMinutesBefore : list Z;
  createdByUserId : Id }.

Definition cancelled (m : t) : t :=
  mk (id m) (title m) (description m) (startTime m) (endTime m) (timezone m)
     (videoLink m) true (googleCalendarEventId m) (reminderMinutesBefore m)
     (createdByUserId m).
End Meeting.

Module MeetingParticipant.
Record t := mk {
  id : Id;
  email : string;
  status : ParticipantStatus;
  meetingId : Id;
  userId : option Id }.
End MeetingParticipant.

Module MeetingReminder.
Record t := mk {
  id : Id;
  minutesBefore : Z;
  scheduledFor : DateTime;
  sentAt : option DateTime;
  emailSent : bool;
  pushSent : bool;
  inAppCreated : bool;
  createdAt : DateTime;
  meetingId : Id }.

(** The [data] of the update at the end of the dispatch loop. *)
Definition markSent (now : DateTime) (r : t) : t :=
  mk (id r) (minutesBefore r) (scheduledFor r) (Some now) true true true
     (createdAt r) (meetingId r).

(** Pending or sent, as the data model of the reminder has it. *)
Definition fullySent (r : t) : Prop :=
  sentAt r <> None /\ emailSent r = true /\ pushSent r = true /\ inAppCreated r = true.

(** The columns a caller chooses; [id] and [createdAt] are store defaults. *)
Definition content (r : t) : Id * Z * DateTime * option DateTime * bool * bool * bool :=
  (meetingId r, minutesBefore r, scheduledFor r, sentAt r,
   emailSent r, pushSent r, inAppCreated r).
End MeetingReminder.

Module Notification.
Record t := mk {
  id : Id;
  type : NotificationType;
  title : string;
  message : string;
  isRead : bool;
  createdAt : DateTime;
  userId : Id;
  relatedMeetingId : option Id }.
End Notification.

Module AuditLog.
Record t := mk {
  action : string;
  entity : string;
  entityId : option Id;
  userId : option Id }.
End AuditLog.

(** Query results with their [include]d relations. *)
Record ParticipantWithUser := {
  participant : MeetingParticipant.t;
  user : option User.t }.

Record MeetingWithParticipants := {
  meeting_row : Meeting.t;
  participants : list ParticipantWithUser;
  createdBy : option User.t }.

Record ReminderWithMeeting := {
  reminder_row : MeetingReminder.t;
  meeting : MeetingWithParticipants }.

(** ** The store *)

Record Store := {
  users : list User.t;
  userSettings : list UserSettings.t;
  meetings : list Meeting.t;
  meetingParticipants : list MeetingParticipant.t;
  meetingReminders : list MeetingReminder.t;
  notifications : list Notification.t;
  auditLogs : list AuditLog.t;
  rowsCreated : nat }.

Definition with_meetings (f : list Meeting.t -> list Meeting.t) (s : Store) : Store :=
  {| users := users s; userSettings := userSettings s; meetings := f (meetings s);
     meetingParticipants := meetingParticipants s;
     meetingReminders := meetingReminders s; notifications := notifications s;
     auditLogs := auditLogs s; rowsCreated := rowsCreated s |}.

Definition with_meetingReminders
  (f : list MeetingReminder.t -> list MeetingReminder.t) (n : nat) (s : Store) : Store :=
  {| users := users s; userSettings := userSettings s; meetings := meetings s;
     meetingParticipants := meetingParticipants s;
     meetingReminders := f (meetingReminders s); notifications := notifications s;
     auditLogs := auditLogs s; rowsCreated := rowsCreated s + n |}.

Definition with_notification (n : Notification.t) (s : Store) : Store :=
  {| users := users s; userSettings := userSettings s; meetings := meetings s;
     meetingParticipants := meetingParticipants s;
     meetingReminders := meetingReminders s;
     notifications := notifications s ++ [n];
     auditLogs := auditLogs s; rowsCreated := S (rowsCreated s) |}.

Definition with_auditLog (a : AuditLog.t) (s : Store) : Store :=
  {| users := users s; userSettings := userSettings s; meetings := meetings s;
     meetingParticipants := meetingParticipants s;
     meetingReminders := meetingReminders s; notifications := notifications s;
     auditLogs := auditLogs s ++ [a]; rowsCreated := rowsCreated s |}.

(** JavaScript truthiness of a nullable string: [null] and [''] are falsy. *)
Definition truthy (o : option string) : bool :=
  match o with
  | Some s => negb (String.eqb s EmptyString)
  | None => false
  end.

(** [x || null] on a nullable string. *)
Definition orNull (o : option string) : option string :=
  if truthy o then o else None.

(** [findUnique] on the unique key of each table. *)
Definition findUser (s : Store) (uid : Id) : option User.t :=
  find (fun u => String.eqb (User.id u) uid) (users s).

Definition findSettings (s : Store) (uid : Id) : option UserSettings.t :=
  find (fun x => String.eqb (UserSettings.userId x) uid) (userSettings s).

Definition findMeeting (s : Store) (mid : Id) : option Meeting.t :=
  find (fun m => String.eqb (Meeting.id m) mid) (meetings s).

Definition includeUser (s : Store) (p : MeetingParticipant.t) : ParticipantWithUser :=
  {| participant := p;
     user := match MeetingParticipant.userId p with
             | Some uid => findUser s uid
             | None => None
             end |}.

Definition participantsOf (s : Store) (mid : Id) : list MeetingParticipant.t :=
  filter (fun p => String.eqb (MeetingParticipant.meetingId p) mid)
         (meetingParticipants s).

(** [include: { participants: { include: { user: true } }, createdBy: true }] *)
Definition includeMeeting (s : Store) (m : Meeting.t) : MeetingWithParticipants :=
  {| meeting_row := m;
     participants := map (includeUser s) (participantsOf s (Meeting.id m));
     createdBy := findUser s (Meeting.createdByUserId m) |}.

(** ** Reminder selector: the [findMany] of [processReminders] *)

Definition batchSize : nat := 100.
Definition lookAhead : Z := 60 * 1000.

(** The [where] clause, on a reminder row and its owning meeting. *)
Definition dueWith (now : DateTime) (r : MeetingReminder.t) (m : Meeting.t) : bool :=
  (MeetingReminder.scheduledFor r <=? now + lookAhead)
  && match MeetingReminder.sentAt r with None => true | Some _ => false end
  && negb (Meeting.isCancelled m)
  && (now <? Meeting.startTime m).

Definition isDue (now : DateTime) (s : Store) (r : MeetingReminder.t) : bool :=
  match findMeeting s (MeetingReminder.meetingId r) with
  | Some m => dueWith now r m
  | None => false
  end.

Definition includeReminder (s : Store) (r : MeetingReminder.t) : option ReminderWithMeeting :=
  match findMeeting s (MeetingReminder.meetingId r) with
  | Some m => Some {| reminder_row := r; meeting := includeMeeting s m |}
  | None => None
  end.

Fixpoint filterMap {A B : Type} (f : A -> option B) (l : list A) : list B :=
  match l with
  | [] => []
  | x :: l' =>
      match f x with
      | Some y => y :: filterMap f l'
      | None => filterMap f l'
      end
  end.

Definition findDueReminders (now : DateTime) (s : Store) : list ReminderWithMeeting :=
  firstn batchSize
    (filterMap (includeReminder s) (filter (isDue now s) (meetingReminders s))).

(** ** Effects: exceptions, outbound calls, console *)

Inductive Error :=
| AppError (message : string) (statusCode : Z)
| TypeError (message : string)
| PrismaError (message : string)
| TransportError (message : string).

Record MeetingEmailData := {
  med_title : string;
  med_description : option string;
  med_startTime : DateTime;
  med_endTime : DateTime;
  med_timezone : string;
  med_videoLink : option string;
  med_participants : list string;
  med_organizerName : string }.

Record NotificationEmailData := {
  ned_title : string;
  ned_message : string;
  ned_meeting : option MeetingEmailData }.

Record PushPayload := {
  pp_title : string;
  pp_body : string;
  pp_data : option (list (string * string)) }.

(** One invocation of a collaborator outside the store. *)
Inductive Call :=
| SendMeetingReminder (to : string) (data : MeetingEmailData) (minutesBefore : Z)
| SendMeetingNotification (to : string) (data : NotificationEmailData)
| SendToUser (userId : Id) (payload : PushPayload)
| GoogleDeleteEvent (userId : Id) (eventId : string).

Definition isEmailTo (addr : string) (c : Call) : bool :=
  match c with
  | SendMeetingReminder to _ _ => String.eqb to addr
  | SendMeetingNotification to _ => String.eqb to addr
  | _ => false
  end.

Definition isPushTo (uid : Id) (c : Call) : bool :=
  match c with
  | SendToUser u _ => String.eqb u uid
  | _ => false
  end.

(** The arguments of [prisma.notification.create]. *)
Record NotificationData := {
  nd_userId : Id;
  nd_type : NotificationType;
  nd_title : string;
  nd_message : string;
  nd_relatedMeetingId : option Id }.

(** The outbound calls made so far, each with the error it threw, if any. *)
Definition History := list (Call * option Error).

(** What the code cannot decide: the clock, generated ids, and whether a
    collaborator throws.  Each answer may depend on the whole history.
    Reads of the store and the writes to the reminder and meeting tables
    are total operations of the in-memory store; the insert of a
    notification row is the one store write that may be made to fail. *)
Record Env := {
  dateNow : History -> DateTime;
  uuid : nat -> Id;
  callThrows : History -> Call -> option Error;
  notificationCreateThrows : History -> NotificationData -> option Error }.

Record World := {
  db : Store;
  calls : History;
  console : list (string * option Error) }.

Definition withDb (f : Store -> Store) (w : World) : World :=
  {| db := f (db w); calls := calls w; console := console w |}.

Inductive Outcome (A : Type) :=
| Ok (a : A)
| Throw (e : Error).
Arguments Ok {A} a.
Arguments Throw {A} e.

Definition M (A : Type) : Type := World -> Outcome A * World.

Definition ret {A} (a : A) : M A := fun w => (Ok a, w).

Definition throw {A} (e : Error) : M A := fun w => (Throw e, w).

Definition bind {A B} (m : M A) (k : A -> M B) : M B :=
  fun w =>
    match m w with
    | (Ok a, w') => k a w'
    | (Throw e, w') => (Throw e, w')
    end.

(** [try { m } catch (error) { h error }] *)
Definition tryCatch {A} (m : M A) (h : Error -> M A) : M A :=
  fun w =>
    match m w with
    | (Ok a, w') => (Ok a, w')
    | (Throw e, w') => h e w'
    end.

Notation "x <- m ;; k" := (bind m (fun x => k))
  (at level 61, m at next level, right associativity).
Notation "m ;;; k" := (bind m (fun _ => k))
  (at level 61, right associativity).

Definition getDb : M Store := fun w => (Ok (db w), w).

Definition modifyDb (f : Store -> Store) : M unit := fun w => (Ok tt, withDb f w).

Definition currentDate (env : Env) : M DateTime := fun w => (Ok (dateNow env (calls w)), w).

Definition consoleError (msg : string) (e : Error) : M unit :=
  fun w => (Ok tt, {| db := db w; calls := calls w;
                      console := console w ++ [(msg, Some e)] |}).

Definition consoleLog (msg : string) : M unit :=
  fun w => (Ok tt, {| db := db w; calls := calls w;
                      console := console w ++ [(msg, None)] |}).

(** An awaited call of a sender: recorded, then it returns or rejects. *)
Definition invoke (env : Env) (c : Call) : M unit :=
  fun w =>
    let r := callThrows env (calls w) c in
    let w' := {| db := db w; calls := calls w ++ [(c, r)]; console := console w |} in
    match r with
    | Some e => (Throw e, w')
    | None => (Ok tt, w')
    end.

(** [for (const x of l) { body x }] *)
Fixpoint forOf {A} (l : list A) (body : A -> M unit) : M unit :=
  match l with
  | [] => ret tt
  | x :: l' => body x ;;; forOf l' body
  end.

(** ** Text of the messages *)

Definition quote : string := String (Ascii.ascii_of_nat 34) EmptyString.

Definition showZ (z : Z) : string := NilZero.string_of_int (Z.to_int z).

(** [minutesBefore >= 60 ? `${Math.floor(minutesBefore / 60)} hour(s)`
                         : `${minutesBefore} minutes`] *)
Definition timeText (minutesBefore : Z) : string :=
  if 60 <=? minutesBefore
  then (showZ (minutesBefore / 60) ++ " hour(s)")%string
  else (showZ minutesBefore ++ " minutes")%string.

Definition startsIn (title : string) (minutesBefore : Z) : string :=
  (quote ++ title ++ quote ++ " starts in " ++ timeText minutesBefore)%string.

(** ** notification.service.ts *)

(** [!settings || settings.flag], and equally [settings?.flag !== false]:
    a missing settings row enables every channel. *)
Definition enabled (flag : UserSettings.t -> bool) (settings : option UserSettings.t) : bool :=
  match settings with
  | None => true
  | Some x => flag x
  end.

(** [prisma.notification.create]: [id], [isRead] and [createdAt] are the
    column defaults. *)
Definition notificationCreate (env : Env) (d : NotificationData) : M Notification.t :=
  fun w =>
    match notificationCreateThrows env (calls w) d with
    | Some e => (Throw e, w)
    | None =>
        let row := Notification.mk (uuid env (rowsCreated (db w)))
                     (nd_type d) (nd_title d) (nd_message d) false
                     (dateNow env (calls w)) (nd_userId d) (nd_relatedMeetingId d) in
        (Ok row, withDb (with_notification row) w)
    end.

(** [NotificationService.create] *)
Definition create (env : Env) (userId : Id) (type : NotificationType)
    (title message : string) (relatedMeetingId : option Id) : M Notification.t :=
  s <- getDb ;;
  let settings := findSettings s userId in
  if enabled UserSettings.inAppNotificationsEnabled settings
  then notificationCreate env
         {| nd_userId := userId; nd_type := type; nd_title := title;
            nd_message := message; nd_relatedMeetingId := relatedMeetingId |}
  else
    now <- currentDate env ;;
    ret (Notification.mk EmptyString type title message true now userId
           (orNull relatedMeetingId)).

(** The meeting detail passed to the email sender; reading [createdBy.name]
    of a meeting whose creator was not loaded is a TypeError. *)
Definition meetingEmailData (m : MeetingWithParticipants) : M MeetingEmailData :=
  match createdBy m with
  | Some organizer =>
      ret {| med_title := Meeting.title (meeting_row m);
             med_description := Meeting.description (meeting_row m);
             med_startTime := Meeting.startTime (meeting_row m);
             med_endTime := Meeting.endTime (meeting_row m);
             med_timezone := Meeting.timezone (meeting_row m);
             med_videoLink := Meeting.videoLink (meeting_row m);
             med_participants :=
               map (fun p => MeetingParticipant.email (participant p)) (participants m);
             med_organizerName := User.name organizer |}
  | None => throw (TypeError "Cannot read properties of null (reading 'name')")
  end.

(** [NotificationService.sendExternalNotifications] *)
Definition sendExternalNotifications (env : Env) (userId : Id)
    (title message : string) (meetingId : option Id) : M unit :=
  s <- getDb ;;
  match findUser s userId with
  | None => ret tt
  | Some u =>
      let settings := findSettings s userId in
      let meeting :=
        match meetingId with
        | Some mid =>
            if truthy meetingId
            then option_map (includeMeeting s) (findMeeting s mid)
            else None
        | None => None
        end in
      (if enabled UserSettings.emailNotificationsEnabled settings
       then tryCatch
              (data <- match meeting with
                       | Some m => d <- meetingEmailData m ;; ret (Some d)
                       | None => ret None
                       end ;;
               invoke env (SendMeetingNotification (User.email u)
                             {| ned_title := title; ned_message := message;
                                ned_meeting := data |}))
              (fun e => consoleError "Failed to send email notification:" e)
       else ret tt) ;;;
      (if enabled UserSettings.pushNotificationsEnabled settings
       then tryCatch
              (invoke env (SendToUser userId
                             {| pp_title := title; pp_body := message;
                                pp_data :=
                                  match meetingId with
                                  | Some mid =>
                                      if truthy meetingId
                                      then Some [("meetingId"%string, mid)]
                                      else None
                                  | None => None
                                  end |}))
              (fun e => consoleError "Failed to send push notification:" e)
       else ret tt)
  end.

(** [NotificationService.createMeetingReminder] *)
Definition createMeetingReminder (env : Env) (userId meetingId : Id)
    (meetingTitle : string) (minutesBefore : Z) : M unit :=
  create env userId MEETING_REMINDER "Meeting Reminder"
    (startsIn meetingTitle minutesBefore) (Some meetingId) ;;;
  sendExternalNotifications env userId "Meeting Reminder"
    (startsIn meetingTitle minutesBefore) (Some meetingId).

(** [NotificationService.createMeetingCancellation] *)
Definition createMeetingCancellation (env : Env) (userId meetingId : Id)
    (meetingTitle cancellerName : string) : M unit :=
  let message :=
    (cancellerName ++ " cancelled the meeting " ++ quote ++ meetingTitle ++ quote)%string in
  create env userId MEETING_CANCELLED "Meeting Cancelled" message (Some meetingId) ;;;
  sendExternalNotifications env userId "Meeting Cancelled" message (Some meetingId).

(** ** reminderJob.ts: the dispatch loop *)

Definition emailFailed (addr : string) : string :=
  ("Failed to send reminder email to " ++ addr ++ ":")%string.

Definition pushFailed (uid : Id) : string :=
  ("Failed to send push notification to " ++ uid ++ ":")%string.

Definition reminderFailed (rid : Id) : string :=
  ("Failed to process reminder " ++ rid ++ ":")%string.

Definition reminderPush (m : Meeting.t) (minutesBefore : Z) : PushPayload :=
  {| pp_title := "Meeting Reminder";
     pp_body := startsIn (Meeting.title m) minutesBefore;
     pp_data := Some [("meetingId"%string, Meeting.id m)] |}.

(** Body of the inner loop, for one participant of the reminder's meeting. *)
Definition processParticipant (env : Env) (reminder : MeetingReminder.t)
    (mtg : MeetingWithParticipants) (p : ParticipantWithUser) : M unit :=
  if negb (truthy (MeetingParticipant.userId (participant p))) then ret tt
  else
    match user p with
    | None => ret tt
    | Some u =>
        s <- getDb ;;
        let settings := findSettings s (User.id u) in
        (if enabled UserSettings.inAppNotificationsEnabled settings
         then createMeetingReminder env (User.id u) (Meeting.id (meeting_row mtg))
                (Meeting.title (meeting_row mtg)) (MeetingReminder.minutesBefore reminder)
         else ret tt) ;;;
        (if enabled UserSettings.emailNotificationsEnabled settings
         then tryCatch
                (data <- meetingEmailData mtg ;;
                 invoke env (SendMeetingReminder (User.email u) data
                               (MeetingReminder.minutesBefore reminder)))
                (fun e => consoleError (emailFailed (User.email u)) e)
         else ret tt) ;;;
        (if enabled UserSettings.pushNotificationsEnabled settings
         then tryCatch
                (invoke env (SendToUser (User.id u)
                               (reminderPush (meeting_row mtg)
                                  (MeetingReminder.minutesBefore reminder))))
                (fun e => consoleError (pushFailed (User.id u)) e)
         else ret tt)
    end.

(** [prisma.meetingReminder.update({ where: { id }, data })]: rejects when
    no row has the id. *)
Definition updateReminder (rid : Id) (f : MeetingReminder.t -> MeetingReminder.t) : M unit :=
  fun w =>
    if existsb (fun r => String.eqb (MeetingReminder.id r) rid) (meetingReminders (db w))
    then (Ok tt,
          withDb (with_meetingReminders
                    (map (fun r => if String.eqb (MeetingReminder.id r) rid then f r else r))
                    0) w)
    else (Throw (PrismaError "Record to update not found."), w).

(** Body of the [try] of the outer loop, for one reminder of the batch. *)
Definition processReminder (env : Env) (r : ReminderWithMeeting) : M unit :=
  forOf (participants (meeting r))
    (processParticipant env (reminder_row r) (meeting r)) ;;;
  now <- currentDate env ;;
  updateReminder (MeetingReminder.id (reminder_row r)) (MeetingReminder.markSent now).

(** Body of the outer loop: the [try] above under its [catch]. *)
Definition guardedReminder (env : Env) (r : ReminderWithMeeting) : M unit :=
  tryCatch (processReminder env r)
    (fun e => consoleError (reminderFailed (MeetingReminder.id (reminder_row r))) e).

Definition processBatch (env : Env) (batch : list ReminderWithMeeting) : M unit :=
  forOf batch (guardedReminder env).

Definition processReminders (env : Env) : M unit :=
  now <- currentDate env ;;
  s <- getDb ;;
  let reminders := findDueReminders now s in
  processBatch env reminders ;;;
  if (0 <? List.length reminders)%nat
  then consoleLog ("Processed " ++ showZ (Z.of_nat (List.length reminders)) ++ " reminders")%string
  else ret tt.

(** One firing of the every-minute schedule of [startReminderJob]. *)
Definition reminderTick (env : Env) : M unit :=
  tryCatch (processReminders env) (fun e => consoleError "Reminder job error:" e).

(** ** Meeting service: the reminder lifecycle *)

(** [prisma.meetingReminder.deleteMany({ where: { meetingId } })] *)
Definition deleteManyReminders (meetingId : Id) : M unit :=
  modifyDb (with_meetingReminders
              (filter (fun r => negb (String.eqb (MeetingReminder.meetingId r) meetingId)))
              0).

Record ReminderInput := {
  ri_meetingId : Id;
  ri_minutesBefore : Z;
  ri_scheduledFor : DateTime }.

(** Rows of a [createMany]: the n-th row created by the store gets [uuid n];
    [sentAt] and the three flags take the column defaults. *)
Fixpoint newReminders (env : Env) (at_ : DateTime) (n : nat) (data : list ReminderInput)
  : list MeetingReminder.t :=
  match data with
  | [] => []
  | d :: rest =>
      MeetingReminder.mk (uuid env n) (ri_minutesBefore d) (ri_scheduledFor d)
        None false false false at_ (ri_meetingId d)
      :: newReminders env at_ (S n) rest
  end.

Definition createManyReminders (env : Env) (data : list ReminderInput) : M unit :=
  fun w =>
    let rows := newReminders env (dateNow env (calls w)) (rowsCreated (db w)) data in
    (Ok tt, withDb (with_meetingReminders (fun l => l ++ rows) (List.length data)) w).

(** [MeetingService.createReminders] *)
Definition createReminders (env : Env) (meetingId : Id) (startTime : DateTime)
    (minutesBefore : list Z) : M unit :=
  let reminders :=
    map (fun minutes =>
           {| ri_meetingId := meetingId;
              ri_minutesBefore := minutes;
              ri_scheduledFor := startTime - minutes * 60 * 1000 |})
        minutesBefore in
  createManyReminders env reminders.

(** The two statements of [MeetingService.update] under
    "Update reminders if time changed": delete, then create. *)
Definition regenerate (env : Env) (meetingId : Id) (startTime : DateTime)
    (leadTimes : list Z) : M unit :=
  deleteManyReminders meetingId ;;;
  createReminders env meetingId startTime leadTimes.

(** The same statements under their guard; [updated] is the meeting row the
    update has just written. *)
Definition updateReminders (env : Env) (input_startTime : option string)
    (input_reminderMinutesBefore : option (list Z)) (meetingId : Id)
    (updated : Meeting.t) : M unit :=
  if truthy input_startTime
     || match input_reminderMinutesBefore with Some _ => true | None => false end
  then regenerate env meetingId (Meeting.startTime updated)
         (Meeting.reminderMinutesBefore updated)
  else ret tt.

Definition linkedTo (userId : Id) (p : ParticipantWithUser) : bool :=
  match MeetingParticipant.userId (participant p) with
  | Some u => String.eqb u userId
  | None => false
  end.

(** [MeetingService.getById] *)
Definition getById (meetingId userId : Id) : M MeetingWithParticipants :=
  s <- getDb ;;
  match findMeeting s meetingId with
  | None => throw (AppError "Meeting not found" 404)
  | Some m =>
      let mtg := includeMeeting s m in
      let isParticipant := existsb (linkedTo userId) (participants mtg) in
      let isCreator := String.eqb (Meeting.createdByUserId m) userId in
      if negb isParticipant && negb isCreator
      then throw (AppError "Access denied" 403)
      else ret mtg
  end.

(** [prisma.meeting.update({ where: { id }, data, include })] *)
Definition updateMeeting (mid : Id) (f : Meeting.t -> Meeting.t) : M MeetingWithParticipants :=
  fun w =>
    match findMeeting (db w) mid with
    | Some m =>
        let w' := withDb (with_meetings
                            (map (fun x => if String.eqb (Meeting.id x) mid then f x else x)))
                         w in
        (Ok (includeMeeting (db w') (f m)), w')
    | None => (Throw (PrismaError "Record to update not found."), w)
    end.

(** [createAuditLog]: failures of the insert are swallowed there. *)
Definition createAuditLog (action entity : string) (entityId userId : option Id) : M unit :=
  modifyDb (with_auditLog (AuditLog.mk action entity entityId userId)).

Definition organizerName (m : MeetingWithParticipants) : M string :=
  match createdBy m with
  | Some u => ret (User.name u)
  | None => throw (TypeError "Cannot read properties of null (reading 'name')")
  end.

(** [p.userId && p.userId !== userId] *)
Definition otherAccount (userId : Id) (p : ParticipantWithUser) : bool :=
  truthy (MeetingParticipant.userId (participant p)) && negb (linkedTo userId p).

(** The rest of [MeetingService.cancel] once the meeting row is flagged and
    its reminders are deleted: "Delete from Google Calendar if synced",
    "Notify participants", "Audit log", [return updated]. *)
Definition announceCancellation (env : Env) (meetingId userId : Id)
    (mtg updated : MeetingWithParticipants) : M MeetingWithParticipants :=
  (match Meeting.googleCalendarEventId (meeting_row mtg) with
   | Some eventId =>
       if truthy (Some eventId)
       then tryCatch (invoke env (GoogleDeleteEvent userId eventId))
              (fun e => consoleError "Failed to delete from Google Calendar:" e)
       else ret tt
   | None => ret tt
   end) ;;;
  forOf (filter (otherAccount userId) (participants updated))
    (fun p =>
       match MeetingParticipant.userId (participant p) with
       | Some uid =>
           if truthy (Some uid)
           then cancellerName <- organizerName updated ;;
                createMeetingCancellation env uid meetingId
                  (Meeting.title (meeting_row updated)) cancellerName
           else ret tt
       | None => ret tt
       end) ;;;
  createAuditLog "MEETING_CANCELLED" "Meeting" (Some meetingId) (Some userId) ;;;
  ret updated.

(** [MeetingService.cancel] *)
Definition cancel (env : Env) (meetingId userId : Id) : M MeetingWithParticipants :=
  mtg <- getById meetingId userId ;;
  if negb (String.eqb (Meeting.createdByUserId (meeting_row mtg)) userId)
  then throw (AppError "Only the meeting creator can cancel it" 403)
  else if Meeting.isCancelled (meeting_row mtg)
  then throw (AppError "Meeting is already cancelled" 400)
  else
    updated <- updateMeeting meetingId Meeting.cancelled ;;
    deleteManyReminders meetingId ;;;
    announceCancellation env meetingId userId mtg updated.

(** ** Specifications of computations *)

(** [hoare P m Q E]: run from a world in [P], the computation [m] ends in
    [Q] when it returns and in [E] when it throws. *)
Definition hoare {A} (P : World -> Prop) (m : M A)
    (Q : A -> World -> Prop) (E : Error -> World -> Prop) : Prop :=
  forall w, P w ->
    match m w with
    | (Ok a, w') => Q a w'
    | (Throw e, w') => E e w'
    end.

Definition preserves {A} (I : World -> Prop) (m : M A) : Prop :=
  hoare I m (fun _ => I) (fun _ => I).

(** What a computation appended to the three logs of the world. *)
Definition newCalls (w w' : World) : History := skipn (List.length (calls w)) (calls w').

Definition newConsole (w w' : World) : list (string * option Error) :=
  skipn (List.length (console w)) (console w').

Definition newNotifications (w w' : World) : list Notification.t :=
  skipn (List.length (notifications (db w))) (notifications (db w')).

(** A reminder row keeps its id and, once fully sent, stays so. *)
Definition evolves (r r' : MeetingReminder.t) : Prop :=
  MeetingReminder.id r' = MeetingReminder.id r
  /\ (MeetingReminder.fullySent r -> MeetingReminder.fullySent r').

(** The world [w] is reached from [w0] by dispatch work: users, settings,
    meetings and participants are untouched, the reminder table is related
    by [Rr], the logs have only grown, and every call made since [w0]
    satisfies [P]. *)
Record since (P : Call -> Prop)
    (Rr : list MeetingReminder.t -> list MeetingReminder.t -> Prop)
    (w0 w : World) : Prop := {
  since_users : users (db w) = users (db w0);
  since_settings : userSettings (db w) = userSettings (db w0);
  since_meetings : meetings (db w) = meetings (db w0);
  since_participants : meetingParticipants (db w) = meetingParticipants (db w0);
  since_reminders : Rr (meetingReminders (db w0)) (meetingReminders (db w));
  since_calls : exists ext, calls w = calls w0 ++ ext /\ Forall (fun c => P (fst c)) ext;
  since_console : exists ext, console w = console w0 ++ ext;
  since_notifications : exists ext, notifications (db w) = notifications (db w0) ++ ext }.

Definition anyCall (c : Call) : Prop := True.

Definition hasReminder (rid : Id) (w : World) : Prop :=
  exists row, In row (meetingReminders (db w)) /\ MeetingReminder.id row = rid.

(** The reminder [rid] is in the table and fully sent. *)
Definition marked (rid : Id) (w : World) : Prop :=
  hasReminder rid w
  /\ forall row, In row (meetingReminders (db w)) ->
       MeetingReminder.id row = rid -> MeetingReminder.fullySent row.

Definition logged (msg : string) (w : World) : Prop :=
  exists e, In (msg, Some e) (console w).

(** The in-app writer never fails on a notification about meeting [mid]. *)
Definition inAppReliable (env : Env) (mid : Id) : Prop :=
  forall h d, nd_relatedMeetingId d = Some mid -> notificationCreateThrows env h d = None.

Definition inAppThrew (env : Env) (mid : Id) (e : Error) : Prop :=
  exists h d, nd_relatedMeetingId d = Some mid /\ notificationCreateThrows env h d = Some e.

Definition hasAccount (p : ParticipantWithUser) : bool :=
  truthy (MeetingParticipant.userId (participant p))
  && match user p with Some _ => true | None => false end.

(** The reminder rows of one (meeting, lead time) pair. *)
Definition rowsFor (mid : Id) (leadTime : Z) (w : World) : list MeetingReminder.t :=
  filter (fun r => String.eqb (MeetingReminder.meetingId r) mid
                   && (MeetingReminder.minutesBefore r =? leadTime))
         (meetingReminders (db w)).

Definition remindersOf (mid : Id) (w : World) : list MeetingReminder.t :=
  filter (fun r => String.eqb (MeetingReminder.meetingId r) mid) (meetingReminders (db w)).

Definition remindersNotOf (mid : Id) (w : World) : list MeetingReminder.t :=
  filter (fun r => negb (String.eqb (MeetingReminder.meetingId r) mid))
         (meetingReminders (db w)).

(** The pending row that [createReminders] requests for one lead time. *)
Definition pendingContent (mid : Id) (startTime : DateTime) (leadTime : Z)
  : Id * Z * DateTime * option DateTime * bool * bool * bool :=
  (mid, leadTime, startTime - leadTime * 60 * 1000, None, false, false, false).

(** [w'] is [w] with [dc], [dl] and [dn] appended to the calls, the console
    and the notification table, and nothing else changed but the count of
    created rows. *)
Record grew (w w' : World) (dc : History) (dl : list (string * option Error))
    (dn : list Notification.t) : Prop := {
  grew_users : users (db w') = users (db w);
  grew_settings : userSettings (db w') = userSettings (db w);
  grew_meetings : meetings (db w') = meetings (db w);
  grew_participants : meetingParticipants (db w') = meetingParticipants (db w);
  grew_reminders : meetingReminders (db w') = meetingReminders (db w);
  grew_calls : calls w' = calls w ++ dc;
  grew_console : console w' = console w ++ dl;
  grew_notifications : notifications (db w') = notifications (db w) ++ dn }.

(** Every failed reminder email among [dc] has its console line in [dl]. *)
Definition emailFailuresLogged (dc : History) (dl : list (string * option Error)) : Prop :=
  forall to data minutesBefore e,
    In (SendMeetingReminder to data minutesBefore, Some e) dc ->
    In (emailFailed to, Some e) dl.

Definition notReminderEmail (c : Call) : Prop :=
  forall to data minutesBefore, c <> SendMeetingReminder to data minutesBefore.

(** The in-app notification of a reminder of meeting [mid] for user [uid]. *)
Definition reminderNoticeFor (uid mid : Id) (n : Notification.t) : Prop :=
  Notification.userId n = uid
  /\ Notification.type n = MEETING_REMINDER
  /\ Notification.relatedMeetingId n = Some mid.

Definition emailsTo (addr : string) (h : History) : nat :=
  List.length (filter (fun c => isEmailTo addr (fst c)) h).

Definition pushesTo (uid : Id) (h : History) : nat :=
  List.length (filter (fun c => isPushTo uid (fst c)) h).

(** The store knows the creator of meeting [mid], as the foreign key of the
    meeting table requires. *)
Definition creatorKnown (s : Store) (mid : Id) : Prop :=
  forall m, findMeeting s mid = Some m -> findUser s (Meeting.createdByUserId m) <> None.

(** The row the dispatch loop asks the in-app writer to insert. *)
Definition reminderNotice (uid mid : Id) (title : string) (minutesBefore : Z)
  : NotificationData :=
  {| nd_userId := uid; nd_type := MEETING_REMINDER; nd_title := "Meeting Reminder";
     nd_message := startsIn title minutesBefore; nd_relatedMeetingId := Some mid |}.

(** What a participant with account [u] is owed by the dispatch of
    reminder [r] of meeting [mtg], given the settings in store [s]. *)
Definition served (s : Store) (r : MeetingReminder.t) (mtg : MeetingWithParticipants)
    (u : User.t) (dc : History) (dn : list Notification.t) : Prop :=
  let st := findSettings s (User.id u) in
  (enabled UserSettings.inAppNotificationsEnabled st = true ->
   exists row, In row dn /\ reminderNoticeFor (User.id u) (Meeting.id (meeting_row mtg)) row)
  /\ (enabled UserSettings.emailNotificationsEnabled st = true ->
      createdBy mtg <> None ->
      exists d r0,
        In (SendMeetingReminder (User.email u) d (MeetingReminder.minutesBefore r), r0) dc)
  /\ (enabled UserSettings.pushNotificationsEnabled st = true ->
      exists r0,
        In (SendToUser (User.id u)
              (reminderPush (meeting_row mtg) (MeetingReminder.minutesBefore r)), r0) dc).


(** ** notification.service.ts: the other operations *)

Definition with_notifications (f : list Notification.t -> list Notification.t) (s : Store)
  : Store :=
  {| users := users s; userSettings := userSettings s; meetings := meetings s;
     meetingParticipants := meetingParticipants s;
     meetingReminders := meetingReminders s;
     notifications := f (notifications s);
     auditLogs := auditLogs s; rowsCreated := rowsCreated s |}.

Module NotificationService.

(** [orderBy: { createdAt: 'desc' }].  Rows with equal [createdAt] keep
    their table order; the store does not promise an order among them. *)
Fixpoint insertNewestFirst (n : Notification.t) (l : list Notification.t)
  : list Notification.t :=
  match l with
  | [] => [n]
  | m :: l' =>
      if Notification.createdAt m <=? Notification.createdAt n
      then n :: m :: l'
      else m :: insertNewestFirst n l'
  end.

Definition newestFirst (l : list Notification.t) : list Notification.t :=
  fold_right insertNewestFirst [] l.

(** The [where] of [getForUser]: [{ userId }], plus [isRead: false] when
    [options.unreadOnly] is set. *)
Definition listed (userId : Id) (unreadOnly : bool) (n : Notification.t) : bool :=
  String.eqb (Notification.userId n) userId
  && (if unreadOnly then negb (Notification.isRead n) else true).

(** The [limit] that reaches [getForUser]: the controller passes
    [limit ? parseInt(limit, 10) : undefined], an integer or [NaN]. *)
Inductive ParsedInt :=
| NaN
| Int (z : Z).

(** [options.limit || 50]: [undefined], [NaN] and 0 are falsy and give 50;
    every other integer, negative ones too, is passed on as it is. *)
Definition takeOf (limit : option ParsedInt) : Z :=
  match limit with
  | Some (Int z) => if z =? 0 then 50 else z
  | _ => 50
  end.

(** [take] of a [findMany]: a count that is not negative takes that many
    rows from the start of the ordered rows, a negative count takes as many
    from their end (the behaviour of the store client, which is not part
    of this repository). *)
Definition takeRows {A} (n : Z) (l : list A) : list A :=
  if 0 <=? n
  then firstn (Z.to_nat n) l
  else skipn (List.length l - Z.to_nat (- n)) l.

(** [NotificationService.getForUser] *)
Definition getForUser (userId : Id) (unreadOnly : bool) (limit : option ParsedInt)
    (s : Store) : list Notification.t :=
  takeRows (takeOf limit) (newestFirst (filter (listed userId unreadOnly) (notifications s))).

(** [NotificationService.getUnreadCount] *)
Definition getUnreadCount (userId : Id) (s : Store) : nat :=
  List.length (filter (listed userId true) (notifications s)).

Definition read (n : Notification.t) : Notification.t :=
  Notification.mk (Notification.id n) (Notification.type n) (Notification.title n)
    (Notification.message n) true (Notification.createdAt n) (Notification.userId n)
    (Notification.relatedMeetingId n).

(** [NotificationService.markAsRead]: [inl message] is
    [throw new Error(message)]. *)
Definition markAsRead (notificationId userId : Id) (s : Store)
  : (string + Notification.t) * Store :=
  match find (fun n => String.eqb (Notification.id n) notificationId) (notifications s) with
  | Some notification =>
      if negb (String.eqb (Notification.userId notification) userId)
      then (inl "Notification not found"%string, s)
      else (inr (read notification),
            with_notifications
              (map (fun n => if String.eqb (Notification.id n) notificationId
                             then read n else n)) s)
  | None => (inl "Notification not found"%string, s)
  end.

(** [NotificationService.markAllAsRead]: the count of the [updateMany]. *)
Definition markAllAsRead (userId : Id) (s : Store) : nat * Store :=
  (List.length (filter (listed userId true) (notifications s)),
   with_notifications (map (fun n => if listed userId true n then read n else n)) s).

End NotificationService.

(** [NotificationService.createMeetingInvitation] *)
Definition createMeetingInvitation (env : Env) (userId meetingId : Id)
    (meetingTitle inviterName : string) : M unit :=
  let message :=
    (inviterName ++ " invited you to " ++ quote ++ meetingTitle ++ quote)%string in
  create env userId MEETING_INVITATION "New Meeting Invitation" message (Some meetingId) ;;;
  sendExternalNotifications env userId "New Meeting Invitation" message (Some meetingId).

(** [NotificationService.createMeetingUpdate] *)
Definition createMeetingUpdate (env : Env) (userId meetingId : Id)
    (meetingTitle : string) : M unit :=
  let message :=
    ("The meeting " ++ quote ++ meetingTitle ++ quote ++ " has been updated")%string in
  create env userId MEETING_UPDATED "Meeting Updated" message (Some meetingId) ;;;
  sendExternalNotifications env userId "Meeting Updated" message (Some meetingId).

Definition statusText (status : ParticipantStatus) : string :=
  match status with
  | ACCEPTED => "accepted"
  | DECLINED => "declined"
  | TENTATIVE => "tentatively accepted"
  | INVITED => "was invited to"
  end.

(** [NotificationService.createParticipantResponse] *)
Definition createParticipantResponse (env : Env) (userId meetingId : Id)
    (meetingTitle participantName : string) (status : ParticipantStatus) : M unit :=
  create env userId PARTICIPANT_RESPONDED "Response Received"
    (participantName ++ " " ++ statusText status ++ " your invitation to "
       ++ quote ++ meetingTitle ++ quote)%string
    (Some meetingId) ;;;
  ret tt.

(** ** Meeting service: deleting and responding *)

Definition with_meetingParticipants
  (f : list MeetingParticipant.t -> list MeetingParticipant.t) (s : Store) : Store :=
  {| users := users s; userSettings := userSettings s; meetings := meetings s;
     meetingParticipants := f (meetingParticipants s);
     meetingReminders := meetingReminders s; notifications := notifications s;
     auditLogs := auditLogs s; rowsCreated := rowsCreated s |}.

Definition unlinked (mid : Id) (n : Notification.t) : Notification.t :=
  match Notification.relatedMeetingId n with
  | Some m =>
      if String.eqb m mid
      then Notification.mk (Notification.id n) (Notification.type n) (Notification.title n)
             (Notification.message n) (Notification.isRead n) (Notification.createdAt n)
             (Notification.userId n) None
      else n
  | None => n
  end.

(** Deleting a meeting row under the foreign keys of the schema:
    participants and reminders [ON DELETE CASCADE], the meeting link of a
    notification [ON DELETE SET NULL]. *)
Definition withoutMeeting (mid : Id) (s : Store) : Store :=
  {| users := users s; userSettings := userSettings s;
     meetings := filter (fun m => negb (String.eqb (Meeting.id m) mid)) (meetings s);
     meetingParticipants :=
       filter (fun p => negb (String.eqb (MeetingParticipant.meetingId p) mid))
              (meetingParticipants s);
     meetingReminders :=
       filter (fun r => negb (String.eqb (MeetingReminder.meetingId r) mid))
              (meetingReminders s);
     notifications := map (unlinked mid) (notifications s);
     auditLogs := auditLogs s; rowsCreated := rowsCreated s |}.

(** [prisma.meeting.delete({ where: { id } })]: rejects when no row has
    the id. *)
Definition deleteMeetingRow (mid : Id) : M unit :=
  fun w =>
    match findMeeting (db w) mid with
    | Some _ => (Ok tt, withDb (withoutMeeting mid) w)
    | None => (Throw (PrismaError "Record to delete does not exist."), w)
    end.

Module MeetingService.

(** [MeetingService.delete] *)
Definition delete (env : Env) (meetingId userId : Id) : M unit :=
  mtg <- getById meetingId userId ;;
  if negb (String.eqb (Meeting.createdByUserId (meeting_row mtg)) userId)
  then throw (AppError "Only the meeting creator can delete it" 403)
  else
    (match Meeting.googleCalendarEventId (meeting_row mtg) with
     | Some eventId =>
         if truthy (Some eventId)
         then tryCatch (invoke env (GoogleDeleteEvent userId eventId))
                (fun e => consoleError "Failed to delete from Google Calendar:" e)
         else ret tt
     | None => ret tt
     end) ;;;
    deleteMeetingRow meetingId ;;;
    createAuditLog "MEETING_DELETED" "Meeting" (Some meetingId) (Some userId).

Definition withStatus (status : ParticipantStatus) (p : MeetingParticipant.t)
  : MeetingParticipant.t :=
  MeetingParticipant.mk (MeetingParticipant.id p) (MeetingParticipant.email p) status
    (MeetingParticipant.meetingId p) (MeetingParticipant.userId p).

(** [prisma.meetingParticipant.update({ where: { id }, data: { status } })] *)
Definition updateParticipantStatus (pid : Id) (status : ParticipantStatus)
  : M MeetingParticipant.t :=
  fun w =>
    match find (fun p => String.eqb (MeetingParticipant.id p) pid)
               (meetingParticipants (db w)) with
    | Some p =>
        (Ok (withStatus status p),
         withDb (with_meetingParticipants
                   (map (fun q => if String.eqb (MeetingParticipant.id q) pid
                                  then withStatus status q else q))) w)
    | None => (Throw (PrismaError "Record to update not found."), w)
    end.

(** [MeetingService.respondToInvitation].  As everywhere here, a read of
    the store returns; of the awaited steps after the status write it is
    the notification insert that is given a way to throw. *)
Definition respondToInvitation (env : Env) (meetingId userId : Id)
    (status : ParticipantStatus) : M MeetingParticipant.t :=
  mtg <- getById meetingId userId ;;
  match find (linkedTo userId) (participants mtg) with
  | None => throw (AppError "You are not a participant of this meeting" 403)
  | Some p =>
      updated <- updateParticipantStatus (MeetingParticipant.id (participant p)) status ;;
      s <- getDb ;;
      (match findUser s userId with
       | Some u =>
           if negb (String.eqb (Meeting.createdByUserId (meeting_row mtg)) userId)
           then createParticipantResponse env (Meeting.createdByUserId (meeting_row mtg))
                  meetingId (Meeting.title (meeting_row mtg)) (User.name u) status
           else ret tt
       | None => ret tt
       end) ;;;
      createAuditLog "PARTICIPANT_RESPONDED" "MeetingParticipant"
        (Some (MeetingParticipant.id (participant p))) (Some userId) ;;;
      ret updated
  end.

End MeetingService.

(** ** settings.service.ts *)

Definition with_userSettings (f : list UserSettings.t -> list UserSettings.t) (n : nat)
    (s : Store) : Store :=
  {| users := users s; userSettings := f (userSettings s); meetings := meetings s;
     meetingParticipants := meetingParticipants s;
     meetingReminders := meetingReminders s; notifications := notifications s;
     auditLogs := auditLogs s; rowsCreated := rowsCreated s + n |}.

Definition with_users (f : list User.t -> list User.t) (s : Store) : Store :=
  {| users := f (users s); userSettings := userSettings s; meetings := meetings s;
     meetingParticipants := meetingParticipants s;
     meetingReminders := meetingReminders s; notifications := notifications s;
     auditLogs := auditLogs s; rowsCreated := rowsCreated s |}.

(** [UpdateSettingsInput]; the timezone and the theme are columns outside
    the data model here, their presence still decides which updates run. *)
Record UpdateSettingsInput := {
  usi_name : option string;
  usi_timezone : option string;
  usi_emailNotificationsEnabled : option bool;
  usi_pushNotificationsEnabled : option bool;
  usi_inAppNotificationsEnabled : option bool;
  usi_themePreference : option string }.

Module SettingsService.

Definition defaults (userId : Id) : UserSettings.t := UserSettings.mk userId true true true.

(** [SettingsService.get] *)
Definition get (userId : Id) : M (User.t * UserSettings.t) :=
  s <- getDb ;;
  match findUser s userId with
  | None => throw (AppError "User not found" 404)
  | Some u =>
      match findSettings s userId with
      | None =>
          modifyDb (with_userSettings (fun l => l ++ [defaults userId]) 1) ;;;
          ret (u, defaults userId)
      | Some settings => ret (u, settings)
      end
  end.

Definition orKeep {A} (o : option A) (a : A) : A :=
  match o with
  | Some x => x
  | None => a
  end.

(** The [data] of the update of the settings row. *)
Definition applyFlags (input : UpdateSettingsInput) (x : UserSettings.t) : UserSettings.t :=
  UserSettings.mk (UserSettings.userId x)
    (orKeep (usi_emailNotificationsEnabled input) (UserSettings.emailNotificationsEnabled x))
    (orKeep (usi_pushNotificationsEnabled input) (UserSettings.pushNotificationsEnabled x))
    (orKeep (usi_inAppNotificationsEnabled input) (UserSettings.inAppNotificationsEnabled x)).

Definition given {A} (o : option A) : bool :=
  match o with
  | Some _ => true
  | None => false
  end.

(** [prisma.userSettings.update({ where: { userId }, data })] *)
Definition updateSettingsRow (userId : Id) (input : UpdateSettingsInput) : M unit :=
  fun w =>
    match findSettings (db w) userId with
    | Some _ =>
        (Ok tt,
         withDb (with_userSettings
                   (map (fun x => if String.eqb (UserSettings.userId x) userId
                                  then applyFlags input x else x)) 0) w)
    | None => (Throw (PrismaError "Record to update not found."), w)
    end.

(** [prisma.user.update({ where: { id }, data: { name, timezone } })] *)
Definition updateUserRow (userId : Id) (input : UpdateSettingsInput) : M unit :=
  fun w =>
    match findUser (db w) userId with
    | Some _ =>
        (Ok tt,
         withDb (with_users
                   (map (fun u => if String.eqb (User.id u) userId
                                  then User.mk (User.id u) (User.email u)
                                         (orKeep (usi_name input) (User.name u))
                                  else u))) w)
    | None => (Throw (PrismaError "Record to update not found."), w)
    end.

(** [SettingsService.update] *)
Definition update (userId : Id) (input : UpdateSettingsInput) : M (User.t * UserSettings.t) :=
  get userId ;;;
  (if truthy (usi_name input) || truthy (usi_timezone input)
   then updateUserRow userId input
   else ret tt) ;;;
  (if given (usi_emailNotificationsEnabled input)
      || given (usi_pushNotificationsEnabled input)
      || given (usi_inAppNotificationsEnabled input)
      || truthy (usi_themePreference input)
   then updateSettingsRow userId input
   else ret tt) ;;;
  createAuditLog "SETTINGS_UPDATED" "UserSettings" (Some userId) (Some userId) ;;;
  get userId.

End SettingsService.

(** ** push.service.ts, over the subscription table *)

Module PushSubscription.
Record t := mk {
  id : Id;
  endpoint : string;
  p256dh : string;
  auth : string;
  userId : Id }.
End PushSubscription.

(** The [subscription] argument of [subscribe]. *)
Record SubscriptionInput := {
  si_endpoint : string;
  si_p256dh : string;
  si_auth : string }.

(** The [PushPayload] interface, with its optional icon and badge. *)
Record PushRequest := {
  pr_title : string;
  pr_body : string;
  pr_icon : option string;
  pr_badge : option string;
  pr_data : option (list (string * string)) }.

(** The object that [sendToUser] serialises for the push provider. *)
Record PushMessage := {
  pm_title : string;
  pm_body : string;
  pm_icon : string;
  pm_badge : string;
  pm_data : option (list (string * string)) }.

(** One entry of [Promise.allSettled]: fulfilled, or rejected with a reason
    that may carry a [statusCode]. *)
Inductive Settled :=
| Fulfilled
| Rejected (statusCode : option Z).

(** What [sendToUser] did: the deliveries it attempted, the subscription
    table it leaves, and its console lines. *)
Record Sent := {
  attempted : list (string * PushMessage);
  remaining : list PushSubscription.t;
  printed : list string }.

Module PushService.

Definition byEndpoint (endpoint : string) (r : PushSubscription.t) : bool :=
  String.eqb (PushSubscription.endpoint r) endpoint.

Definition ownedBy (userId : Id) (r : PushSubscription.t) : bool :=
  String.eqb (PushSubscription.userId r) userId.

Definition reassigned (userId : Id) (r : PushSubscription.t) : PushSubscription.t :=
  PushSubscription.mk (PushSubscription.id r) (PushSubscription.endpoint r)
    (PushSubscription.p256dh r) (PushSubscription.auth r) userId.

(** [PushService.subscribe]; [newId] is the id the store gives a new row. *)
Definition subscribe (newId : Id) (userId : Id) (subscription : SubscriptionInput)
    (rows : list PushSubscription.t) : list PushSubscription.t :=
  match find (byEndpoint (si_endpoint subscription)) rows with
  | Some existing =>
      if negb (String.eqb (PushSubscription.userId existing) userId)
      then map (fun r => if String.eqb (PushSubscription.id r) (PushSubscription.id existing)
                         then reassigned userId r else r) rows
      else rows
  | None =>
      rows ++ [PushSubscription.mk newId (si_endpoint subscription)
                 (si_p256dh subscription) (si_auth subscription) userId]
  end.

(** [PushService.unsubscribe] *)
Definition unsubscribe (endpoint : string) (rows : list PushSubscription.t)
  : list PushSubscription.t :=
  filter (fun r => negb (byEndpoint endpoint r)) rows.

(** [x || fallback] on an optional string. *)
Definition orElse (o : option string) (fallback : string) : string :=
  match o with
  | Some x => if truthy o then x else fallback
  | None => fallback
  end.

Definition messageOf (payload : PushRequest) : PushMessage :=
  {| pm_title := pr_title payload;
     pm_body := pr_body payload;
     pm_icon := orElse (pr_icon payload) "/icon-192x192.png";
     pm_badge := orElse (pr_badge payload) "/badge-72x72.png";
     pm_data := pr_data payload |}.

(** [error.statusCode === 404 || error.statusCode === 410] on a settled
    delivery. *)
Definition gone (r : Settled) : bool :=
  match r with
  | Rejected (Some code) => (code =? 404) || (code =? 410)
  | _ => false
  end.

(** [PushService.sendToUser]; [sendNotification] stands for the provider:
    what the delivery to an endpoint with its two keys settles to. *)
Definition sendToUser (isConfigured : bool)
    (sendNotification : string -> string -> string -> PushMessage -> Settled)
    (userId : Id) (payload : PushRequest) (rows : list PushSubscription.t) : Sent :=
  if negb isConfigured
  then {| attempted := [];
          remaining := rows;
          printed := [("[Push] Would send to user " ++ userId ++ ": "
                         ++ pr_title payload)%string] |}
  else
    let subscriptions := filter (ownedBy userId) rows in
    let notification := messageOf payload in
    let results :=
      map (fun sub => sendNotification (PushSubscription.endpoint sub)
                        (PushSubscription.p256dh sub) (PushSubscription.auth sub)
                        notification) subscriptions in
    let failedEndpoints :=
      map (fun sr => PushSubscription.endpoint (fst sr))
          (filter (fun sr => gone (snd sr)) (combine subscriptions results)) in
    {| attempted := map (fun sub => (PushSubscription.endpoint sub, notification))
                        subscriptions;
       remaining :=
         if (0 <? List.length failedEndpoints)%nat
         then filter (fun r => negb (existsb (String.eqb (PushSubscription.endpoint r))
                                             failedEndpoints)) rows
         else rows;
       printed := [] |}.

End PushService.

(** ** reminderJob.ts: the hourly cleanup of refresh tokens *)

Module RefreshToken.
Record t := mk {
  id : Id;
  token : string;
  expiresAt : DateTime;
  userId : Id }.
End RefreshToken.

(** The body of the hourly schedule: the [deleteMany] of the tokens with
    [expiresAt < now] and the line it prints when any was deleted. *)
Definition cleanupExpiredTokens (now : DateTime) (tokens : list RefreshToken.t)
  : list RefreshToken.t * list string :=
  let count :=
    List.length (filter (fun t => RefreshToken.expiresAt t <? now) tokens) in
  (filter (fun t => negb (RefreshToken.expiresAt t <? now)) tokens,
   if (0 <? count)%nat
   then [("Cleaned up " ++ showZ (Z.of_nat count) ++ " expired refresh tokens")%string]
   else []).

(** The store check of [AuthService.refresh]: the token is on record and
    [expiresAt < now] does not hold. *)
Definition storedTokenAccepted (now : DateTime) (refreshToken : string)
    (tokens : list RefreshToken.t) : bool :=
  match find (fun t => String.eqb (RefreshToken.token t) refreshToken) tokens with
  | Some storedToken => negb (RefreshToken.expiresAt storedToken <? now)
  | None => false
  end.

(** ** Vocabulary of the further properties *)

(** [a] may be listed before [b] under [createdAt: 'desc']. *)
Definition newerFirst (a b : Notification.t) : Prop :=
  Notification.createdAt b <= Notification.createdAt a.

(** The [isRead: true] update of [markAsRead], row by row. *)
Definition markedRead (notificationId : Id) (a b : Notification.t) : Prop :=
  if String.eqb (Notification.id a) notificationId
  then b = NotificationService.read a
  else b = a.

(** The run [r] from [w] returned and served each channel of user [u]
    once if the channel is enabled in [w], and not at all otherwise. *)
Definition eachChannelOnce (u : User.t) (w : World) (r : Outcome unit * World) : Prop :=
  let st := findSettings (db w) (User.id u) in
  fst r = Ok tt
  /\ List.length (newNotifications w (snd r))
     = (if enabled UserSettings.inAppNotificationsEnabled st then 1 else 0)%nat
  /\ Forall (fun n => Notification.userId n = User.id u) (newNotifications w (snd r))
  /\ emailsTo (User.email u) (newCalls w (snd r))
     = (if enabled UserSettings.emailNotificationsEnabled st then 1 else 0)%nat
  /\ pushesTo (User.id u) (newCalls w (snd r))
     = (if enabled UserSettings.pushNotificationsEnabled st then 1 else 0)%nat.

(** What a tick may do to the reminder row [r]: nothing, or mark it sent
    if its id is one of [ids]. *)
Definition markedIfIn (ids : list Id) (r r' : MeetingReminder.t) : Prop :=
  r' = r \/ (In (MeetingReminder.id r) ids /\ exists now, r' = MeetingReminder.markSent now r).

(** The window in which a pending reminder with lead time [leadTime] of
    an active meeting starting at [start] meets the [where] clause of the
    selector. *)
Definition inDueWindow (start : DateTime) (leadTime : Z) (now : DateTime) : Prop :=
  start - leadTime * 60 * 1000 - 60 * 1000 <= now /\ now < start.

(** ** A small deployment, used to run the definitions *)

Module Sample.
Local Open Scope string_scope.

Definition alice : User.t := User.mk "u-alice" "alice@example.com" "Alice".
Definition bob : User.t := User.mk "u-bob" "bob@example.com" "Bob".
Definition carol : User.t := User.mk "u-carol" "carol@example.com" "Carol".

(** Bob keeps in-app notifications and switched email and push off. *)
Definition bobSettings : UserSettings.t := UserSettings.mk "u-bob" false false true.

(** Carol switched in-app notifications off and keeps email and push. *)
Definition carolSettings : UserSettings.t := UserSettings.mk "u-carol" true true false.

Definition minute : Z := 60 * 1000.
Definition noon : DateTime := 1764590400000.

(** Starts sixteen minutes after [noon], with reminders at 15 and 5 minutes. *)
Definition standup : Meeting.t :=
  Meeting.mk "m-1" "Standup" None (noon + 16 * minute) (noon + 46 * minute)
    "UTC" None false None [15; 5] "u-alice".

Definition pAlice : MeetingParticipant.t :=
  MeetingParticipant.mk "p-1" "alice@example.com" ACCEPTED "m-1" (Some "u-alice"%string).
Definition pBob : MeetingParticipant.t :=
  MeetingParticipant.mk "p-2" "bob@example.com" INVITED "m-1" (Some "u-bob"%string).
Definition pGuest : MeetingParticipant.t :=
  MeetingParticipant.mk "p-3" "guest@example.com" INVITED "m-1" None.
Definition pCarol : MeetingParticipant.t :=
  MeetingParticipant.mk "p-4" "carol@example.com" TENTATIVE "m-1" (Some "u-carol"%string).

Definition r15 : MeetingReminder.t :=
  MeetingReminder.mk "r-15" 15 (noon + minute) None false false false noon "m-1".
Definition r5 : MeetingReminder.t :=
  MeetingReminder.mk "r-5" 5 (noon + 11 * minute) None false false false noon "m-1".

Definition store : Store :=
  {| users := [alice; bob; carol];
     userSettings := [bobSettings; carolSettings];
     meetings := [standup];
     meetingParticipants := [pAlice; pBob; pGuest; pCarol];
     meetingReminders := [r15; r5];
     notifications := [];
     auditLogs := [];
     rowsCreated := 0 |}.

Definition world : World := {| db := store; calls := []; console := [] |}.

(** The 15-minute reminder as the selector returns it at [noon]. *)
Definition due : ReminderWithMeeting :=
  {| reminder_row := r15; meeting := includeMeeting store standup |}.

Definition rowId (n : nat) : Id := ("row-" ++ showZ (Z.of_nat n))%string.

(** Every collaborator answers; the clock stands at [noon]. *)
Definition calm : Env :=
  {| dateNow := fun _ => noon;
     uuid := rowId;
     callThrows := fun _ _ => None;
     notificationCreateThrows := fun _ _ => None |}.

(** The SMTP transport rejects every message. *)
Definition smtpDown : Env :=
  {| dateNow := fun _ => noon;
     uuid := rowId;
     callThrows := fun _ c =>
       match c with
       | SendMeetingReminder _ _ _ | SendMeetingNotification _ _ =>
           Some (TransportError "ECONNREFUSED")
       | _ => None
       end;
     notificationCreateThrows := fun _ _ => None |}.


End Sample.

(** ** More of the deployment: an inbox, push subscriptions, refresh tokens *)

Module Fixture.
Local Open Scope string_scope.

Definition aliceNotice : Notification.t :=
  Notification.mk "n-1" MEETING_REMINDER "Meeting Reminder" "Standup starts in 15 minutes"
    false Sample.noon "u-alice" (Some "m-1").
Definition bobNotice : Notification.t :=
  Notification.mk "n-2" MEETING_INVITATION "New Meeting Invitation" "Alice invited you"
    false (Sample.noon - Sample.minute) "u-bob" (Some "m-1").

(** The sample store with one unread notification for Alice and one for Bob. *)
Definition inbox : Store := with_notifications (fun _ => [aliceNotice; bobNotice]) Sample.store.

Definition aliceLaptop : PushSubscription.t :=
  PushSubscription.mk "s-1" "https://push.example/a" "key-a" "auth-a" "u-alice".
Definition bobPhone : PushSubscription.t :=
  PushSubscription.mk "s-2" "https://push.example/b" "key-b" "auth-b" "u-bob".

Definition subscriptions : list PushSubscription.t := [aliceLaptop; bobPhone].

(** Carol signs in on the browser that Alice used. *)
Definition carolOnLaptop : SubscriptionInput :=
  {| si_endpoint := "https://push.example/a"; si_p256dh := "key-c"; si_auth := "auth-c" |}.

(** A provider for which Alice's endpoint has expired. *)
Definition laptopGone (endpoint p256dh auth : string) (message : PushMessage) : Settled :=
  if String.eqb endpoint "https://push.example/a" then Rejected (Some 410) else Fulfilled.

Definition hello : PushRequest :=
  {| pr_title := "Hello"; pr_body := "World"; pr_icon := None; pr_badge := None;
     pr_data := None |}.

Definition staleToken : RefreshToken.t :=
  RefreshToken.mk "t-1" "token-old" (Sample.noon - Sample.minute) "u-alice".
Definition freshToken : RefreshToken.t :=
  RefreshToken.mk "t-2" "token-new" (Sample.noon + Sample.minute) "u-bob".

Definition tokens : list RefreshToken.t := [staleToken; freshToken].

(** Alice switches push notifications off and sends nothing else. *)
Definition pushOff : UpdateSettingsInput :=
  {| usi_name := None; usi_timezone := None;
     usi_emailNotificationsEnabled := None;
     usi_pushNotificationsEnabled := Some false;
     usi_inAppNotificationsEnabled := None;
     usi_themePreference := None |}.

End Fixture.

(** * Properties *)

(** ** Rules for [hoare] *)

Section Rules.
Context {A B : Type}.

Lemma hoare_ret (P : World -> Prop) (a : A) Q E :
  (forall w, P w -> Q a w) -> hoare P (ret a) Q E.
Proof. intros H w Hw. simpl. auto. Qed.

Lemma hoare_throw (P : World -> Prop) (e : Error) (Q : A -> World -> Prop) (E : Error -> World -> Prop) :
  (forall w, P w -> E e w) -> hoare P (throw e) Q E.
Proof. intros H w Hw. simpl. auto. Qed.

Lemma hoare_bind P (m : M A) (k : A -> M B) Q1 Q E :
  hoare P m Q1 E -> (forall a, hoare (Q1 a) (k a) Q E) -> hoare P (bind m k) Q E.
Proof.
  intros Hm Hk w Hw. unfold bind. specialize (Hm w Hw).
  destruct (m w) as [[a|e] w']; auto. apply Hk, Hm.
Qed.

Lemma hoare_tryCatch P (m : M A) (h : Error -> M A) Q E1 E :
  hoare P m Q E1 -> (forall e, hoare (E1 e) (h e) Q E) -> hoare P (tryCatch m h) Q E.
Proof.
  intros Hm Hh w Hw. unfold tryCatch. specialize (Hm w Hw).
  destruct (m w) as [[a|e] w']; auto. apply Hh, Hm.
Qed.

Lemma hoare_conseq (P P' : World -> Prop) (m : M A) (Q Q' : A -> World -> Prop)
    (E E' : Error -> World -> Prop) :
  hoare P' m Q' E' ->
  (forall w, P w -> P' w) ->
  (forall a w, Q' a w -> Q a w) ->
  (forall e w, E' e w -> E e w) ->
  hoare P m Q E.
Proof.
  intros H HP HQ HE w Hw. specialize (H w (HP w Hw)).
  destruct (m w) as [[a|e] w']; auto.
Qed.

Lemma hoare_weaken (P : World -> Prop) (m : M A) (Q : A -> World -> Prop)
    (E E' : Error -> World -> Prop) :
  hoare P m Q E' -> (forall e w, E' e w -> E e w) -> hoare P m Q E.
Proof. intros H HE. eapply hoare_conseq; eauto. Qed.

(** The store read by [getDb] is the store of a world in [P]. *)
Lemma hoare_getDb P (k : Store -> M B) Q E :
  (forall w0, P w0 -> hoare P (k (db w0)) Q E) ->
  hoare P (bind getDb k) Q E.
Proof. intros H w Hw. unfold bind, getDb. now apply (H w Hw w). Qed.

Lemma hoare_currentDate env P (k : DateTime -> M B) Q E :
  (forall now, hoare P (k now) Q E) -> hoare P (bind (currentDate env) k) Q E.
Proof. intros H w Hw. unfold bind, currentDate. now apply H. Qed.

End Rules.

Lemma hoare_forOf {A} (I : list A -> World -> Prop) (l : list A) (body : A -> M unit)
    (E : Error -> World -> Prop) :
  (forall pre x post, l = pre ++ x :: post ->
     hoare (I pre) (body x) (fun _ => I (pre ++ [x])) E) ->
  hoare (I []) (forOf l body) (fun _ => I l) E.
Proof.
  intros H.
  assert (G : forall post pre, l = pre ++ post ->
                hoare (I pre) (forOf post body) (fun _ => I l) E).
  { induction post as [|x post IH]; intros pre Hl.
    - rewrite app_nil_r in Hl. rewrite <- Hl. now apply hoare_ret.
    - simpl. eapply hoare_bind; [apply (H pre x post Hl)|].
      intros ?. apply IH. now rewrite <- app_assoc. }
  now apply (G l []).
Qed.

Lemma preserves_forOf {A} (I : World -> Prop) (l : list A) (body : A -> M unit)
    (E : Error -> World -> Prop) :
  (forall x, In x l -> hoare I (body x) (fun _ => I) E) ->
  hoare I (forOf l body) (fun _ => I) E.
Proof.
  intros H. apply (hoare_forOf (fun _ => I)).
  intros pre x post Hl. apply H. rewrite Hl. apply in_elt.
Qed.

(** ** What dispatch work preserves *)

Ltac hstep :=
  unfold preserves;
  lazymatch goal with
  | |- hoare _ (ret _) _ _ => apply hoare_ret
  | |- hoare _ (throw _) _ _ => apply hoare_throw
  | |- hoare _ (bind getDb _) _ _ => apply hoare_getDb; intros ? ?
  | |- hoare _ (bind (currentDate _) _) _ _ => apply hoare_currentDate; intros ?
  | |- hoare _ (if ?b then _ else _) _ _ => destruct b eqn:?
  | |- hoare _ (match ?x with _ => _ end) _ _ => destruct x eqn:?
  end.

Section Since.
Variable env : Env.
Variable P : Call -> Prop.
Variable Rr : list MeetingReminder.t -> list MeetingReminder.t -> Prop.
Variable w0 : World.

Local Abbreviation I := (since P Rr w0).

Lemma since_logged w entry :
  I w -> I {| db := db w; calls := calls w; console := console w ++ [entry] |}.
Proof.
  intros [? ? ? ? ? ? [ext Hc] ?]. constructor; simpl; auto.
  exists (ext ++ [entry]). now rewrite Hc, app_assoc.
Qed.

Lemma since_invoked w c r :
  P c -> I w -> I {| db := db w; calls := calls w ++ [(c, r)]; console := console w |}.
Proof.
  intros HP [? ? ? ? ? [ext [Hc HF]] ? ?]. constructor; simpl; auto.
  exists (ext ++ [(c, r)]). rewrite Hc, app_assoc. split; auto.
  apply Forall_app. split; auto.
Qed.

Lemma since_inserted w row : I w -> I (withDb (with_notification row) w).
Proof.
  intros [? ? ? ? ? ? ? [ext Hn]]. constructor; simpl; auto.
  exists (ext ++ [row]). now rewrite Hn, app_assoc.
Qed.

Lemma since_auditLog w a : I w -> I (withDb (with_auditLog a) w).
Proof. intros [? ? ? ? ? ? ? ?]. constructor; simpl; auto. Qed.

Lemma since_findSettings w uid : I w -> findSettings (db w) uid = findSettings (db w0) uid.
Proof. intros H. unfold findSettings. now rewrite (since_settings _ _ _ _ H). Qed.

Lemma keeps_consoleError msg e E :
  hoare I (consoleError msg e) (fun _ => I) E.
Proof. intros w Hw. simpl. now apply since_logged. Qed.

Lemma keeps_consoleLog msg E :
  hoare I (consoleLog msg) (fun _ => I) E.
Proof. intros w Hw. simpl. now apply since_logged. Qed.

Lemma keeps_invoke c : P c -> preserves I (invoke env c).
Proof.
  intros HP w Hw. unfold invoke.
  destruct (callThrows env (calls w) c); now apply since_invoked.
Qed.

(** A guarded call never throws. *)
Lemma keeps_guarded c msg :
  P c ->
  hoare I (tryCatch (invoke env c) (fun e => consoleError msg e))
    (fun _ => I) (fun _ _ => False).
Proof.
  intros HP. eapply hoare_tryCatch; [apply keeps_invoke, HP|].
  intros e. apply keeps_consoleError.
Qed.

Lemma keeps_notificationCreate d :
  hoare I (notificationCreate env d) (fun _ => I)
    (fun e w => I w /\ exists h, notificationCreateThrows env h d = Some e).
Proof.
  intros w Hw. unfold notificationCreate.
  destruct (notificationCreateThrows env (calls w) d) eqn:T.
  - split; eauto.
  - now apply since_inserted.
Qed.

Lemma keeps_create uid ty title msg rel :
  hoare I (create env uid ty title msg rel) (fun _ => I)
    (fun e w => I w /\ exists h d,
       nd_relatedMeetingId d = rel /\ notificationCreateThrows env h d = Some e).
Proof.
  unfold create. hstep. hstep.
  - eapply hoare_conseq; [apply keeps_notificationCreate | auto | auto |].
    intros e w [? [h ?]]. split; auto. eexists h, _. split; [|eassumption]. reflexivity.
  - hstep. hstep. auto.
Qed.

Lemma keeps_meetingEmailData m : preserves I (meetingEmailData m).
Proof. unfold meetingEmailData. hstep; hstep; auto. Qed.

Hypothesis P_notification : forall to d, P (SendMeetingNotification to d).
Hypothesis P_push :
  forall uid payload,
    enabled UserSettings.pushNotificationsEnabled (findSettings (db w0) uid) = true ->
    P (SendToUser uid payload).

Lemma keeps_sendExternalNotifications uid title msg mid :
  hoare I (sendExternalNotifications env uid title msg mid)
    (fun _ => I) (fun _ _ => False).
Proof.
  unfold sendExternalNotifications. hstep.
  rewrite (since_findSettings _ _ H).
  hstep; [|hstep; auto].
  eapply hoare_bind with (Q1 := fun _ => I).
  - hstep; [|hstep; auto].
    eapply hoare_tryCatch with (E1 := fun _ => I).
    + eapply hoare_bind with (Q1 := fun _ => I).
      * hstep; [|hstep; auto].
        eapply hoare_bind; [apply keeps_meetingEmailData|].
        intros d. hstep. auto.
      * intros d. apply keeps_invoke, P_notification.
    + intros e. apply keeps_consoleError.
  - intros _. hstep; [|hstep; auto].
    apply keeps_guarded. now apply P_push.
Qed.

Lemma keeps_createMeetingReminder uid mid title mb :
  hoare I (createMeetingReminder env uid mid title mb) (fun _ => I)
    (fun e w => I w /\ inAppThrew env mid e).
Proof.
  unfold createMeetingReminder.
  eapply hoare_bind with (Q1 := fun _ => I).
  - eapply hoare_conseq; [apply keeps_create | auto | auto |].
    intros e w [? (h & d & ? & ?)]. split; auto. now exists h, d.
  - intros _. eapply hoare_conseq; [apply keeps_sendExternalNotifications | auto | auto |].
    intros e w [].
Qed.

Lemma keeps_createMeetingCancellation uid mid title name :
  preserves I (createMeetingCancellation env uid mid title name).
Proof.
  unfold createMeetingCancellation.
  eapply hoare_bind with (Q1 := fun _ => I).
  - eapply hoare_conseq; [apply keeps_create | auto | auto |].
    now intros e w [? ?].
  - intros _. eapply hoare_conseq; [apply keeps_sendExternalNotifications | auto | auto |].
    intros e w [].
Qed.

Hypothesis P_email : forall to d mb, P (SendMeetingReminder to d mb).

Lemma keeps_processParticipant r mtg p :
  hoare I (processParticipant env r mtg p) (fun _ => I)
    (fun e w => I w /\ inAppThrew env (Meeting.id (meeting_row mtg)) e).
Proof.
  unfold processParticipant. hstep; [hstep; auto|].
  hstep; [|hstep; auto]. hstep.
  rewrite (since_findSettings _ _ H).
  eapply hoare_bind with (Q1 := fun _ => I).
  - hstep; [apply keeps_createMeetingReminder | hstep; auto].
  - intros _. eapply hoare_bind with (Q1 := fun _ => I).
    + hstep; [|hstep; auto].
      eapply hoare_tryCatch with (E1 := fun _ => I).
      * eapply hoare_bind; [apply keeps_meetingEmailData|].
        intros d. apply keeps_invoke, P_email.
      * intros e. apply keeps_consoleError.
    + intros _. hstep; [|hstep; auto].
      eapply hoare_conseq; [apply keeps_guarded | auto | auto |].
      * now apply P_push.
      * intros e w [].
Qed.

Lemma keeps_participants r mtg ps :
  hoare I (forOf ps (processParticipant env r mtg)) (fun _ => I)
    (fun e w => I w /\ inAppThrew env (Meeting.id (meeting_row mtg)) e).
Proof. apply preserves_forOf. intros p _. apply keeps_processParticipant. Qed.

End Since.

(** ** The reminder table under the dispatch loop *)

Lemma evolves_refl l : Forall2 evolves l l.
Proof. induction l; constructor; auto. split; auto. Qed.

Lemma evolves_trans l1 l2 l3 :
  Forall2 evolves l1 l2 -> Forall2 evolves l2 l3 -> Forall2 evolves l1 l3.
Proof.
  intros H. revert l3. induction H as [|a b l1 l2 [Hid Hs] _ IH]; intros l3 H23.
  - inversion H23. constructor.
  - inversion H23 as [|b' c l2' l3' [Hid' Hs'] Hrest]; subst.
    constructor; [|now apply IH]. split; [congruence | auto].
Qed.

Lemma evolves_after l l' row' :
  Forall2 evolves l l' -> In row' l' -> exists row, In row l /\ evolves row row'.
Proof.
  induction 1 as [|a b l l' Hab _ IH]; simpl; [tauto|].
  intros [<- | Hin]; [eauto|]. destruct (IH Hin) as (row & ? & ?). eauto.
Qed.

Lemma evolves_before l l' row :
  Forall2 evolves l l' -> In row l -> exists row', In row' l' /\ evolves row row'.
Proof.
  induction 1 as [|a b l l' Hab _ IH]; simpl; [tauto|].
  intros [<- | Hin]; [eauto|]. destruct (IH Hin) as (row' & ? & ?). eauto.
Qed.

Lemma fullySent_markSent now r : MeetingReminder.fullySent (MeetingReminder.markSent now r).
Proof. unfold MeetingReminder.fullySent. simpl. repeat split; auto. discriminate. Qed.

Lemma evolves_update rid now l :
  Forall2 evolves l
    (map (fun r => if String.eqb (MeetingReminder.id r) rid
                   then MeetingReminder.markSent now r else r) l).
Proof.
  induction l as [|r l IH]; simpl; constructor; auto.
  destruct (String.eqb (MeetingReminder.id r) rid); split; auto.
  intros _. apply fullySent_markSent.
Qed.

Lemma since_refl P Rr w : (forall l, Rr l l) -> since P Rr w w.
Proof.
  intros HR. constructor; auto.
  - exists []. now rewrite app_nil_r.
  - exists []. now rewrite app_nil_r.
  - exists []. now rewrite app_nil_r.
Qed.

Lemma since_trans P R1 R2 R3 a b c :
  (forall x y z, R1 x y -> R2 y z -> R3 x z) ->
  since P R1 a b -> since P R2 b c -> since P R3 a c.
Proof.
  intros HR [u1 s1 m1 p1 r1 (e1 & c1 & f1) (o1 & k1) (n1 & t1)]
            [u2 s2 m2 p2 r2 (e2 & c2 & f2) (o2 & k2) (n2 & t2)].
  constructor; try congruence; eauto.
  - exists (e1 ++ e2). rewrite c2, c1, app_assoc. split; auto.
    apply Forall_app. auto.
  - exists (o1 ++ o2). now rewrite k2, k1, app_assoc.
  - exists (n1 ++ n2). now rewrite t2, t1, app_assoc.
Qed.

Lemma since_weaken (P P' : Call -> Prop) (R R' : _ -> _ -> Prop) a b :
  (forall c, P c -> P' c) -> (forall x y, R x y -> R' x y) ->
  since P R a b -> since P' R' a b.
Proof.
  intros HP HR [u s m p r (e & c & f) o n]. constructor; auto.
  exists e. split; auto. eapply Forall_impl; [|exact f]. simpl. auto.
Qed.

Lemma hasReminder_stable P w w' rid :
  since P (Forall2 evolves) w w' -> hasReminder rid w -> hasReminder rid w'.
Proof.
  intros H (row & Hin & Hid).
  destruct (evolves_before _ _ _ (since_reminders _ _ _ _ H) Hin) as (row' & Hin' & Hid' & _).
  exists row'. split; auto. congruence.
Qed.

Lemma marked_stable P w w' rid :
  since P (Forall2 evolves) w w' -> marked rid w -> marked rid w'.
Proof.
  intros H [Hex Hall]. split; [eapply hasReminder_stable; eauto|].
  intros row' Hin' Hid'.
  destruct (evolves_after _ _ _ (since_reminders _ _ _ _ H) Hin') as (row & Hin & Hid & Hs).
  apply Hs, Hall; congruence.
Qed.

Lemma logged_stable P Rr w w' msg :
  since P Rr w w' -> logged msg w -> logged msg w'.
Proof.
  intros H (e & Hin). destruct (since_console _ _ _ _ H) as (ext & Hc).
  exists e. rewrite Hc. apply in_or_app. auto.
Qed.

Lemma existsb_hasReminder rid w :
  existsb (fun r => String.eqb (MeetingReminder.id r) rid) (meetingReminders (db w)) = true
  <-> hasReminder rid w.
Proof.
  rewrite existsb_exists. unfold hasReminder.
  split; intros (row & Hin & H); exists row; split; auto; now apply String.eqb_eq.
Qed.

(** The update that marks a reminder, from any world. *)
Lemma updateReminder_spec rid now w :
  match updateReminder rid (MeetingReminder.markSent now) w with
  | (Ok _, w') => since anyCall (Forall2 evolves) w w' /\ marked rid w'
  | (Throw _, w') => w' = w /\ ~ hasReminder rid w
  end.
Proof.
  unfold updateReminder.
  destruct (existsb _ _) eqn:Ex.
  - apply existsb_hasReminder in Ex. split.
    + constructor; simpl; auto.
      * apply evolves_update.
      * exists []. rewrite app_nil_r. auto.
      * exists []. now rewrite app_nil_r.
      * exists []. now rewrite app_nil_r.
    + split.
      * destruct Ex as (row & Hin & Hid).
        exists (MeetingReminder.markSent now row). split; [|exact Hid].
        simpl. apply in_map_iff. exists row. split; auto.
        apply String.eqb_eq in Hid. now rewrite Hid.
      * simpl. intros row Hin Hid. apply in_map_iff in Hin.
        destruct Hin as (r0 & Hr0 & _).
        destruct (String.eqb (MeetingReminder.id r0) rid) eqn:Eq.
        -- subst row. apply fullySent_markSent.
        -- subst row. apply String.eqb_neq in Eq. contradiction.
  - split; auto. intros H. apply existsb_hasReminder in H. congruence.
Qed.

Lemma anyCall_all c : anyCall c.
Proof. exact Logic.I. Qed.

(** One reminder of the batch, from any world: on success the reminder is
    marked; a throw comes from the in-app writer or from a missing row, and
    leaves the reminder table as it was. *)
Lemma processReminder_spec env x w :
  match processReminder env x w with
  | (Ok _, w') =>
      since anyCall (Forall2 evolves) w w'
      /\ marked (MeetingReminder.id (reminder_row x)) w'
  | (Throw e, w') =>
      since anyCall eq w w'
      /\ (inAppThrew env (Meeting.id (meeting_row (meeting x))) e
          \/ ~ hasReminder (MeetingReminder.id (reminder_row x)) w)
  end.
Proof.
  unfold processReminder, bind.
  pose proof (keeps_participants env anyCall eq w
                (fun _ _ => Logic.I) (fun _ _ _ => Logic.I) (fun _ _ _ => Logic.I)
                (reminder_row x) (meeting x) (participants (meeting x)) w
                (since_refl _ _ _ (fun l => eq_refl))) as Hloop.
  destruct (forOf _ _ w) as [[[]|e] w1].
  - unfold currentDate.
    pose proof (updateReminder_spec (MeetingReminder.id (reminder_row x))
                  (dateNow env (calls w1)) w1) as Hupd.
    destruct (updateReminder _ _ w1) as [[[]|e] w2].
    + destruct Hupd as [Hs Hm]. split; auto.
      eapply since_trans; [|exact Hloop|exact Hs]. intros ? ? ? -> ?; auto.
    + destruct Hupd as [-> Hno]. split; auto. right.
      intros (row & Hin & Hid). apply Hno. exists row.
      rewrite <- (since_reminders _ _ _ _ Hloop). auto.
  - destruct Hloop as [Hs Hthrew]. auto.
Qed.

(** ** The selector *)

Lemma dueWith_spec now r m :
  dueWith now r m = true <->
  MeetingReminder.scheduledFor r <= now + 60 * 1000
  /\ MeetingReminder.sentAt r = None
  /\ Meeting.isCancelled m = false
  /\ now < Meeting.startTime m.
Proof.
  unfold dueWith, lookAhead.
  rewrite !andb_true_iff, Z.leb_le, Z.ltb_lt, negb_true_iff.
  destruct (MeetingReminder.sentAt r); intuition congruence.
Qed.

Lemma isDue_spec now s r :
  isDue now s r = true <->
  exists m, findMeeting s (MeetingReminder.meetingId r) = Some m /\ dueWith now r m = true.
Proof.
  unfold isDue. destruct (findMeeting s (MeetingReminder.meetingId r)) as [m|].
  - split; [intros H; exists m; auto | intros (m' & E & H); congruence].
  - split; [discriminate | intros (m' & E & _); discriminate].
Qed.

Lemma filterMap_In {A B} (f : A -> option B) l y :
  In y (filterMap f l) <-> exists x, In x l /\ f x = Some y.
Proof.
  induction l as [|a l IH]; simpl.
  - split; [tauto | intros (x & [] & _)].
  - destruct (f a) as [b|] eqn:E; simpl; rewrite IH; split.
    + intros [<- | (x & Hx & Hf)]; eauto.
    + intros (x & [<- | Hx] & Hf); [left; congruence | eauto].
    + intros (x & Hx & Hf); eauto.
    + intros (x & [<- | Hx] & Hf); [congruence | eauto].
Qed.

Lemma included_rows now s l :
  map reminder_row (filterMap (includeReminder s) (filter (isDue now s) l))
  = filter (isDue now s) l.
Proof.
  induction l as [|r l IH]; simpl; auto.
  destruct (isDue now s r) eqn:D; auto.
  simpl. unfold includeReminder at 1. unfold isDue in D.
  destruct (findMeeting s (MeetingReminder.meetingId r)); [|discriminate].
  simpl. now rewrite IH.
Qed.

Lemma selected_rows now s :
  map reminder_row (findDueReminders now s)
  = firstn batchSize (filter (isDue now s) (meetingReminders s)).
Proof.
  unfold findDueReminders. now rewrite <- firstn_map, included_rows.
Qed.

Lemma In_firstn {A} n (l : list A) x : In x (firstn n l) -> In x l.
Proof.
  revert l; induction n; intros [|a l]; simpl; try tauto.
  intros [H|H]; auto.
Qed.

Lemma selected_is_due now s x :
  In x (findDueReminders now s) ->
  In (reminder_row x) (meetingReminders s)
  /\ findMeeting s (MeetingReminder.meetingId (reminder_row x)) = Some (meeting_row (meeting x))
  /\ meeting x = includeMeeting s (meeting_row (meeting x))
  /\ dueWith now (reminder_row x) (meeting_row (meeting x)) = true.
Proof.
  unfold findDueReminders. intros H. apply In_firstn in H.
  apply filterMap_In in H. destruct H as (r & Hr & Hx).
  apply filter_In in Hr. destruct Hr as [Hin Hdue].
  unfold includeReminder in Hx. unfold isDue in Hdue.
  destruct (findMeeting s (MeetingReminder.meetingId r)) as [m|] eqn:E; [|discriminate].
  injection Hx as <-. simpl. auto.
Qed.

(** C2. At any time [now] the selector returns at most 100 reminders: the
    first 100, in table order, of the rows with
    [scheduledFor <= now + 1 minute], [sentAt] null and an owning meeting
    that is not cancelled and starts after [now].  Every returned reminder
    meets all four conditions, and when no more than 100 rows meet them
    every such row is returned. *)
Theorem selector_returns_due_batch (now : DateTime) (s : Store) :
  (List.length (findDueReminders now s) <= 100)%nat
  /\ map reminder_row (findDueReminders now s)
     = firstn 100 (filter (isDue now s) (meetingReminders s))
  /\ (forall x, In x (findDueReminders now s) ->
        In (reminder_row x) (meetingReminders s)
        /\ findMeeting s (MeetingReminder.meetingId (reminder_row x))
           = Some (meeting_row (meeting x))
        /\ MeetingReminder.scheduledFor (reminder_row x) <= now + 60 * 1000
        /\ MeetingReminder.sentAt (reminder_row x) = None
        /\ Meeting.isCancelled (meeting_row (meeting x)) = false
        /\ now < Meeting.startTime (meeting_row (meeting x)))
  /\ (forall r m,
        In r (meetingReminders s) ->
        findMeeting s (MeetingReminder.meetingId r) = Some m ->
        MeetingReminder.scheduledFor r <= now + 60 * 1000 ->
        MeetingReminder.sentAt r = None ->
        Meeting.isCancelled m = false ->
        now < Meeting.startTime m ->
        (List.length (filter (isDue now s) (meetingReminders s)) <= 100)%nat ->
        In r (map reminder_row (findDueReminders now s))).
Proof.
  split; [|split; [|split]].
  - unfold findDueReminders, batchSize. rewrite length_firstn. lia.
  - apply selected_rows.
  - intros x Hx. destruct (selected_is_due _ _ _ Hx) as (Hin & Hm & _ & Hdue).
    apply dueWith_spec in Hdue. tauto.
  - intros r m Hin Hm H1 H2 H3 H4 Hlen.
    rewrite selected_rows. unfold batchSize.
    rewrite firstn_all2 by exact Hlen.
    apply filter_In. split; auto.
    apply isDue_spec. exists m. split; auto.
    apply dueWith_spec. auto.
Qed.

(** ** Rows under a unique key *)

Lemma NoDup_map_inj {A B} (f : A -> B) l a b :
  NoDup (map f l) -> In a l -> In b l -> f a = f b -> a = b.
Proof.
  induction l as [|x l IH]; simpl; [tauto|].
  intros Hnd Ha Hb Hf. inversion Hnd as [|? ? Hx Hl]; subst.
  destruct Ha as [->|Ha], Hb as [->|Hb]; auto.
  - exfalso. apply Hx. rewrite Hf. now apply in_map.
  - exfalso. apply Hx. rewrite <- Hf. now apply in_map.
Qed.

(** ** The outer loop *)

Lemma processBatch_cons env x rest :
  processBatch env (x :: rest) = bind (guardedReminder env x) (fun _ => processBatch env rest).
Proof. reflexivity. Qed.

Lemma guardedReminder_spec env x w :
  let rid := MeetingReminder.id (reminder_row x) in
  match guardedReminder env x w with
  | (Ok _, w') =>
      since anyCall (Forall2 evolves) w w'
      /\ (marked rid w' \/ logged (reminderFailed rid) w')
      /\ (inAppReliable env (Meeting.id (meeting_row (meeting x))) ->
          hasReminder rid w -> marked rid w')
  | (Throw _, _) => False
  end.
Proof.
  intros rid. unfold guardedReminder, tryCatch.
  pose proof (processReminder_spec env x w) as H.
  destruct (processReminder env x w) as [[[]|e] w1].
  - destruct H as [Hs Hm]. auto.
  - destruct H as [Hs Hwhy]. simpl. split; [|split].
    + apply since_logged.
      eapply since_weaken; [| |exact Hs]; auto.
      intros ? ? ->. apply evolves_refl.
    + right. exists e. simpl. apply in_or_app. right. left. reflexivity.
    + intros Hrel Hex. exfalso. destruct Hwhy as [(h & d & Hd & Ht) | Hno]; auto.
      rewrite (Hrel h d Hd) in Ht. discriminate.
Qed.

Lemma processBatch_spec env batch : forall w,
  match processBatch env batch w with
  | (Ok _, w') =>
      since anyCall (Forall2 evolves) w w'
      /\ forall x, In x batch ->
           let rid := MeetingReminder.id (reminder_row x) in
           (marked rid w' \/ logged (reminderFailed rid) w')
           /\ (inAppReliable env (Meeting.id (meeting_row (meeting x))) ->
               hasReminder rid w -> marked rid w')
  | (Throw _, _) => False
  end.
Proof.
  induction batch as [|x rest IH]; intros w.
  - simpl. split; [apply since_refl, evolves_refl | intros x []].
  - rewrite processBatch_cons. unfold bind.
    pose proof (guardedReminder_spec env x w) as Hx.
    destruct (guardedReminder env x w) as [[[]|e] w1]; [|contradiction].
    simpl in Hx. destruct Hx as (Hs1 & Hout & Hmark).
    specialize (IH w1).
    destruct (processBatch env rest w1) as [[[]|e] w2]; [|contradiction].
    destruct IH as (Hs2 & Hrest). split.
    + eapply since_trans; [|exact Hs1|exact Hs2]. apply evolves_trans.
    + intros y [<- | Hy]; simpl.
      * split.
        -- destruct Hout as [Hm | Hl];
             [left; eapply marked_stable | right; eapply logged_stable]; eauto.
        -- intros Hrel Hex. eapply marked_stable; eauto.
      * destruct (Hrest y Hy) as (Hout' & Hmark'). split; auto.
        intros Hrel Hex. apply Hmark'; auto. eapply hasReminder_stable; eauto.
Qed.

Lemma forOf_app {A} (l1 l2 : list A) body w :
  forOf (l1 ++ l2) body w = bind (forOf l1 body) (fun _ => forOf l2 body) w.
Proof.
  revert w. induction l1 as [|x l1 IH]; intros w; simpl.
  - reflexivity.
  - unfold bind. destruct (body x w) as [[u|e] w1]; [|reflexivity].
    rewrite IH. reflexivity.
Qed.

Lemma processReminders_unfold env w :
  let batch := findDueReminders (dateNow env (calls w)) (db w) in
  processReminders env w
  = bind (processBatch env batch)
      (fun _ => if (0 <? List.length batch)%nat
                then consoleLog ("Processed " ++ showZ (Z.of_nat (List.length batch))
                                   ++ " reminders")%string
                else ret tt) w.
Proof. reflexivity. Qed.

Lemma processReminders_spec env w :
  match processReminders env w with
  | (Ok _, w') =>
      since anyCall (Forall2 evolves) w w'
      /\ forall x, In x (findDueReminders (dateNow env (calls w)) (db w)) ->
           let rid := MeetingReminder.id (reminder_row x) in
           (marked rid w' \/ logged (reminderFailed rid) w')
           /\ (inAppReliable env (Meeting.id (meeting_row (meeting x))) -> marked rid w')
  | (Throw _, _) => False
  end.
Proof.
  rewrite processReminders_unfold. cbv zeta. unfold bind.
  pose proof (processBatch_spec env (findDueReminders (dateNow env (calls w)) (db w)) w) as H.
  destruct (processBatch env _ w) as [[[]|e] w1]; [|contradiction].
  destruct H as (Hs & Hall).
  assert (Hsel : forall x, In x (findDueReminders (dateNow env (calls w)) (db w)) ->
                 hasReminder (MeetingReminder.id (reminder_row x)) w).
  { intros x Hx. apply selected_is_due in Hx. exists (reminder_row x). tauto. }
  destruct (0 <? _)%nat; simpl.
  - split.
    + now apply since_logged.
    + intros x Hx. destruct (Hall x Hx) as (Hout & Hmark). split.
      * destruct Hout as [Hm | (e & Hl)]; [left; exact Hm | right].
        exists e. simpl. apply in_or_app. auto.
      * intros Hrel. apply Hmark; auto.
  - split; auto. intros x Hx. destruct (Hall x Hx) as (Hout & Hmark). split; auto.
Qed.

(** C6.  The outer loop never throws, and neither does the tick, alone or
    under the scheduler's own guard.  Every
    reminder of a batch ends either marked as sent or with its own
    "Failed to process reminder" line on the console; and when processing
    one reminder throws, the error is logged under that reminder's id and
    the loop goes on with the rest of the batch from there. *)
Theorem batch_isolates_failures (env : Env) (batch : list ReminderWithMeeting) (w : World) :
  fst (processBatch env batch w) = Ok tt
  /\ fst (processReminders env w) = Ok tt
  /\ fst (reminderTick env w) = Ok tt
  /\ (forall x, In x batch ->
        marked (MeetingReminder.id (reminder_row x)) (snd (processBatch env batch w))
        \/ logged (reminderFailed (MeetingReminder.id (reminder_row x)))
             (snd (processBatch env batch w)))
  /\ (forall pre x post e w1,
        batch = pre ++ x :: post ->
        processReminder env x (snd (processBatch env pre w)) = (Throw e, w1) ->
        processBatch env batch w
        = processBatch env post
            {| db := db w1; calls := calls w1;
               console := console w1
                 ++ [(reminderFailed (MeetingReminder.id (reminder_row x)), Some e)] |}).
Proof.
  split; [|split; [|split; [|split]]].
  - pose proof (processBatch_spec env batch w) as H.
    destruct (processBatch env batch w) as [[[]|e] w']; [reflexivity | contradiction].
  - pose proof (processReminders_spec env w) as H.
    destruct (processReminders env w) as [[[]|e] w']; [reflexivity | contradiction].
  - unfold reminderTick, tryCatch.
    pose proof (processReminders_spec env w) as H.
    destruct (processReminders env w) as [[[]|e] w']; [reflexivity | contradiction].
  - intros x Hx. pose proof (processBatch_spec env batch w) as H.
    destruct (processBatch env batch w) as [[[]|e] w']; [|contradiction].
    simpl. destruct H as (_ & Hall). now apply (Hall x Hx).
  - intros pre x post e w1 -> Hthrow.
    unfold processBatch at 1. rewrite forOf_app. fold (processBatch env pre).
    unfold bind at 1.
    pose proof (processBatch_spec env pre w) as H.
    destruct (processBatch env pre w) as [[[]|e0] w0]; [|contradiction].
    simpl in Hthrow. simpl forOf. unfold bind at 1. unfold guardedReminder, tryCatch.
    rewrite Hthrow. reflexivity.
Qed.


(** ** Regenerating the reminders of a meeting *)

Lemma newReminders_content env at_ mid start leadTimes : forall n,
  map MeetingReminder.content
    (newReminders env at_ n
       (map (fun minutes =>
               {| ri_meetingId := mid; ri_minutesBefore := minutes;
                  ri_scheduledFor := start - minutes * 60 * 1000 |}) leadTimes))
  = map (pendingContent mid start) leadTimes.
Proof.
  induction leadTimes as [|lt rest IH]; intros n; simpl; auto.
  now rewrite IH.
Qed.

Lemma newReminders_meeting env at_ mid start leadTimes : forall n r,
  In r (newReminders env at_ n
          (map (fun minutes =>
                  {| ri_meetingId := mid; ri_minutesBefore := minutes;
                     ri_scheduledFor := start - minutes * 60 * 1000 |}) leadTimes)) ->
  MeetingReminder.meetingId r = mid.
Proof.
  induction leadTimes as [|lt rest IH]; intros n r; simpl; [tauto|].
  intros [<- | H]; [reflexivity | eauto].
Qed.

Lemma newReminders_count env at_ mid start lt leadTimes : forall n,
  List.length
    (filter (fun r => String.eqb (MeetingReminder.meetingId r) mid
                      && (MeetingReminder.minutesBefore r =? lt))
       (newReminders env at_ n
          (map (fun minutes =>
                  {| ri_meetingId := mid; ri_minutesBefore := minutes;
                     ri_scheduledFor := start - minutes * 60 * 1000 |}) leadTimes)))
  = count_occ Z.eq_dec leadTimes lt.
Proof.
  induction leadTimes as [|a rest IH]; intros n; simpl; auto.
  rewrite String.eqb_refl. simpl.
  destruct (Z.eq_dec a lt) as [->|Hne].
  - rewrite Z.eqb_refl. simpl. now rewrite IH.
  - apply Z.eqb_neq in Hne. rewrite Hne. apply IH.
Qed.

Lemma filter_none {A} (f : A -> bool) l :
  (forall x, In x l -> f x = false) -> filter f l = [].
Proof.
  induction l as [|a l IH]; simpl; intros H; auto.
  rewrite (H a (or_introl eq_refl)). apply IH. auto.
Qed.

Lemma filter_all {A} (f : A -> bool) l :
  (forall x, In x l -> f x = true) -> filter f l = l.
Proof.
  induction l as [|a l IH]; simpl; intros H; auto.
  rewrite (H a (or_introl eq_refl)). f_equal. apply IH. auto.
Qed.

Lemma filter_filter {A} (f g : A -> bool) l :
  filter f (filter g l) = filter (fun x => g x && f x) l.
Proof.
  induction l as [|a l IH]; simpl; auto.
  destruct (g a); simpl; [destruct (f a)|]; now rewrite IH.
Qed.

(** The reminder table after [regenerate]. *)
Lemma regenerate_table env mid start leadTimes w :
  fst (regenerate env mid start leadTimes w) = Ok tt
  /\ meetingReminders (db (snd (regenerate env mid start leadTimes w)))
     = remindersNotOf mid w
       ++ newReminders env (dateNow env (calls w)) (rowsCreated (db w) + 0)
            (map (fun minutes =>
                    {| ri_meetingId := mid; ri_minutesBefore := minutes;
                       ri_scheduledFor := start - minutes * 60 * 1000 |})
                 leadTimes).
Proof. split; reflexivity. Qed.

(** C7 (as amended).  [regenerate] deletes every reminder row of the
    meeting and appends one pending row per element of the lead-time
    list, in list order, with
    [scheduledFor = startTime - leadTime * 60 * 1000]; rows of other
    meetings are untouched.  Afterwards the number of rows of a
    (meeting, lead time) pair is the number of occurrences of that lead
    time in the list: exactly one for each configured lead time and none
    for the others when the list has no duplicates.  Running it again
    leaves the same rows up to the generated [id] and [createdAt]. *)
Theorem regenerate_replaces_reminders (env : Env) (mid : Id) (start : DateTime)
    (leadTimes : list Z) (w : World) :
  let w' := snd (regenerate env mid start leadTimes w) in
  fst (regenerate env mid start leadTimes w) = Ok tt
  /\ remindersNotOf mid w' = remindersNotOf mid w
  /\ map MeetingReminder.content (remindersOf mid w')
     = map (pendingContent mid start) leadTimes
  /\ (forall lt, List.length (rowsFor mid lt w') = count_occ Z.eq_dec leadTimes lt)
  /\ (NoDup leadTimes ->
      forall lt, (In lt leadTimes -> List.length (rowsFor mid lt w') = 1%nat)
                 /\ (~ In lt leadTimes -> rowsFor mid lt w' = []))
  /\ map MeetingReminder.content
       (meetingReminders (db (snd (regenerate env mid start leadTimes w'))))
     = map MeetingReminder.content (meetingReminders (db w')).
Proof.
  intros w'.
  destruct (regenerate_table env mid start leadTimes w) as [Hok Htab].
  fold w' in Htab.
  assert (Hnot : remindersNotOf mid w' = remindersNotOf mid w).
  { unfold remindersNotOf at 1. rewrite Htab.
    rewrite filter_app, (filter_none _ (newReminders _ _ _ _)), app_nil_r.
    - unfold remindersNotOf. rewrite filter_filter. apply filter_ext.
      intros r. now destruct (negb _).
    - intros r Hr. now rewrite (newReminders_meeting _ _ _ _ _ _ _ Hr), String.eqb_refl. }
  assert (Hof : remindersOf mid w'
                = newReminders env (dateNow env (calls w)) (rowsCreated (db w) + 0)
                    (map (fun minutes =>
                            {| ri_meetingId := mid; ri_minutesBefore := minutes;
                               ri_scheduledFor := start - minutes * 60 * 1000 |})
                         leadTimes)).
  { unfold remindersOf. rewrite Htab.
    rewrite filter_app, (filter_all _ (newReminders _ _ _ _)).
    - unfold remindersNotOf. rewrite filter_filter, filter_none; auto.
      intros r _. now destruct (String.eqb _ _).
    - intros r Hr. now rewrite (newReminders_meeting _ _ _ _ _ _ _ Hr), String.eqb_refl. }
  assert (Hcount : forall lt,
             List.length (rowsFor mid lt w') = count_occ Z.eq_dec leadTimes lt).
  { intros lt. unfold rowsFor. rewrite Htab.
    rewrite filter_app, length_app, newReminders_count.
    unfold remindersNotOf. rewrite filter_filter, filter_none; auto.
    intros r _. now destruct (String.eqb _ _). }
  split; [exact Hok|].
  split; [exact Hnot|].
  split; [rewrite Hof; apply newReminders_content|].
  split; [exact Hcount|].
  split.
  - intros Hnd lt. split.
    + intros Hin. rewrite Hcount. now apply NoDup_count_occ'.
    + intros Hout. apply length_zero_iff_nil. rewrite Hcount.
      now apply count_occ_not_In.
  - destruct (regenerate_table env mid start leadTimes w') as [_ Htab'].
    rewrite Htab', Hnot, Htab. now rewrite !map_app, !newReminders_content.
Qed.

(** C7 as stated fails on a lead-time list with a repeated entry: both
    entries get a row. *)
Lemma regenerate_replaces_reminders_counterexample :
  ~ (forall (env : Env) (mid : Id) (start : DateTime) (leadTimes : list Z) (w : World)
            (lt : Z),
       (List.length (rowsFor mid lt (snd (regenerate env mid start leadTimes w))) <= 1)%nat).
Proof.
  intros H.
  specialize (H Sample.calm "m-1"%string (Meeting.startTime Sample.standup) [15; 15]
                Sample.world 15).
  vm_compute in H. lia.
Qed.

(** ** Cancelling a meeting *)

Lemma updateReminders_regenerates env startTime leadTimes mid updated :
  truthy startTime = true \/ leadTimes <> None ->
  updateReminders env startTime leadTimes mid updated
  = regenerate env mid (Meeting.startTime updated) (Meeting.reminderMinutesBefore updated).
Proof.
  unfold updateReminders. intros [-> | H]; [reflexivity|].
  destruct leadTimes; [|congruence]. now rewrite orb_true_r.
Qed.

Lemma find_update (mid : Id) (f : Meeting.t -> Meeting.t) (l : list Meeting.t) (m : Meeting.t) :
  (forall x, Meeting.id (f x) = Meeting.id x) ->
  find (fun x => String.eqb (Meeting.id x) mid) l = Some m ->
  find (fun x => String.eqb (Meeting.id x) mid)
    (map (fun x => if String.eqb (Meeting.id x) mid then f x else x) l) = Some (f m).
Proof.
  intros Hid. induction l as [|a l IH]; simpl; [discriminate|].
  destruct (String.eqb (Meeting.id a) mid) eqn:E.
  - intros [= ->]. simpl. now rewrite Hid, E.
  - intros H. simpl. rewrite E. auto.
Qed.

(** A cancelled meeting has no due reminder, whatever rows it has. *)
Lemma cancelled_never_due now s mid x :
  (forall m, findMeeting s mid = Some m -> Meeting.isCancelled m = true) ->
  In x (findDueReminders now s) ->
  MeetingReminder.meetingId (reminder_row x) <> mid.
Proof.
  intros Hc Hx Heq. destruct (selected_is_due _ _ _ Hx) as (_ & Hm & _ & Hdue).
  rewrite Heq in Hm. apply Hc in Hm.
  apply dueWith_spec in Hdue. destruct Hdue as (_ & _ & Hn & _). congruence.
Qed.

(** What follows the two writes of [cancel] keeps the meeting and reminder
    tables. *)
Lemma announceCancellation_keeps env w0 mid uid (mtg updated : MeetingWithParticipants) :
  preserves (since anyCall eq w0) (announceCancellation env mid uid mtg updated).
Proof.
  unfold announceCancellation.
  eapply hoare_bind with (Q1 := fun _ => since anyCall eq w0).
  { hstep; [|hstep; auto]. hstep; [|hstep; auto].
    eapply hoare_weaken; [apply (keeps_guarded env anyCall eq w0), anyCall_all|].
    intros e w []. }
  intros ?. eapply hoare_bind with (Q1 := fun _ => since anyCall eq w0).
  { apply preserves_forOf. intros p _.
    hstep; [|hstep; auto]. hstep; [|hstep; auto].
    eapply hoare_bind with (Q1 := fun _ => since anyCall eq w0).
    - unfold organizerName. hstep; hstep; auto.
    - intros name.
      apply (keeps_createMeetingCancellation env anyCall eq w0); intros; apply anyCall_all. }
  intros ?. eapply hoare_bind with (Q1 := fun _ => since anyCall eq w0).
  { intros w Hw. simpl. now apply since_auditLog. }
  intros ?. hstep. auto.
Qed.

(** [cancel] past its guards: the two writes, then the announcements. *)
Lemma cancel_run env mid uid m w :
  findMeeting (db w) mid = Some m ->
  Meeting.createdByUserId m = uid ->
  Meeting.isCancelled m = false ->
  let w1 := withDb (with_meetings
                      (map (fun x => if String.eqb (Meeting.id x) mid
                                     then Meeting.cancelled x else x))) w in
  let w2 := withDb (with_meetingReminders
                      (filter (fun r => negb (String.eqb (MeetingReminder.meetingId r) mid)))
                      0) w1 in
  cancel env mid uid w
  = announceCancellation env mid uid (includeMeeting (db w) m)
      (includeMeeting (db w1) (Meeting.cancelled m)) w2.
Proof.
  intros Hfind Hcreator Hactive w1 w2.
  unfold cancel, getById, bind, getDb. cbv beta iota.
  rewrite Hfind, Hcreator, String.eqb_refl, andb_false_r. simpl.
  rewrite Hcreator, String.eqb_refl, Hactive. simpl.
  unfold updateMeeting. rewrite Hfind. reflexivity.
Qed.

(** C8.  When its creator cancels a meeting that is not yet cancelled, the
    meeting row is flagged cancelled and every reminder row of the meeting
    is deleted, also when a later step of [cancel] throws.  A selector run
    on the resulting store returns no reminder of that meeting, and so
    does any run on any later store in which the meeting is still flagged
    cancelled. *)
Theorem cancel_clears_reminders (env : Env) (mid uid : Id) (m : Meeting.t) (w : World) :
  findMeeting (db w) mid = Some m ->
  Meeting.createdByUserId m = uid ->
  Meeting.isCancelled m = false ->
  let w' := snd (cancel env mid uid w) in
  remindersOf mid w' = []
  /\ meetingReminders (db w') = remindersNotOf mid w
  /\ findMeeting (db w') mid = Some (Meeting.cancelled m)
  /\ (forall now x, In x (findDueReminders now (db w')) ->
        MeetingReminder.meetingId (reminder_row x) <> mid)
  /\ (forall s now x,
        (forall m', findMeeting s mid = Some m' -> Meeting.isCancelled m' = true) ->
        In x (findDueReminders now s) ->
        MeetingReminder.meetingId (reminder_row x) <> mid).
Proof.
  intros Hfind Hcreator Hactive w'.
  assert (Hstore : meetingReminders (db w') = remindersNotOf mid w
                   /\ findMeeting (db w') mid = Some (Meeting.cancelled m)).
  { unfold w'. rewrite (cancel_run env mid uid m w Hfind Hcreator Hactive).
    match goal with
    | |- context [announceCancellation env mid uid ?a ?b ?w2] =>
        pose proof (announceCancellation_keeps env w2 mid uid a b w2
                      (since_refl _ _ _ (fun l => eq_refl))) as Htail;
        destruct (announceCancellation env mid uid a b w2) as [[r|e] w3]
    end; simpl snd; split.
    all: try (rewrite <- (since_reminders _ _ _ _ Htail); reflexivity).
    all: unfold findMeeting; rewrite (since_meetings _ _ _ _ Htail); simpl;
         apply find_update; auto. }
  destruct Hstore as [Hrem Hmeet].
  split; [|split; [exact Hrem|split; [exact Hmeet|split]]].
  - unfold remindersOf. rewrite Hrem. unfold remindersNotOf.
    rewrite filter_filter. apply filter_none. intros r _. now destruct (String.eqb _ _).
  - intros now x Hx. eapply cancelled_never_due; [|exact Hx].
    intros m' Hm'. rewrite Hmeet in Hm'. now injection Hm' as <-.
  - intros s now x. apply cancelled_never_due.
Qed.

Lemma cancel_clears_reminders_witness :
  findMeeting (db Sample.world) "m-1"%string = Some Sample.standup
  /\ Meeting.createdByUserId Sample.standup = "u-alice"%string
  /\ Meeting.isCancelled Sample.standup = false
  /\ remindersOf "m-1"%string (snd (cancel Sample.calm "m-1"%string "u-alice"%string Sample.world)) = []
  /\ forall now x,
       In x (findDueReminders now (db (snd (cancel Sample.calm "m-1"%string "u-alice"%string Sample.world)))) ->
       MeetingReminder.meetingId (reminder_row x) <> "m-1"%string.
Proof.
  assert (H1 : findMeeting (db Sample.world) "m-1"%string = Some Sample.standup) by reflexivity.
  assert (H2 : Meeting.createdByUserId Sample.standup = "u-alice"%string) by reflexivity.
  assert (H3 : Meeting.isCancelled Sample.standup = false) by reflexivity.
  destruct (cancel_clears_reminders Sample.calm "m-1"%string "u-alice"%string Sample.standup Sample.world
              H1 H2 H3) as (Hnone & _ & _ & Hsel & _).
  split; [exact H1|]. split; [exact H2|]. split; [exact H3|].
  split; [exact Hnone | exact Hsel].
Defined.

(** ** What one participant receives *)

Lemma grew_refl w : grew w w [] [] [].
Proof. constructor; auto; now rewrite app_nil_r. Qed.

Lemma grew_trans w1 w2 w3 dc dl dn dc' dl' dn' :
  grew w1 w2 dc dl dn -> grew w2 w3 dc' dl' dn' ->
  grew w1 w3 (dc ++ dc') (dl ++ dl') (dn ++ dn').
Proof.
  intros [u1 s1 m1 p1 r1 c1 l1 n1] [u2 s2 m2 p2 r2 c2 l2 n2].
  constructor; try congruence.
  - now rewrite c2, c1, app_assoc.
  - now rewrite l2, l1, app_assoc.
  - now rewrite n2, n1, app_assoc.
Qed.

Lemma since_grew P w w' :
  since P eq w w' ->
  exists dc dl dn, grew w w' dc dl dn /\ Forall (fun c => P (fst c)) dc.
Proof.
  intros [u s m p r (dc & c & f) (dl & l) (dn & n)].
  exists dc, dl, dn. split; auto. constructor; auto.
Qed.

Lemma skipn_appended {A} (l d : list A) : skipn (List.length l) (l ++ d) = d.
Proof. induction l; simpl; auto. Qed.

Lemma grew_new w w' dc dl dn :
  grew w w' dc dl dn ->
  newCalls w w' = dc /\ newConsole w w' = dl /\ newNotifications w w' = dn.
Proof.
  intros [_ _ _ _ _ c l n]. unfold newCalls, newConsole, newNotifications.
  rewrite c, l, n. repeat split; apply skipn_appended.
Qed.

Lemma grew_findSettings w w' dc dl dn uid :
  grew w w' dc dl dn -> findSettings (db w') uid = findSettings (db w) uid.
Proof. intros H. unfold findSettings. now rewrite (grew_settings _ _ _ _ _ H). Qed.

Lemma emailsTo_app a h1 h2 : emailsTo a (h1 ++ h2) = (emailsTo a h1 + emailsTo a h2)%nat.
Proof. unfold emailsTo. now rewrite filter_app, length_app. Qed.

Lemma pushesTo_app u h1 h2 : pushesTo u (h1 ++ h2) = (pushesTo u h1 + pushesTo u h2)%nat.
Proof. unfold pushesTo. now rewrite filter_app, length_app. Qed.

Lemma bind_ret {A B} (a : A) (k : A -> M B) : bind (ret a) k = k a.
Proof. reflexivity. Qed.

(** A sender call under its own [try]/[catch]: it is made once, a throw
    becomes a console line, and the block returns. *)
Lemma guarded_effect env c msg w :
  exists w' dl,
    tryCatch (invoke env c) (fun e => consoleError msg e) w = (Ok tt, w')
    /\ grew w w' [(c, callThrows env (calls w) c)] dl []
    /\ (forall e, callThrows env (calls w) c = Some e -> dl = [(msg, Some e)]).
Proof.
  unfold tryCatch, invoke, consoleError.
  destruct (callThrows env (calls w) c) as [e|]; simpl.
  - eexists _, [(msg, Some e)]. split; [reflexivity|]. split.
    + constructor; simpl; auto. now rewrite app_nil_r.
    + now intros e' [= <-].
  - eexists _, []. split; [reflexivity|]. split.
    + constructor; simpl; auto; now rewrite app_nil_r.
    + discriminate.
Qed.

(** The email block of the dispatch loop. *)
Lemma reminderEmail_effect env (u : User.t) mtg mb w :
  exists w' dc dl,
    tryCatch
      (data <- meetingEmailData mtg ;;
       invoke env (SendMeetingReminder (User.email u) data mb))
      (fun e => consoleError (emailFailed (User.email u)) e) w = (Ok tt, w')
    /\ grew w w' dc dl []
    /\ emailFailuresLogged dc dl
    /\ (createdBy mtg <> None ->
        exists d r, dc = [(SendMeetingReminder (User.email u) d mb, r)])
    /\ (createdBy mtg = None -> dc = []).
Proof.
  unfold meetingEmailData. destruct (createdBy mtg) as [organizer|].
  - rewrite bind_ret.
    match goal with
    | |- context [invoke env (SendMeetingReminder _ ?d _)] =>
        destruct (guarded_effect env (SendMeetingReminder (User.email u) d mb)
                    (emailFailed (User.email u)) w) as (w' & dl & Hrun & Hg & Hl);
        exists w', [(SendMeetingReminder (User.email u) d mb,
                     callThrows env (calls w) (SendMeetingReminder (User.email u) d mb))], dl
    end.
    split; [exact Hrun|]. split; [exact Hg|]. split; [|split].
    + intros to d' mb' e [[= <- <- <-] | []]. rewrite (Hl e); [now left|]. congruence.
    + intros _. eauto.
    + discriminate.
  - unfold tryCatch, bind, throw, consoleError. simpl.
    eexists _, [], _. split; [reflexivity|]. split; [|split; [|split]].
    + constructor; simpl; auto; now rewrite app_nil_r.
    + intros ? ? ? ? [].
    + congruence.
    + reflexivity.
Qed.

Lemma notReminderEmail_notification to d : notReminderEmail (SendMeetingNotification to d).
Proof. intros ? ? ?. discriminate. Qed.

Lemma notReminderEmail_push uid payload : notReminderEmail (SendToUser uid payload).
Proof. intros ? ? ?. discriminate. Qed.

(** The external fan-out of the notification service, for a user and a
    meeting whose creator the store knows: one email if the email channel
    is enabled, one push if the push channel is. *)
Lemma sendExternalNotifications_effect env uid title msg mid (u : User.t) w :
  findUser (db w) uid = Some u ->
  (forall m, findMeeting (db w) mid = Some m ->
             findUser (db w) (Meeting.createdByUserId m) <> None) ->
  exists w' dc dl,
    sendExternalNotifications env uid title msg (Some mid) w = (Ok tt, w')
    /\ grew w w' dc dl []
    /\ emailsTo (User.email u) dc
       = (if enabled UserSettings.emailNotificationsEnabled (findSettings (db w) uid)
          then 1 else 0)%nat
    /\ pushesTo uid dc
       = (if enabled UserSettings.pushNotificationsEnabled (findSettings (db w) uid)
          then 1 else 0)%nat.
Proof.
  intros Hu Hcreator.
  unfold sendExternalNotifications. unfold bind at 1. unfold getDb. rewrite Hu.
  set (mtg := if truthy (Some mid)
              then option_map (includeMeeting (db w)) (findMeeting (db w) mid)
              else None).
  assert (Hdata : exists data : option MeetingEmailData,
             (match mtg with
              | Some m => d <- meetingEmailData m ;; ret (Some d)
              | None => ret None
              end) = ret data).
  { unfold mtg. destruct (truthy (Some mid)); [|now exists None].
    destruct (findMeeting (db w) mid) as [m|] eqn:Hm; [|now exists None].
    simpl. unfold meetingEmailData. simpl.
    destruct (findUser (db w) (Meeting.createdByUserId m)) eqn:Hc.
    - eexists. reflexivity.
    - now destruct (Hcreator m eq_refl). }
  destruct Hdata as (data & Hdata). rewrite Hdata.
  unfold bind at 1.
  destruct (enabled UserSettings.emailNotificationsEnabled (findSettings (db w) uid)).
  - rewrite bind_ret.
    match goal with
    | |- context [tryCatch (invoke env ?c) ?h w] =>
        destruct (guarded_effect env c "Failed to send email notification:" w)
          as (w1 & dl1 & Hrun1 & Hg1 & _)
    end.
    rewrite Hrun1.
    destruct (enabled UserSettings.pushNotificationsEnabled (findSettings (db w) uid)).
    + match goal with
      | |- context [tryCatch (invoke env ?c) ?h w1] =>
          destruct (guarded_effect env c "Failed to send push notification:" w1)
            as (w2 & dl2 & Hrun2 & Hg2 & _)
      end.
      rewrite Hrun2. eexists _, _, _. split; [reflexivity|].
      split; [exact (grew_trans _ _ _ _ _ _ _ _ _ Hg1 Hg2)|].
      unfold emailsTo, pushesTo. simpl. now rewrite !String.eqb_refl.
    + eexists _, _, _. split; [reflexivity|].
      split; [exact (grew_trans _ _ _ _ _ _ _ _ _ Hg1 (grew_refl _))|].
      unfold emailsTo, pushesTo. simpl. now rewrite !String.eqb_refl.
  - change (ret tt w) with (Ok tt, w). cbv beta iota.
    destruct (enabled UserSettings.pushNotificationsEnabled (findSettings (db w) uid)).
    + match goal with
      | |- context [tryCatch (invoke env ?c) ?h w] =>
          destruct (guarded_effect env c "Failed to send push notification:" w)
            as (w2 & dl2 & Hrun2 & Hg2 & _)
      end.
      rewrite Hrun2. eexists _, _, _. split; [reflexivity|].
      split; [exact Hg2|].
      unfold emailsTo, pushesTo. simpl. now rewrite !String.eqb_refl.
    + eexists _, _, _. split; [reflexivity|].
      split; [exact (grew_refl _)|]. split; reflexivity.
Qed.

(** [NotificationService.create], read off its two branches. *)
Lemma create_run env uid ty title msg rel w :
  create env uid ty title msg rel w
  = if enabled UserSettings.inAppNotificationsEnabled (findSettings (db w) uid)
    then notificationCreate env
           {| nd_userId := uid; nd_type := ty; nd_title := title;
              nd_message := msg; nd_relatedMeetingId := rel |} w
    else (Ok (Notification.mk EmptyString ty title msg true (dateNow env (calls w)) uid
                (orNull rel)), w).
Proof.
  unfold create, bind, getDb.
  now destruct (enabled UserSettings.inAppNotificationsEnabled (findSettings (db w) uid)).
Qed.

Lemma grew_inserted w row : grew w (withDb (with_notification row) w) [] [] [row].
Proof. constructor; simpl; auto; now rewrite app_nil_r. Qed.

(** The fan-out from any world: it returns, and makes no reminder email. *)
Lemma sendExternalNotifications_grew env uid title msg mid w :
  exists w' dc dl dn,
    sendExternalNotifications env uid title msg (Some mid) w = (Ok tt, w')
    /\ grew w w' dc dl dn
    /\ Forall (fun c => notReminderEmail (fst c)) dc
    /\ (forall u, findUser (db w) uid = Some u -> creatorKnown (db w) mid ->
          emailsTo (User.email u) dc
          = (if enabled UserSettings.emailNotificationsEnabled (findSettings (db w) uid)
             then 1 else 0)%nat
          /\ pushesTo uid dc
             = (if enabled UserSettings.pushNotificationsEnabled (findSettings (db w) uid)
                then 1 else 0)%nat).
Proof.
  pose proof (keeps_sendExternalNotifications env notReminderEmail eq w
                notReminderEmail_notification
                (fun u p _ => notReminderEmail_push u p)
                uid title msg (Some mid) w (since_refl _ _ _ (fun l => eq_refl))) as H.
  destruct (sendExternalNotifications env uid title msg (Some mid) w) as [[[]|e] w'] eqn:Run;
    [|contradiction].
  destruct (since_grew _ _ _ H) as (dc & dl & dn & Hg & HF).
  exists w', dc, dl, dn.
  split; [reflexivity|]. split; [exact Hg|]. split; [exact HF|].
  intros u Hu Hc.
  destruct (sendExternalNotifications_effect env uid title msg mid u w Hu Hc)
    as (w2 & dc2 & dl2 & Run2 & Hg2 & He & Hp).
  rewrite Run in Run2. injection Run2 as <-.
  assert (dc = dc2) as ->; [|split; assumption].
  apply (app_inv_head (calls w)).
  now rewrite <- (grew_calls _ _ _ _ _ Hg), <- (grew_calls _ _ _ _ _ Hg2).
Qed.

(** The in-app step of the dispatch loop. *)
Lemma createMeetingReminder_effect env uid mid title mb w :
  match createMeetingReminder env uid mid title mb w with
  | (Ok _, w') =>
      exists dc dl dn,
        grew w w' dc dl dn
        /\ Forall (fun c => notReminderEmail (fst c)) dc
        /\ (enabled UserSettings.inAppNotificationsEnabled (findSettings (db w) uid) = true ->
            exists row, In row dn /\ reminderNoticeFor uid mid row)
        /\ (forall u, findUser (db w) uid = Some u -> creatorKnown (db w) mid ->
              emailsTo (User.email u) dc
              = (if enabled UserSettings.emailNotificationsEnabled (findSettings (db w) uid)
                 then 1 else 0)%nat
              /\ pushesTo uid dc
                 = (if enabled UserSettings.pushNotificationsEnabled (findSettings (db w) uid)
                    then 1 else 0)%nat)
  | (Throw e, w') =>
      w' = w
      /\ enabled UserSettings.inAppNotificationsEnabled (findSettings (db w) uid) = true
      /\ notificationCreateThrows env (calls w) (reminderNotice uid mid title mb) = Some e
  end.
Proof.
  unfold createMeetingReminder, bind. rewrite create_run.
  destruct (enabled UserSettings.inAppNotificationsEnabled (findSettings (db w) uid)) eqn:Hin.
  - unfold notificationCreate. fold (reminderNotice uid mid title mb).
    destruct (notificationCreateThrows env (calls w) (reminderNotice uid mid title mb))
      as [e|] eqn:Ht.
    + auto.
    + match goal with
      | |- context [sendExternalNotifications env uid ?t ?m (Some mid) ?wa] =>
          destruct (sendExternalNotifications_grew env uid t m mid wa)
            as (w' & dc & dl & dn & Run & Hg & HF & Hcount)
      end.
      rewrite Run. eexists ([] ++ dc), ([] ++ dl), _.
      split; [exact (grew_trans _ _ _ _ _ _ _ _ _ (grew_inserted w _) Hg)|].
      split; [exact HF|]. split.
      * intros _. eexists. split; [left; reflexivity|]. repeat split.
      * intros u Hu Hc. exact (Hcount u Hu Hc).
  - match goal with
    | |- context [sendExternalNotifications env uid ?t ?m (Some mid) w] =>
        destruct (sendExternalNotifications_grew env uid t m mid w)
          as (w' & dc & dl & dn & Run & Hg & HF & Hcount)
    end.
    rewrite Run. exists dc, dl, dn.
    split; [exact Hg|]. split; [exact HF|]. split; [discriminate|].
    intros u Hu Hc. exact (Hcount u Hu Hc).
Qed.

(** The email step of the dispatch loop, under its flag. *)
Lemma emailStep_effect env (flag : bool) (u : User.t) mtg mb w :
  exists w' dc dl,
    (if flag
     then tryCatch
            (data <- meetingEmailData mtg ;;
             invoke env (SendMeetingReminder (User.email u) data mb))
            (fun e => consoleError (emailFailed (User.email u)) e)
     else ret tt) w = (Ok tt, w')
    /\ grew w w' dc dl []
    /\ emailFailuresLogged dc dl
    /\ (flag = true -> createdBy mtg <> None ->
        exists d r, dc = [(SendMeetingReminder (User.email u) d mb, r)])
    /\ (flag = false -> dc = []).
Proof.
  destruct flag.
  - destruct (reminderEmail_effect env u mtg mb w) as (w' & dc & dl & Run & Hg & Hl & Hsome & _).
    exists w', dc, dl. split; [exact Run|]. split; [exact Hg|]. split; [exact Hl|].
    split; [intros _; exact Hsome | discriminate].
  - exists w, [], []. split; [reflexivity|]. split; [apply grew_refl|].
    split; [intros ? ? ? ? []|]. split; [discriminate | reflexivity].
Qed.

(** The push step of the dispatch loop, under its flag. *)
Lemma pushStep_effect env (flag : bool) c msg w :
  exists w' dc dl,
    (if flag
     then tryCatch (invoke env c) (fun e => consoleError msg e)
     else ret tt) w = (Ok tt, w')
    /\ grew w w' dc dl []
    /\ (flag = true -> exists r, dc = [(c, r)])
    /\ (flag = false -> dc = []).
Proof.
  destruct flag.
  - destruct (guarded_effect env c msg w) as (w' & dl & Run & Hg & _).
    exists w', [(c, callThrows env (calls w) c)], dl.
    split; [exact Run|]. split; [exact Hg|]. split; [eauto | discriminate].
  - exists w, [], []. split; [reflexivity|]. split; [apply grew_refl|].
    split; [discriminate | reflexivity].
Qed.

Lemma emailsTo_reminder a d mb r : emailsTo a [(SendMeetingReminder a d mb, r)] = 1%nat.
Proof. unfold emailsTo. simpl. now rewrite String.eqb_refl. Qed.

Lemma pushesTo_push uid payload r : pushesTo uid [(SendToUser uid payload, r)] = 1%nat.
Proof. unfold pushesTo. simpl. now rewrite String.eqb_refl. Qed.

Lemma processParticipant_run env r mtg p (u : User.t) w :
  truthy (MeetingParticipant.userId (participant p)) = true ->
  user p = Some u ->
  let uid := User.id u in
  let mid := Meeting.id (meeting_row mtg) in
  let mb := MeetingReminder.minutesBefore r in
  let st := findSettings (db w) uid in
  processParticipant env r mtg p w
  = ((if enabled UserSettings.inAppNotificationsEnabled st
      then createMeetingReminder env uid mid (Meeting.title (meeting_row mtg)) mb
      else ret tt) ;;;
     (if enabled UserSettings.emailNotificationsEnabled st
      then tryCatch
             (data <- meetingEmailData mtg ;;
              invoke env (SendMeetingReminder (User.email u) data mb))
             (fun e => consoleError (emailFailed (User.email u)) e)
      else ret tt) ;;;
     (if enabled UserSettings.pushNotificationsEnabled st
      then tryCatch
             (invoke env (SendToUser uid (reminderPush (meeting_row mtg) mb)))
             (fun e => consoleError (pushFailed uid) e)
      else ret tt)) w.
Proof.
  intros Ht Hu. unfold processParticipant. rewrite Ht, Hu. reflexivity.
Qed.

(** One participant with an account, from any world. *)
Lemma processParticipant_effect env r mtg p (u : User.t) w :
  truthy (MeetingParticipant.userId (participant p)) = true ->
  user p = Some u ->
  let uid := User.id u in
  let mid := Meeting.id (meeting_row mtg) in
  let mb := MeetingReminder.minutesBefore r in
  let st := findSettings (db w) uid in
  match processParticipant env r mtg p w with
  | (Ok _, w') =>
      exists dc dl dn,
        grew w w' dc dl dn
        /\ emailFailuresLogged dc dl
        /\ (enabled UserSettings.inAppNotificationsEnabled st = true ->
            exists row, In row dn /\ reminderNoticeFor uid mid row)
        /\ (enabled UserSettings.emailNotificationsEnabled st = true ->
            createdBy mtg <> None ->
            exists d r0, In (SendMeetingReminder (User.email u) d mb, r0) dc)
        /\ (enabled UserSettings.pushNotificationsEnabled st = true ->
            exists r0, In (SendToUser uid (reminderPush (meeting_row mtg) mb), r0) dc)
        /\ (findUser (db w) uid = Some u -> creatorKnown (db w) mid ->
            createdBy mtg <> None ->
            enabled UserSettings.inAppNotificationsEnabled st = true ->
            emailsTo (User.email u) dc
            = (if enabled UserSettings.emailNotificationsEnabled st then 2 else 0)%nat
            /\ pushesTo uid dc
               = (if enabled UserSettings.pushNotificationsEnabled st then 2 else 0)%nat)
  | (Throw e, w') =>
      w' = w
      /\ enabled UserSettings.inAppNotificationsEnabled st = true
      /\ notificationCreateThrows env (calls w)
           (reminderNotice uid mid (Meeting.title (meeting_row mtg)) mb) = Some e
  end.
Proof.
  intros Ht Hu uid mid mb st.
  rewrite (processParticipant_run env r mtg p u w Ht Hu). cbv zeta.
  fold uid mid mb st.
  (* the in-app step *)
  assert (HA :
    match (if enabled UserSettings.inAppNotificationsEnabled st
           then createMeetingReminder env uid mid (Meeting.title (meeting_row mtg)) mb
           else ret tt) w with
    | (Ok _, w1) =>
        exists dc dl dn,
          grew w w1 dc dl dn
          /\ Forall (fun c => notReminderEmail (fst c)) dc
          /\ (enabled UserSettings.inAppNotificationsEnabled st = true ->
              exists row, In row dn /\ reminderNoticeFor uid mid row)
          /\ (findUser (db w) uid = Some u -> creatorKnown (db w) mid ->
              enabled UserSettings.inAppNotificationsEnabled st = true ->
              emailsTo (User.email u) dc
              = (if enabled UserSettings.emailNotificationsEnabled st then 1 else 0)%nat
              /\ pushesTo uid dc
                 = (if enabled UserSettings.pushNotificationsEnabled st then 1 else 0)%nat)
    | (Throw e, w1) =>
        w1 = w
        /\ enabled UserSettings.inAppNotificationsEnabled st = true
        /\ notificationCreateThrows env (calls w)
             (reminderNotice uid mid (Meeting.title (meeting_row mtg)) mb) = Some e
    end).
  { destruct (enabled UserSettings.inAppNotificationsEnabled st) eqn:Hin.
    - pose proof (createMeetingReminder_effect env uid mid
                    (Meeting.title (meeting_row mtg)) mb w) as H.
      destruct (createMeetingReminder _ _ _ _ _ w) as [[[]|e] w1];
        [|destruct H as (? & _ & ?); auto].
      destruct H as (dc & dl & dn & Hg & HF & Hrow & Hcount).
      exists dc, dl, dn. split; [exact Hg|]. split; [exact HF|].
      split; [intros _; now apply Hrow|]. intros Hfu Hck _. now apply Hcount.
    - exists [], [], []. split; [apply grew_refl|]. split; [constructor|].
      split; discriminate. }
  unfold bind at 1.
  destruct ((if enabled UserSettings.inAppNotificationsEnabled st
             then createMeetingReminder env uid mid (Meeting.title (meeting_row mtg)) mb
             else ret tt) w) as [[[]|e] w1]; [|exact HA].
  destruct HA as (dcA & dlA & dnA & HgA & HFA & HrowA & HcountA).
  (* the email step *)
  destruct (emailStep_effect env (enabled UserSettings.emailNotificationsEnabled st) u mtg mb w1)
    as (w2 & dcB & dlB & RunB & HgB & HlB & HonB & HoffB).
  unfold bind at 1. rewrite RunB.
  (* the push step *)
  destruct (pushStep_effect env (enabled UserSettings.pushNotificationsEnabled st)
              (SendToUser uid (reminderPush (meeting_row mtg) mb)) (pushFailed uid) w2)
    as (w3 & dcC & dlC & RunC & HgC & HonC & HoffC).
  rewrite RunC.
  exists (dcA ++ dcB ++ dcC), (dlA ++ dlB ++ dlC), (dnA ++ [] ++ []).
  split; [exact (grew_trans _ _ _ _ _ _ _ _ _ HgA (grew_trans _ _ _ _ _ _ _ _ _ HgB HgC))|].
  split; [|split; [|split; [|split]]].
  - intros to d mb' e Hin. apply in_or_app. right. apply in_or_app.
    apply in_app_or in Hin. destruct Hin as [Hin | Hin].
    + exfalso. rewrite Forall_forall in HFA. exact (HFA _ Hin to d mb' eq_refl).
    + apply in_app_or in Hin. destruct Hin as [Hin | Hin].
      * left. exact (HlB _ _ _ _ Hin).
      * exfalso. destruct (enabled UserSettings.pushNotificationsEnabled st).
        -- destruct (HonC eq_refl) as (r0 & ->). destruct Hin as [Hin | []]. discriminate.
        -- rewrite (HoffC eq_refl) in Hin. destruct Hin.
  - intros Hin. destruct (HrowA Hin) as (row & Hrow & Hfor).
    exists row. split; auto. apply in_or_app. auto.
  - intros Hem Hcb. destruct (HonB Hem Hcb) as (d & r0 & ->).
    exists d, r0. apply in_or_app. right. apply in_or_app. left. now left.
  - intros Hpu. destruct (HonC Hpu) as (r0 & ->).
    exists r0. apply in_or_app. right. apply in_or_app. right. now left.
  - intros Hfu Hck Hcb Hin. destruct (HcountA Hfu Hck Hin) as [HeA HpA].
    rewrite !emailsTo_app, !pushesTo_app, HeA, HpA.
    destruct (enabled UserSettings.emailNotificationsEnabled st);
      destruct (enabled UserSettings.pushNotificationsEnabled st).
    + destruct (HonB eq_refl Hcb) as (d & r0 & ->). destruct (HonC eq_refl) as (r1 & ->).
      rewrite emailsTo_reminder, pushesTo_push. split; reflexivity.
    + destruct (HonB eq_refl Hcb) as (d & r0 & ->). rewrite (HoffC eq_refl).
      rewrite emailsTo_reminder. split; reflexivity.
    + rewrite (HoffB eq_refl). destruct (HonC eq_refl) as (r1 & ->).
      rewrite pushesTo_push. split; reflexivity.
    + rewrite (HoffB eq_refl), (HoffC eq_refl). split; reflexivity.
Qed.
(** ** Rows of the reminder table under the loop *)

Lemma markedIfIn_refl ids l : Forall2 (markedIfIn ids) l l.
Proof. induction l; constructor; auto. now left. Qed.

Lemma markedIfIn_trans ids l1 l2 l3 :
  Forall2 (markedIfIn ids) l1 l2 -> Forall2 (markedIfIn ids) l2 l3 ->
  Forall2 (markedIfIn ids) l1 l3.
Proof.
  intros H. revert l3. induction H as [|a b l1 l2 Hab _ IH]; intros l3 H23.
  - inversion H23. constructor.
  - inversion H23 as [|b' c l2' l3' Hbc Hrest]; subst.
    constructor; [|now apply IH].
    destruct Hab as [->|[Hin [t ->]]]; [exact Hbc|].
    destruct Hbc as [->|[_ [t' ->]]]; right; split; auto.
    + now exists t.
    + exists t'. reflexivity.
Qed.

Lemma markedIfIn_update ids rid now l :
  In rid ids ->
  Forall2 (markedIfIn ids) l
    (map (fun r => if String.eqb (MeetingReminder.id r) rid
                   then MeetingReminder.markSent now r else r) l).
Proof.
  intros Hin. induction l as [|r l IH]; simpl; constructor; auto.
  destruct (String.eqb (MeetingReminder.id r) rid) eqn:E; [|now left].
  apply String.eqb_eq in E. right. split; [congruence | now exists now].
Qed.

Lemma processReminder_rows env ids x w :
  In (MeetingReminder.id (reminder_row x)) ids ->
  since anyCall (Forall2 (markedIfIn ids)) w (snd (processReminder env x w)).
Proof.
  intros Hin. unfold processReminder, bind.
  pose proof (keeps_participants env anyCall eq w
                (fun _ _ => Logic.I) (fun _ _ _ => Logic.I) (fun _ _ _ => Logic.I)
                (reminder_row x) (meeting x) (participants (meeting x)) w
                (since_refl _ _ _ (fun l => eq_refl))) as Hloop.
  destruct (forOf _ _ w) as [[[]|e] w1].
  - unfold currentDate, updateReminder. cbv beta iota.
    eapply since_trans with (R1 := eq) (R2 := Forall2 (markedIfIn ids)) (b := w1);
      [intros ? ? ? -> ?; auto | exact Hloop |].
    destruct (existsb _ _); cbn [snd].
    + constructor; simpl; auto.
      * now apply markedIfIn_update.
      * exists []. rewrite app_nil_r. auto.
      * exists []. now rewrite app_nil_r.
      * exists []. now rewrite app_nil_r.
    + apply since_refl, markedIfIn_refl.
  - cbn [snd]. destruct Hloop as [Hs _].
    eapply since_weaken; [| |exact Hs]; auto.
    intros ? ? ->. apply markedIfIn_refl.
Qed.

Lemma processBatch_rows env ids batch : forall w,
  (forall x, In x batch -> In (MeetingReminder.id (reminder_row x)) ids) ->
  since anyCall (Forall2 (markedIfIn ids)) w (snd (processBatch env batch w)).
Proof.
  induction batch as [|x rest IH]; intros w Hids.
  - simpl. apply since_refl, markedIfIn_refl.
  - rewrite processBatch_cons. unfold bind.
    pose proof (processReminder_rows env ids x w (Hids x (or_introl eq_refl))) as Hrows.
    unfold guardedReminder, tryCatch in *.
    destruct (processReminder env x w) as [[[]|e] w1]; cbn [snd] in Hrows.
    + eapply since_trans; [|exact Hrows|apply IH]; [apply markedIfIn_trans|].
      intros y Hy. apply Hids. now right.
    + unfold consoleError at 1. cbv beta iota.
      eapply since_trans; [|apply since_logged; exact Hrows|apply IH];
        [apply markedIfIn_trans|].
      intros y Hy. apply Hids. now right.
Qed.

Lemma markedIfIn_kept ids l l' r :
  Forall2 (markedIfIn ids) l l' -> In r l -> ~ In (MeetingReminder.id r) ids -> In r l'.
Proof.
  induction 1 as [|a b l l' Hab _ IH]; simpl; [tauto|].
  intros [<- | Hin] Hout.
  - destruct Hab as [-> | [Hin _]]; [now left | contradiction].
  - right. auto.
Qed.


(** ** Marking a reminder as sent *)









(** ** How often a reminder reaches the senders *)

(** C3 (as amended).  For a participant whose account has the in-app
    channel enabled (or no settings row) and whose in-app insert succeeds,
    dispatching one reminder invokes the email sender twice for that
    user's address when the user's email channel is enabled and not at all
    when it is disabled, and the push sender twice for that user when the
    push channel is enabled and not at all when it is disabled: once from
    [createMeetingReminder] through [sendExternalNotifications] and once
    from the loop itself.  The store is taken to hold the user row and the
    creator of the meeting, as its foreign keys require. *)
Theorem reminder_reaches_senders_twice (env : Env) (r : MeetingReminder.t)
    (mtg : MeetingWithParticipants) (p : ParticipantWithUser) (u : User.t) (w : World) :
  truthy (MeetingParticipant.userId (participant p)) = true ->
  user p = Some u ->
  findUser (db w) (User.id u) = Some u ->
  creatorKnown (db w) (Meeting.id (meeting_row mtg)) ->
  createdBy mtg <> None ->
  enabled UserSettings.inAppNotificationsEnabled (findSettings (db w) (User.id u)) = true ->
  notificationCreateThrows env (calls w)
    (reminderNotice (User.id u) (Meeting.id (meeting_row mtg))
       (Meeting.title (meeting_row mtg)) (MeetingReminder.minutesBefore r)) = None ->
  let w' := snd (processParticipant env r mtg p w) in
  fst (processParticipant env r mtg p w) = Ok tt
  /\ emailsTo (User.email u) (newCalls w w')
     = (if enabled UserSettings.emailNotificationsEnabled (findSettings (db w) (User.id u))
        then 2 else 0)%nat
  /\ pushesTo (User.id u) (newCalls w w')
     = (if enabled UserSettings.pushNotificationsEnabled (findSettings (db w) (User.id u))
        then 2 else 0)%nat.
Proof.
  intros Ht Hu Hfu Hck Hcb Hin Hok w'.
  pose proof (processParticipant_effect env r mtg p u w Ht Hu) as H. cbv zeta in H.
  unfold w'. destruct (processParticipant env r mtg p w) as [[[]|e] w1]; cbn [fst snd].
  - destruct H as (dc & dl & dn & Hg & _ & _ & _ & _ & Hcount).
    destruct (grew_new _ _ _ _ _ Hg) as (-> & _ & _).
    split; [reflexivity|]. exact (Hcount Hfu Hck Hcb Hin).
  - destruct H as (_ & _ & Hthrow). congruence.
Qed.

Lemma reminder_reaches_senders_twice_witness :
  fst (processParticipant Sample.calm Sample.r15 (meeting Sample.due)
         (includeUser Sample.store Sample.pAlice) Sample.world)
  = Ok tt
  /\ emailsTo "alice@example.com"%string
       (newCalls Sample.world
          (snd (processParticipant Sample.calm Sample.r15 (meeting Sample.due)
                  (includeUser Sample.store Sample.pAlice) Sample.world))) = 2%nat
  /\ pushesTo "u-alice"%string
       (newCalls Sample.world
          (snd (processParticipant Sample.calm Sample.r15 (meeting Sample.due)
                  (includeUser Sample.store Sample.pAlice) Sample.world))) = 2%nat.
Proof.
  assert (Hck : creatorKnown (db Sample.world)
                  (Meeting.id (meeting_row (meeting Sample.due)))).
  { intros m Hm. vm_compute in Hm. injection Hm as <-. vm_compute. discriminate. }
  assert (Hcb : createdBy (meeting Sample.due) <> None).
  { vm_compute. discriminate. }
  exact (reminder_reaches_senders_twice Sample.calm Sample.r15 (meeting Sample.due)
           (includeUser Sample.store Sample.pAlice) Sample.alice Sample.world
           eq_refl eq_refl eq_refl Hck Hcb eq_refl eq_refl).
Defined.

(** C3 as stated fails for a user who keeps the in-app channel and
    switched email and push off: no sender is invoked for them. *)
Lemma reminder_reaches_senders_twice_counterexample :
  ~ (forall (env : Env) (r : MeetingReminder.t) (mtg : MeetingWithParticipants)
            (p : ParticipantWithUser) (u : User.t) (w : World),
       truthy (MeetingParticipant.userId (participant p)) = true ->
       user p = Some u ->
       enabled UserSettings.inAppNotificationsEnabled (findSettings (db w) (User.id u))
       = true ->
       emailsTo (User.email u)
         (newCalls w (snd (processParticipant env r mtg p w))) = 2%nat
       /\ pushesTo (User.id u)
            (newCalls w (snd (processParticipant env r mtg p w))) = 2%nat).
Proof.
  intros H.
  destruct (H Sample.calm Sample.r15 (meeting Sample.due)
              (includeUser Sample.store Sample.pBob) Sample.bob Sample.world
              eq_refl eq_refl eq_refl) as [He _].
  vm_compute in He. discriminate.
Qed.

(** ** What a whole tick preserves *)

Section SinceLoop.
Variable env : Env.
Variable P : Call -> Prop.
Variable w0 : World.
Hypothesis P_notification : forall to d, P (SendMeetingNotification to d).
Hypothesis P_push :
  forall uid payload,
    enabled UserSettings.pushNotificationsEnabled (findSettings (db w0) uid) = true ->
    P (SendToUser uid payload).
Hypothesis P_email : forall to d mb, P (SendMeetingReminder to d mb).

Local Abbreviation I := (since P (Forall2 evolves) w0).

Lemma keeps_updateReminder rid now :
  preserves I (updateReminder rid (MeetingReminder.markSent now)).
Proof.
  intros w Hw. unfold updateReminder. destruct (existsb _ _); simpl; [|exact Hw].
  destruct Hw as [? ? ? ? Hr ? ? ?]. constructor; simpl; auto.
  eapply evolves_trans; [exact Hr | apply evolves_update].
Qed.

Lemma keeps_processReminder x : preserves I (processReminder env x).
Proof.
  unfold processReminder. eapply hoare_bind with (Q1 := fun _ => I).
  - eapply hoare_weaken; [now apply keeps_participants|].
    now intros e w [H _].
  - intros ?. hstep. apply keeps_updateReminder.
Qed.

Lemma keeps_guardedReminder x :
  hoare I (guardedReminder env x) (fun _ => I) (fun _ _ => False).
Proof.
  unfold guardedReminder. eapply hoare_tryCatch; [apply keeps_processReminder|].
  intros e. apply keeps_consoleError.
Qed.

Lemma keeps_processBatch batch :
  hoare I (processBatch env batch) (fun _ => I) (fun _ _ => False).
Proof. apply preserves_forOf. intros x _. apply keeps_guardedReminder. Qed.

Lemma keeps_processReminders :
  hoare I (processReminders env) (fun _ => I) (fun _ _ => False).
Proof.
  unfold processReminders. hstep. hstep.
  eapply hoare_bind; [apply keeps_processBatch|].
  intros ?. hstep; [apply keeps_consoleLog | hstep; auto].
Qed.

End SinceLoop.

Lemma since_new P Rr w w' :
  since P Rr w w' -> Forall (fun c => P (fst c)) (newCalls w w').
Proof.
  intros H. destruct (since_calls _ _ _ _ H) as (ext & Hc & HF).
  unfold newCalls. now rewrite Hc, skipn_appended.
Qed.

Lemma pushesTo_none uid h :
  Forall (fun c => isPushTo uid (fst c) = false) h -> pushesTo uid h = 0%nat.
Proof.
  intros H. unfold pushesTo. rewrite filter_none; auto.
  now apply Forall_forall.
Qed.

Lemma push_respected uid s w :
  findSettings (db w) uid = Some s ->
  UserSettings.pushNotificationsEnabled s = false ->
  forall uid' payload,
    enabled UserSettings.pushNotificationsEnabled (findSettings (db w) uid') = true ->
    isPushTo uid (SendToUser uid' payload) = false.
Proof.
  intros Hs Hoff uid' payload Hon. simpl.
  destruct (String.eqb uid' uid) eqn:E; auto.
  apply String.eqb_eq in E. subst uid'. rewrite Hs in Hon. simpl in Hon. congruence.
Qed.

(** C9.  For a user whose settings row has push notifications disabled, a
    whole tick makes no call of the push sender for that user, whichever
    reminders it dispatches.  For a participant linked to that user the
    other two channels follow their own flags: with in-app enabled the
    notification row is inserted (or the insert throws), and with email
    enabled the email sender is invoked with the user's address. *)
Theorem push_disabled_never_pushed (env : Env) (w : World) (uid : Id) (s : UserSettings.t) :
  findSettings (db w) uid = Some s ->
  UserSettings.pushNotificationsEnabled s = false ->
  pushesTo uid (newCalls w (snd (processReminders env w))) = 0%nat
  /\ forall r mtg p u,
       truthy (MeetingParticipant.userId (participant p)) = true ->
       user p = Some u ->
       User.id u = uid ->
       match processParticipant env r mtg p w with
       | (Ok _, w') =>
           pushesTo uid (newCalls w w') = 0%nat
           /\ (UserSettings.inAppNotificationsEnabled s = true ->
               exists row, In row (newNotifications w w')
                           /\ reminderNoticeFor uid (Meeting.id (meeting_row mtg)) row)
           /\ (UserSettings.emailNotificationsEnabled s = true ->
               createdBy mtg <> None ->
               exists d r0,
                 In (SendMeetingReminder (User.email u) d (MeetingReminder.minutesBefore r), r0)
                    (newCalls w w'))
       | (Throw e, w') =>
           UserSettings.inAppNotificationsEnabled s = true
           /\ notificationCreateThrows env (calls w)
                (reminderNotice uid (Meeting.id (meeting_row mtg))
                   (Meeting.title (meeting_row mtg)) (MeetingReminder.minutesBefore r))
              = Some e
       end.
Proof.
  intros Hs Hoff. split.
  - pose proof (keeps_processReminders env (fun c => isPushTo uid c = false) w
                  (fun _ _ => eq_refl) (push_respected uid s w Hs Hoff)
                  (fun _ _ _ => eq_refl) w (since_refl _ _ _ evolves_refl)) as H.
    destruct (processReminders env w) as [[[]|e] w']; [|contradiction].
    simpl. apply pushesTo_none. exact (since_new _ _ _ _ H).
  - intros r mtg p u Ht Hu Hid.
    pose proof (processParticipant_effect env r mtg p u w Ht Hu) as H. cbv zeta in H.
    rewrite Hid, Hs in H. simpl in H.
    pose proof (keeps_processParticipant env (fun c => isPushTo uid c = false) eq w
                  (fun _ _ => eq_refl) (push_respected uid s w Hs Hoff)
                  (fun _ _ _ => eq_refl) r mtg p w (since_refl _ _ _ (fun l => eq_refl)))
      as Hk.
    destruct (processParticipant env r mtg p w) as [[[]|e] w'].
    + destruct H as (dc & dl & dn & Hg & _ & Hrow & Hemail & _).
      destruct (grew_new _ _ _ _ _ Hg) as (Hc & _ & Hn).
      split; [apply pushesTo_none; exact (since_new _ _ _ _ Hk)|].
      rewrite Hc, Hn. split; assumption.
    + destruct H as (_ & Hin & Hthrow). auto.
Qed.

Lemma push_disabled_never_pushed_witness :
  findSettings (db Sample.world) "u-bob"%string = Some Sample.bobSettings
  /\ UserSettings.pushNotificationsEnabled Sample.bobSettings = false
  /\ pushesTo "u-bob"%string (newCalls Sample.world (snd (processReminders Sample.calm Sample.world)))
     = 0%nat.
Proof.
  assert (H1 : findSettings (db Sample.world) "u-bob"%string = Some Sample.bobSettings)
    by reflexivity.
  assert (H2 : UserSettings.pushNotificationsEnabled Sample.bobSettings = false)
    by reflexivity.
  split; [exact H1|]. split; [exact H2|].
  exact (proj1 (push_disabled_never_pushed Sample.calm Sample.world "u-bob"%string
                  Sample.bobSettings H1 H2)).
Defined.

(** ** A failing email sender *)

Lemma emailFailuresLogged_app dc1 dl1 dc2 dl2 :
  emailFailuresLogged dc1 dl1 -> emailFailuresLogged dc2 dl2 ->
  emailFailuresLogged (dc1 ++ dc2) (dl1 ++ dl2).
Proof.
  intros H1 H2 to d mb e Hin. apply in_or_app.
  apply in_app_or in Hin. destruct Hin; [left; eapply H1 | right; eapply H2]; eauto.
Qed.

Lemma served_more s r mtg u dc dn a b x y :
  served s r mtg u dc dn -> served s r mtg u (a ++ dc ++ b) (x ++ dn ++ y).
Proof.
  intros (Hn & He & Hp). split; [|split].
  - intros H. destruct (Hn H) as (row & Hin & Hfor). exists row. split; auto.
    apply in_or_app. right. apply in_or_app. auto.
  - intros H Hc. destruct (He H Hc) as (d & r0 & Hin). exists d, r0.
    apply in_or_app. right. apply in_or_app. auto.
  - intros H. destruct (Hp H) as (r0 & Hin). exists r0.
    apply in_or_app. right. apply in_or_app. auto.
Qed.

Lemma served_store s s' r mtg u dc dn :
  userSettings s' = userSettings s -> served s r mtg u dc dn -> served s' r mtg u dc dn.
Proof. unfold served, findSettings. now intros ->. Qed.

Lemma processParticipant_skip env r mtg p w :
  hasAccount p = false -> processParticipant env r mtg p w = (Ok tt, w).
Proof.
  unfold hasAccount, processParticipant.
  destruct (truthy _); simpl; auto. destruct (user p); [discriminate | reflexivity].
Qed.

Lemma hasAccount_true p :
  hasAccount p = true <->
  truthy (MeetingParticipant.userId (participant p)) = true /\ exists u, user p = Some u.
Proof.
  unfold hasAccount. rewrite andb_true_iff. destruct (user p) as [u|].
  - split; intros [H _]; split; eauto.
  - split; [intros [_ H]; discriminate | intros [_ (u & H)]; discriminate].
Qed.

(** The inner loop when the in-app writer is reliable for the meeting. *)
Lemma participants_effect env r mtg :
  inAppReliable env (Meeting.id (meeting_row mtg)) ->
  forall ps w,
    match forOf ps (processParticipant env r mtg) w with
    | (Ok _, w') =>
        exists dc dl dn,
          grew w w' dc dl dn
          /\ emailFailuresLogged dc dl
          /\ forall p u, In p ps ->
               truthy (MeetingParticipant.userId (participant p)) = true ->
               user p = Some u ->
               served (db w) r mtg u dc dn
    | (Throw _, _) => False
    end.
Proof.
  intros Hrel. induction ps as [|p ps IH]; intros w.
  - simpl. exists [], [], []. split; [apply grew_refl|].
    split; [intros ? ? ? ? []|]. intros p u [].
  - simpl forOf. unfold bind.
    assert (H1 :
      match processParticipant env r mtg p w with
      | (Ok _, w1) =>
          exists dc dl dn,
            grew w w1 dc dl dn
            /\ emailFailuresLogged dc dl
            /\ forall u, truthy (MeetingParticipant.userId (participant p)) = true ->
                 user p = Some u -> served (db w) r mtg u dc dn
      | (Throw _, _) => False
      end).
    { destruct (hasAccount p) eqn:Ha.
      - apply hasAccount_true in Ha. destruct Ha as (Ht & u & Hu).
        pose proof (processParticipant_effect env r mtg p u w Ht Hu) as H. cbv zeta in H.
        destruct (processParticipant env r mtg p w) as [[[]|e] w1].
        + destruct H as (dc & dl & dn & Hg & Hl & Hn & He & Hp & _).
          exists dc, dl, dn. split; [exact Hg|]. split; [exact Hl|].
          intros u' _ Hu'. rewrite Hu in Hu'. injection Hu' as <-.
          split; [exact Hn | split; [exact He | exact Hp]].
        + destruct H as (_ & _ & Hthrow). rewrite Hrel in Hthrow; [discriminate|reflexivity].
      - rewrite (processParticipant_skip _ _ _ _ _ Ha).
        exists [], [], []. split; [apply grew_refl|]. split; [intros ? ? ? ? []|].
        intros u Ht Hu. unfold hasAccount in Ha. rewrite Ht, Hu in Ha. discriminate. }
    destruct (processParticipant env r mtg p w) as [[[]|e] w1]; [|contradiction].
    destruct H1 as (dc1 & dl1 & dn1 & Hg1 & Hl1 & Hs1).
    specialize (IH w1).
    destruct (forOf ps (processParticipant env r mtg) w1) as [[[]|e] w2]; [|contradiction].
    destruct IH as (dc2 & dl2 & dn2 & Hg2 & Hl2 & Hs2).
    exists (dc1 ++ dc2), (dl1 ++ dl2), (dn1 ++ dn2).
    split; [exact (grew_trans _ _ _ _ _ _ _ _ _ Hg1 Hg2)|].
    split; [now apply emailFailuresLogged_app|].
    intros p' u [<- | Hin] Ht Hu.
    + pose proof (served_more _ _ _ _ _ _ [] dc2 [] dn2 (Hs1 u Ht Hu)) as H. exact H.
    + pose proof (served_more _ _ _ _ _ _ dc1 [] dn1 []
                    (served_store _ _ _ _ _ _ _ (eq_sym (grew_settings _ _ _ _ _ Hg1))
                       (Hs2 p' u Hin Ht Hu))) as H.
      now rewrite !app_nil_r in H.
Qed.

Lemma updateReminder_logs rid f w :
  calls (snd (updateReminder rid f w)) = calls w
  /\ console (snd (updateReminder rid f w)) = console w
  /\ notifications (db (snd (updateReminder rid f w))) = notifications (db w).
Proof. unfold updateReminder. destruct (existsb _ _); simpl; auto. Qed.

(** C5.  Whatever the email sender does (for any participant it may
    return or throw), a reminder whose row is in the table and whose
    in-app writes do not throw is processed to the end: processing
    returns, the reminder is marked fully sent, every thrown reminder
    email has its "Failed to send reminder email to <address>" line on the
    console, and every participant with an account still gets what their
    settings ask for: the in-app row, the call of the email sender with
    their address, the call of the push sender with their id. *)
Theorem email_failure_is_isolated (env : Env) (x : ReminderWithMeeting) (w : World) :
  hasReminder (MeetingReminder.id (reminder_row x)) w ->
  inAppReliable env (Meeting.id (meeting_row (meeting x))) ->
  let w' := snd (processReminder env x w) in
  fst (processReminder env x w) = Ok tt
  /\ marked (MeetingReminder.id (reminder_row x)) w'
  /\ emailFailuresLogged (newCalls w w') (newConsole w w')
  /\ forall p u, In p (participants (meeting x)) ->
       truthy (MeetingParticipant.userId (participant p)) = true ->
       user p = Some u ->
       served (db w) (reminder_row x) (meeting x) u (newCalls w w') (newNotifications w w').
Proof.
  intros Hex Hrel w'. unfold w', processReminder, bind.
  pose proof (participants_effect env (reminder_row x) (meeting x) Hrel
                (participants (meeting x)) w) as Hloop.
  destruct (forOf _ _ w) as [[[]|e] w1]; [|contradiction].
  destruct Hloop as (dc & dl & dn & Hg & Hl & Hserved).
  unfold currentDate.
  pose proof (updateReminder_spec (MeetingReminder.id (reminder_row x))
                (dateNow env (calls w1)) w1) as Hupd.
  pose proof (updateReminder_logs (MeetingReminder.id (reminder_row x))
                (MeetingReminder.markSent (dateNow env (calls w1))) w1) as Hlogs.
  destruct (updateReminder _ _ w1) as [[[]|e] w2]; cbn [fst snd] in *.
  - destruct Hupd as [_ Hm]. destruct Hlogs as (Hc & Hk & Hn).
    assert (newCalls w w2 = dc /\ newConsole w w2 = dl /\ newNotifications w w2 = dn)
      as (-> & -> & ->).
    { unfold newCalls, newConsole, newNotifications. rewrite Hc, Hk, Hn.
      exact (grew_new _ _ _ _ _ Hg). }
    auto.
  - exfalso. destruct Hupd as [_ Hno]. apply Hno.
    destruct Hex as (row & Hin & Hid). exists row.
    rewrite (grew_reminders _ _ _ _ _ Hg). auto.
Qed.

Lemma email_failure_is_isolated_witness :
  hasReminder "r-15"%string Sample.world
  /\ inAppReliable Sample.smtpDown "m-1"%string
  /\ fst (processReminder Sample.smtpDown Sample.due Sample.world) = Ok tt
  /\ marked "r-15"%string (snd (processReminder Sample.smtpDown Sample.due Sample.world)).
Proof.
  assert (H1 : hasReminder "r-15"%string Sample.world).
  { exists Sample.r15. split; [left|]; reflexivity. }
  assert (H2 : inAppReliable Sample.smtpDown "m-1"%string).
  { intros h d _. reflexivity. }
  destruct (email_failure_is_isolated Sample.smtpDown Sample.due Sample.world H1 H2)
    as (Hok & Hm & _).
  split; [exact H1|]. split; [exact H2|]. split; [exact Hok | exact Hm].
Defined.

(** ** Participants without an account *)

(** C10.  For a participant with no linked user account the body of the
    inner loop does nothing: it returns at once and leaves the store, the
    outbound calls and the console as they were, so no notification row is
    written and no sender is invoked on their behalf.  A whole tick leaves
    the participant table unchanged. *)
Theorem unlinked_participant_skipped (env : Env) (r : MeetingReminder.t)
    (mtg : MeetingWithParticipants) (p : ParticipantWithUser) (w : World) :
  MeetingParticipant.userId (participant p) = None \/ user p = None ->
  processParticipant env r mtg p w = (Ok tt, w)
  /\ meetingParticipants (db (snd (processReminders env w))) = meetingParticipants (db w).
Proof.
  intros Hno. split.
  - apply processParticipant_skip. unfold hasAccount.
    destruct Hno as [-> | ->]; [reflexivity | apply andb_false_r].
  - pose proof (processReminders_spec env w) as H.
    destruct (processReminders env w) as [[[]|e] w']; [|contradiction].
    simpl. destruct H as (Hs & _). exact (since_participants _ _ _ _ Hs).
Qed.

Lemma unlinked_participant_skipped_witness :
  (MeetingParticipant.userId (participant (includeUser Sample.store Sample.pGuest)) = None
   \/ user (includeUser Sample.store Sample.pGuest) = None)
  /\ processParticipant Sample.calm Sample.r15 (meeting Sample.due)
       (includeUser Sample.store Sample.pGuest) Sample.world = (Ok tt, Sample.world)
  /\ meetingParticipants (db (snd (processReminders Sample.calm Sample.world)))
     = meetingParticipants (db Sample.world).
Proof.
  assert (H : MeetingParticipant.userId (participant (includeUser Sample.store Sample.pGuest))
              = None
              \/ user (includeUser Sample.store Sample.pGuest) = None).
  { left. reflexivity. }
  split; [exact H|].
  exact (unlinked_participant_skipped Sample.calm Sample.r15 (meeting Sample.due)
           (includeUser Sample.store Sample.pGuest) Sample.world H).
Defined.

(** ** The in-app writer *)

(** C4 (as amended).  [NotificationService.create] looks the user's
    settings up itself.  With no settings row, or with in-app
    notifications enabled, it inserts exactly one Notification row (unless
    the insert throws); with in-app notifications disabled it writes
    nothing and returns a placeholder with an empty id that is already
    read. *)
Theorem create_checks_preference (env : Env) (uid : Id) (ty : NotificationType)
    (title msg : string) (rel : option Id) (w : World) :
  let d := {| nd_userId := uid; nd_type := ty; nd_title := title;
              nd_message := msg; nd_relatedMeetingId := rel |} in
  (enabled UserSettings.inAppNotificationsEnabled (findSettings (db w) uid) = false ->
     create env uid ty title msg rel w
     = (Ok (Notification.mk EmptyString ty title msg true (dateNow env (calls w)) uid
              (orNull rel)), w))
  /\ (enabled UserSettings.inAppNotificationsEnabled (findSettings (db w) uid) = true ->
      notificationCreateThrows env (calls w) d = None ->
      let row := Notification.mk (uuid env (rowsCreated (db w))) ty title msg false
                   (dateNow env (calls w)) uid rel in
      create env uid ty title msg rel w = (Ok row, withDb (with_notification row) w)
      /\ notifications (db (snd (create env uid ty title msg rel w)))
         = notifications (db w) ++ [row])
  /\ (enabled UserSettings.inAppNotificationsEnabled (findSettings (db w) uid) = true ->
      forall e, notificationCreateThrows env (calls w) d = Some e ->
      create env uid ty title msg rel w = (Throw e, w)).
Proof.
  intros d. rewrite create_run. fold d. split; [|split].
  - intros ->. reflexivity.
  - intros -> Hok. unfold notificationCreate. rewrite Hok. simpl. auto.
  - intros -> e He. unfold notificationCreate. rewrite He. reflexivity.
Qed.

(** C4 as stated fails: a call for a user who disabled in-app
    notifications writes no row. *)
Lemma create_checks_preference_counterexample :
  ~ (forall (env : Env) (uid : Id) (ty : NotificationType) (title msg : string)
            (rel : option Id) (w : World),
       notificationCreateThrows env (calls w)
         {| nd_userId := uid; nd_type := ty; nd_title := title;
            nd_message := msg; nd_relatedMeetingId := rel |} = None ->
       List.length (notifications (db (snd (create env uid ty title msg rel w))))
       = S (List.length (notifications (db w)))).
Proof.
  intros H.
  specialize (H Sample.calm "u-carol"%string MEETING_REMINDER "Meeting Reminder"%string
                "soon"%string (Some "m-1"%string) Sample.world eq_refl).
  vm_compute in H. discriminate.
Qed.

(** ** The scenarios of the specification, run on the sample deployment *)

(** Scenario A: sixteen minutes before the start only the 15-minute
    reminder is due; the tick marks it and leaves the 5-minute one pending. *)
Example scenario_due_reminder_only :
  map (fun x => MeetingReminder.id (reminder_row x))
    (findDueReminders Sample.noon Sample.store) = ["r-15"%string]
  /\ map (fun r => (MeetingReminder.id r, MeetingReminder.sentAt r))
       (meetingReminders (db (snd (processReminders Sample.calm Sample.world))))
     = [("r-15"%string, Some Sample.noon); ("r-5"%string, None)].
Proof. split; vm_compute; reflexivity. Qed.

(** Scenario B: with the mail transport down the reminder is still marked,
    both failed emails to Alice are on the console, and Carol, later in
    the same loop, still gets her push calls. *)
Example scenario_mail_transport_down :
  let w' := snd (processReminders Sample.smtpDown Sample.world) in
  map MeetingReminder.sentAt (meetingReminders (db w')) = [Some Sample.noon; None]
  /\ In ("Failed to send reminder email to alice@example.com:"%string,
         Some (TransportError "ECONNREFUSED")) (console w')
  /\ pushesTo "u-alice"%string (calls w') = 2%nat
  /\ pushesTo "u-carol"%string (calls w') = 1%nat
  /\ emailsTo "carol@example.com"%string (calls w') = 1%nat.
Proof. vm_compute. intuition. Qed.

(** Scenario C: once the meeting is cancelled no later tick selects its
    reminders. *)
Example scenario_cancelled_meeting :
  findDueReminders Sample.noon
    (db (snd (cancel Sample.calm "m-1"%string "u-alice"%string Sample.world))) = [].
Proof. vm_compute. reflexivity. Qed.

(** Scenario D: Alice has no settings row, so all three channels are
    attempted for her. *)
Example scenario_no_settings_row :
  let w' := snd (processParticipant Sample.calm Sample.r15 (meeting Sample.due)
                   (includeUser Sample.store Sample.pAlice) Sample.world) in
  findSettings Sample.store "u-alice"%string = None
  /\ map Notification.userId (notifications (db w')) = ["u-alice"%string]
  /\ emailsTo "alice@example.com"%string (calls w') = 2%nat
  /\ pushesTo "u-alice"%string (calls w') = 2%nat.
Proof. vm_compute. intuition. Qed.

(** * Further properties of the services *)

(** ** Listing and acknowledging notifications *)

Lemma insertNewestFirst_perm n l :
  Permutation (NotificationService.insertNewestFirst n l) (n :: l).
Proof.
  induction l as [|m l IH]; simpl; auto.
  destruct (Notification.createdAt m <=? Notification.createdAt n); auto.
  rewrite IH. apply perm_swap.
Qed.

Lemma newestFirst_perm l : Permutation (NotificationService.newestFirst l) l.
Proof.
  induction l as [|n l IH]; simpl; auto.
  rewrite insertNewestFirst_perm. now constructor.
Qed.

Lemma insertNewestFirst_sorted n l :
  StronglySorted newerFirst l ->
  StronglySorted newerFirst (NotificationService.insertNewestFirst n l).
Proof.
  induction 1 as [|m l Hs IH Hall]; simpl.
  - constructor; constructor.
  - destruct (Notification.createdAt m <=? Notification.createdAt n) eqn:E.
    + apply Z.leb_le in E. constructor; [constructor; assumption|].
      constructor; [exact E|].
      eapply Forall_impl; [|exact Hall]. unfold newerFirst. intros; lia.
    + apply Z.leb_gt in E. constructor; [exact IH|].
      apply (Permutation_Forall (Permutation_sym (insertNewestFirst_perm n l))).
      constructor; [unfold newerFirst; lia | exact Hall].
Qed.

Lemma newestFirst_sorted l : StronglySorted newerFirst (NotificationService.newestFirst l).
Proof.
  induction l as [|n l IH]; simpl; [constructor|].
  now apply insertNewestFirst_sorted.
Qed.

Lemma firstn_sorted {A} (R : A -> A -> Prop) k l :
  StronglySorted R l -> StronglySorted R (firstn k l).
Proof.
  revert l. induction k as [|k IH]; intros l H; simpl; [constructor|].
  destruct H as [|a l Hs Hall]; constructor; auto.
  rewrite Forall_forall in *. intros x Hx. apply Hall. eapply In_firstn; eauto.
Qed.

Lemma listed_spec userId unreadOnly n :
  NotificationService.listed userId unreadOnly n = true <->
  Notification.userId n = userId /\ (unreadOnly = true -> Notification.isRead n = false).
Proof.
  unfold NotificationService.listed. rewrite andb_true_iff, String.eqb_eq.
  destruct unreadOnly; simpl; rewrite ?negb_true_iff; intuition congruence.
Qed.

Lemma In_skipn_list {A} k (l : list A) x : In x (skipn k l) -> In x l.
Proof.
  revert l; induction k; intros [|a l]; simpl; try tauto.
  intros H. right. auto.
Qed.

Lemma skipn_sorted {A} (R : A -> A -> Prop) k l :
  StronglySorted R l -> StronglySorted R (skipn k l).
Proof.
  revert l. induction k as [|k IH]; intros l H; simpl; [exact H|].
  destruct H as [|a l Hs Hall]; [constructor | auto].
Qed.

Lemma takeRows_split {A} (n : Z) (l : list A) :
  (List.length (NotificationService.takeRows n l) <= Z.abs_nat n)%nat
  /\ (0 <= n -> exists rest, l = NotificationService.takeRows n l ++ rest)
  /\ (n < 0 -> exists rest, l = rest ++ NotificationService.takeRows n l)
  /\ ((List.length l <= Z.abs_nat n)%nat -> NotificationService.takeRows n l = l).
Proof.
  unfold NotificationService.takeRows. destruct (0 <=? n) eqn:E.
  - apply Z.leb_le in E. split; [rewrite length_firstn; lia|].
    split; [intros _; exists (skipn (Z.to_nat n) l); now rewrite firstn_skipn|].
    split; [lia|]. intros Hlen. apply firstn_all2. lia.
  - apply Z.leb_gt in E. split; [rewrite length_skipn; lia|].
    split; [lia|].
    split; [intros _; eexists; symmetry; apply firstn_skipn|].
    intros Hlen. replace (List.length l - Z.to_nat (- n))%nat with 0%nat by lia.
    reflexivity.
Qed.

Lemma In_takeRows {A} (n : Z) (l : list A) x :
  In x (NotificationService.takeRows n l) -> In x l.
Proof.
  unfold NotificationService.takeRows. destruct (0 <=? n).
  - apply In_firstn.
  - apply In_skipn_list.
Qed.

(** X1.  [getForUser] returns a page of the user's notifications (the
    unread ones when [unreadOnly] is set), ordered from newest to oldest.
    The count handed to the store is the limit, or 50 when the limit is
    absent, [NaN] or 0, and the page has at most as many rows as its
    absolute value: for a positive count the page is the newest rows, what
    is left out being older; a negative limit is not rejected, and its
    page is the oldest rows.  When the user has no more matching rows than
    that, the page is a rearrangement of all of them. *)
Theorem getForUser_page (userId : Id) (unreadOnly : bool)
    (limit : option NotificationService.ParsedInt) (s : Store) :
  let page := NotificationService.getForUser userId unreadOnly limit s in
  let matching := filter (NotificationService.listed userId unreadOnly) (notifications s) in
  let count := match limit with
               | Some (NotificationService.Int z) => if z =? 0 then 50 else z
               | _ => 50
               end in
  (List.length page <= Z.abs_nat count)%nat
  /\ (forall n, In n page ->
        In n (notifications s)
        /\ Notification.userId n = userId
        /\ (unreadOnly = true -> Notification.isRead n = false))
  /\ StronglySorted newerFirst page
  /\ (0 < count -> exists older,
        Permutation (page ++ older) matching /\ StronglySorted newerFirst (page ++ older))
  /\ (count < 0 -> exists newer,
        Permutation (newer ++ page) matching /\ StronglySorted newerFirst (newer ++ page))
  /\ ((List.length matching <= Z.abs_nat count)%nat -> Permutation page matching).
Proof.
  intros page matching count. unfold page, NotificationService.getForUser.
  change (NotificationService.takeOf limit) with count. fold matching.
  destruct (takeRows_split count (NotificationService.newestFirst matching))
    as (Hlen & Hpos & Hneg & Hall).
  pose proof (newestFirst_sorted matching) as Hsorted.
  pose proof (newestFirst_perm matching) as Hperm.
  split; [exact Hlen|]. split; [|split; [|split; [|split]]].
  - intros n Hn. apply In_takeRows in Hn.
    apply (Permutation_in _ Hperm) in Hn.
    apply filter_In in Hn. destruct Hn as [Hin Hl].
    apply listed_spec in Hl. tauto.
  - unfold NotificationService.takeRows. destruct (0 <=? count).
    + now apply firstn_sorted.
    + now apply skipn_sorted.
  - intros Hc. destruct Hpos as [rest Hrest]; [lia|]. exists rest.
    rewrite <- Hrest. split; assumption.
  - intros Hc. destruct (Hneg Hc) as [rest Hrest]. exists rest.
    rewrite <- Hrest. split; assumption.
  - intros Hfit. rewrite Hall; [exact Hperm|].
    now rewrite (Permutation_length Hperm).
Qed.

Lemma map_untouched {A} (f : A -> A) (c : A -> bool) l :
  (forall x, In x l -> c x = false) -> map (fun x => if c x then f x else x) l = l.
Proof.
  induction l as [|a l IH]; simpl; intros H; auto.
  rewrite (H a (or_introl eq_refl)). f_equal. apply IH. auto.
Qed.

Lemma listed_read userId n :
  NotificationService.listed userId true (NotificationService.read n) = false.
Proof. unfold NotificationService.listed. simpl. apply andb_false_r. Qed.

(** With unique ids, marking row [n] removes it, and nothing else, from
    the unread rows of any user. *)
Lemma unread_after_mark uid l n :
  NoDup (map Notification.id l) -> In n l ->
  (List.length
     (filter (NotificationService.listed uid true)
        (map (fun x => if String.eqb (Notification.id x) (Notification.id n)
                       then NotificationService.read x else x) l))
   + (if NotificationService.listed uid true n then 1 else 0)
   = List.length (filter (NotificationService.listed uid true) l))%nat.
Proof.
  induction l as [|a l IH]; simpl; intros Hnd Hin; [contradiction|].
  inversion Hnd as [|? ? Hnotin Hnd']; subst.
  destruct Hin as [-> | Hin].
  - rewrite String.eqb_refl. simpl. rewrite listed_read.
    rewrite map_untouched.
    + destruct (NotificationService.listed uid true n); simpl; lia.
    + intros x Hx. apply String.eqb_neq. intros E. apply Hnotin.
      rewrite <- E. now apply in_map.
  - destruct (String.eqb (Notification.id a) (Notification.id n)) eqn:E.
    + exfalso. apply String.eqb_eq in E. apply Hnotin. rewrite E. now apply in_map.
    + simpl. specialize (IH Hnd' Hin).
      destruct (NotificationService.listed uid true a); simpl; lia.
Qed.

Lemma markedRead_table nid l :
  Forall2 (markedRead nid) l
    (map (fun x => if String.eqb (Notification.id x) nid
                   then NotificationService.read x else x) l).
Proof.
  induction l as [|a l IH]; simpl; constructor; auto.
  unfold markedRead. now destruct (String.eqb (Notification.id a) nid).
Qed.

(** X2.  With unique notification ids, [markAsRead] either fails with
    'Notification not found', changing nothing, which it does exactly when
    no row has the id or the row belongs to another user; or it returns
    the user's row with [isRead] set, sets that flag in the table and
    touches no other row: the user's unread count drops by one if the row
    was unread and the unread count of every other user stays. *)
Theorem markAsRead_checks_owner (notificationId userId : Id) (s : Store) :
  NoDup (map Notification.id (notifications s)) ->
  let r := NotificationService.markAsRead notificationId userId s in
  (fst r = inl "Notification not found"%string
   /\ snd r = s
   /\ forall n, In n (notifications s) -> Notification.id n = notificationId ->
                Notification.userId n <> userId)
  \/ (exists n,
        In n (notifications s)
        /\ Notification.id n = notificationId
        /\ Notification.userId n = userId
        /\ fst r = inr (NotificationService.read n)
        /\ Forall2 (markedRead notificationId) (notifications s) (notifications (snd r))
        /\ (NotificationService.getUnreadCount userId (snd r)
            + (if Notification.isRead n then 0 else 1)
            = NotificationService.getUnreadCount userId s)%nat
        /\ forall other, other <> userId ->
             NotificationService.getUnreadCount other (snd r)
             = NotificationService.getUnreadCount other s).
Proof.
  intros Hnd r. unfold r, NotificationService.markAsRead.
  destruct (find _ (notifications s)) as [n|] eqn:Hfind.
  - destruct (find_some _ _ Hfind) as [Hin Hid]. apply String.eqb_eq in Hid.
    destruct (String.eqb (Notification.userId n) userId) eqn:Hown; simpl.
    + apply String.eqb_eq in Hown. right. exists n.
      split; [exact Hin|]. split; [exact Hid|]. split; [exact Hown|].
      split; [reflexivity|]. split; [apply markedRead_table|].
      unfold NotificationService.getUnreadCount. simpl. rewrite <- Hid.
      split.
      * assert (Hl : NotificationService.listed userId true n
                     = negb (Notification.isRead n)).
        { unfold NotificationService.listed. now rewrite Hown, String.eqb_refl. }
        rewrite <- (unread_after_mark userId _ n Hnd Hin), Hl.
        now destruct (Notification.isRead n).
      * intros other Hother.
        assert (Hl : NotificationService.listed other true n = false).
        { unfold NotificationService.listed. apply andb_false_iff. left.
          apply String.eqb_neq. congruence. }
        rewrite <- (unread_after_mark other _ n Hnd Hin), Hl. lia.
    + left. split; [reflexivity|]. split; [reflexivity|].
      intros m Hm Hmid Hmu.
      assert (m = n) as ->.
      { clear Hfind. revert Hnd Hin Hm. rewrite <- Hid in Hmid.
        generalize (notifications s). intros l. induction l as [|a l IH]; [contradiction|].
        simpl. intros Hnd' [-> | Hn] [-> | Hm']; auto.
        - inversion Hnd'; subst. exfalso. apply H1. rewrite <- Hmid. now apply in_map.
        - inversion Hnd'; subst. exfalso. apply H1. rewrite Hmid. now apply in_map.
        - inversion Hnd'; subst. auto. }
      apply String.eqb_neq in Hown. contradiction.
  - left. split; [reflexivity|]. split; [reflexivity|].
    intros n Hn Hid _. apply (find_none _ _ Hfind) in Hn.
    apply String.eqb_neq in Hn. contradiction.
Qed.

Lemma filter_map_read uid l :
  filter (NotificationService.listed uid true)
    (map (fun n => if NotificationService.listed uid true n
                   then NotificationService.read n else n) l) = [].
Proof.
  induction l as [|a l IH]; simpl; auto.
  destruct (NotificationService.listed uid true a) eqn:E.
  - now rewrite listed_read.
  - now rewrite E.
Qed.

Lemma listed_other uid other unreadOnly n :
  other <> uid ->
  NotificationService.listed other unreadOnly n = true ->
  NotificationService.listed uid true n = false.
Proof.
  intros Hne H. apply listed_spec in H. destruct H as [Hu _].
  unfold NotificationService.listed. apply andb_false_iff. left.
  apply String.eqb_neq. congruence.
Qed.

Lemma filter_other_untouched uid other unreadOnly l :
  other <> uid ->
  filter (NotificationService.listed other unreadOnly)
    (map (fun n => if NotificationService.listed uid true n
                   then NotificationService.read n else n) l)
  = filter (NotificationService.listed other unreadOnly) l.
Proof.
  intros Hne. induction l as [|a l IH]; simpl; auto.
  destruct (NotificationService.listed uid true a) eqn:E.
  - assert (Ha : NotificationService.listed other unreadOnly a = false).
    { destruct (NotificationService.listed other unreadOnly a) eqn:Ea; auto.
      rewrite (listed_other uid other unreadOnly a Hne Ea) in E. discriminate. }
    assert (Hr : NotificationService.listed other unreadOnly (NotificationService.read a)
                 = false).
    { apply listed_spec in E. destruct E as [Eu _].
      unfold NotificationService.listed. simpl. apply andb_false_iff. left.
      apply String.eqb_neq. congruence. }
    now rewrite Ha, Hr.
  - now rewrite IH.
Qed.

(** X3.  [markAllAsRead] returns the user's unread count and leaves the
    user with none unread; what any other user is shown, read or unread,
    is unchanged, and a second call marks nothing and changes nothing. *)
Theorem markAllAsRead_clears (userId : Id) (s : Store) :
  let s' := snd (NotificationService.markAllAsRead userId s) in
  fst (NotificationService.markAllAsRead userId s)
  = NotificationService.getUnreadCount userId s
  /\ NotificationService.getUnreadCount userId s' = 0%nat
  /\ (forall other unreadOnly limit, other <> userId ->
        NotificationService.getForUser other unreadOnly limit s'
        = NotificationService.getForUser other unreadOnly limit s)
  /\ (forall other, other <> userId ->
        NotificationService.getUnreadCount other s'
        = NotificationService.getUnreadCount other s)
  /\ NotificationService.markAllAsRead userId s' = (0%nat, s').
Proof.
  intros s'. unfold s', NotificationService.markAllAsRead,
    NotificationService.getUnreadCount, NotificationService.getForUser. simpl.
  split; [reflexivity|]. split; [now rewrite filter_map_read|].
  split; [intros other u l Hne; now rewrite filter_other_untouched|].
  split; [intros other Hne; now rewrite filter_other_untouched|].
  rewrite filter_map_read. unfold with_notifications. simpl. do 2 f_equal.
  apply map_untouched. intros x Hx.
  apply in_map_iff in Hx. destruct Hx as (a & <- & _).
  destruct (NotificationService.listed userId true a) eqn:E; [apply listed_read | exact E].
Qed.

(** ** The notification creators and their fan-out *)

Lemma storeKept_invoke env c (d : Store) :
  preserves (fun w => db w = d) (invoke env c).
Proof. intros w Hw. unfold invoke. now destruct (callThrows env (calls w) c). Qed.

Lemma storeKept_sendExternalNotifications env uid title msg mid (d : Store) :
  hoare (fun w => db w = d) (sendExternalNotifications env uid title msg mid)
    (fun _ w => db w = d) (fun _ _ => False).
Proof.
  unfold sendExternalNotifications. hstep.
  hstep; [|hstep; auto].
  eapply hoare_bind with (Q1 := fun _ w => db w = d).
  - hstep; [|hstep; auto].
    eapply hoare_tryCatch with (E1 := fun _ w => db w = d).
    + eapply hoare_bind with (Q1 := fun _ w => db w = d).
      * hstep; [|hstep; auto].
        eapply hoare_bind with (Q1 := fun _ w => db w = d).
        -- unfold meetingEmailData. hstep; hstep; auto.
        -- intros ?. hstep. auto.
      * intros ?. apply storeKept_invoke.
    + intros e w Hw. exact Hw.
  - intros ?. hstep; [|hstep; auto].
    eapply hoare_tryCatch with (E1 := fun _ w => db w = d).
    + apply storeKept_invoke.
    + intros e w Hw. exact Hw.
Qed.

Lemma emailsTo_le a h : (emailsTo a h <= List.length h)%nat.
Proof. unfold emailsTo. apply filter_length_le. Qed.

(** The email block of the fan-out, whatever the meeting lookup gave. *)
Lemma notificationEmail_effect env (u : User.t) title msg
    (mtg : option MeetingWithParticipants) w :
  exists w' dc dl,
    tryCatch
      (data <- match mtg with
               | Some m => d <- meetingEmailData m ;; ret (Some d)
               | None => ret None
               end ;;
       invoke env (SendMeetingNotification (User.email u)
                     {| ned_title := title; ned_message := msg; ned_meeting := data |}))
      (fun e => consoleError "Failed to send email notification:" e) w = (Ok tt, w')
    /\ grew w w' dc dl []
    /\ (List.length dc <= 1)%nat
    /\ Forall (fun c => isEmailTo (User.email u) (fst c) = true) dc.
Proof.
  assert (Hdata :
    (exists data, (match mtg with
                   | Some m => d <- meetingEmailData m ;; ret (Some d)
                   | None => ret None
                   end) = ret data)
    \/ (exists e, (match mtg with
                   | Some m => d <- meetingEmailData m ;; ret (Some d)
                   | None => ret None
                   end) = throw (A := option MeetingEmailData) e)).
  { destruct mtg as [m|]; [|left; now exists None].
    unfold meetingEmailData. destruct (createdBy m).
    - left. eexists. reflexivity.
    - right. eexists. reflexivity. }
  destruct Hdata as [(data & ->) | (e & ->)].
  - rewrite bind_ret.
    match goal with
    | |- context [invoke env ?c] =>
        destruct (guarded_effect env c "Failed to send email notification:" w)
          as (w' & dl & Run & Hg & _);
        exists w', [(c, callThrows env (calls w) c)], dl
    end.
    split; [exact Run|]. split; [exact Hg|]. split; [simpl; lia|].
    constructor; [|constructor]. simpl. apply String.eqb_refl.
  - unfold tryCatch, bind, throw, consoleError. simpl.
    eexists _, [], _. split; [reflexivity|]. split; [|split; [simpl; lia | constructor]].
    constructor; simpl; auto; now rewrite app_nil_r.
Qed.

Lemma sendExternalNotifications_calls env uid title msg mid (u : User.t) w :
  findUser (db w) uid = Some u ->
  exists w' dc dl,
    sendExternalNotifications env uid title msg mid w = (Ok tt, w')
    /\ grew w w' dc dl []
    /\ (emailsTo (User.email u) dc <= 1)%nat
    /\ (enabled UserSettings.emailNotificationsEnabled (findSettings (db w) uid) = false ->
        emailsTo (User.email u) dc = 0%nat)
    /\ pushesTo uid dc
       = (if enabled UserSettings.pushNotificationsEnabled (findSettings (db w) uid)
          then 1 else 0)%nat
    /\ (List.length dc <= 2)%nat
    /\ Forall (fun c => isEmailTo (User.email u) (fst c) = true
                        \/ isPushTo uid (fst c) = true) dc.
Proof.
  intros Hu. unfold sendExternalNotifications. unfold bind at 1. unfold getDb. rewrite Hu.
  unfold bind at 1.
  assert (Hemail :
    exists w1 dc1 dl1,
      (if enabled UserSettings.emailNotificationsEnabled (findSettings (db w) uid)
       then tryCatch
              (data <- match
                         match mid with
                         | Some m =>
                             if truthy mid
                             then option_map (includeMeeting (db w)) (findMeeting (db w) m)
                             else None
                         | None => None
                         end
                       with
                       | Some m => d <- meetingEmailData m ;; ret (Some d)
                       | None => ret None
                       end ;;
               invoke env (SendMeetingNotification (User.email u)
                             {| ned_title := title; ned_message := msg;
                                ned_meeting := data |}))
              (fun e => consoleError "Failed to send email notification:" e)
       else ret tt) w = (Ok tt, w1)
      /\ grew w w1 dc1 dl1 []
      /\ (List.length dc1 <= 1)%nat
      /\ pushesTo uid dc1 = 0%nat
      /\ (enabled UserSettings.emailNotificationsEnabled (findSettings (db w) uid) = false ->
          dc1 = [])
      /\ Forall (fun c => isEmailTo (User.email u) (fst c) = true) dc1).
  { destruct (enabled UserSettings.emailNotificationsEnabled (findSettings (db w) uid)).
    - destruct (notificationEmail_effect env u title msg
                  (match mid with
                   | Some m =>
                       if truthy mid
                       then option_map (includeMeeting (db w)) (findMeeting (db w) m)
                       else None
                   | None => None
                   end) w) as (w1 & dc1 & dl1 & Run & Hg & Hlen & Hall).
      exists w1, dc1, dl1. split; [exact Run|]. split; [exact Hg|]. split; [exact Hlen|].
      split; [|split; [discriminate | exact Hall]].
      apply pushesTo_none. eapply Forall_impl; [|exact Hall].
      intros [c r] Hc. simpl in *. destruct c; simpl in *; auto; discriminate.
    - exists w, [], []. split; [reflexivity|]. split; [apply grew_refl|].
      split; [simpl; lia|]. split; [reflexivity|]. split; [reflexivity | constructor]. }
  destruct Hemail as (w1 & dc1 & dl1 & Run1 & Hg1 & Hlen1 & Hp1 & Hoff1 & Hto1).
  assert (Hto : Forall (fun c => isEmailTo (User.email u) (fst c) = true
                                 \/ isPushTo uid (fst c) = true) dc1).
  { eapply Forall_impl; [|exact Hto1]. intros c Hc. now left. }
  rewrite Run1.
  assert (Hsame : findSettings (db w1) uid = findSettings (db w) uid)
    by exact (grew_findSettings _ _ _ _ _ uid Hg1).
  match goal with
  | |- context [tryCatch (invoke env ?c) ?h] =>
      destruct (pushStep_effect env
                  (enabled UserSettings.pushNotificationsEnabled (findSettings (db w) uid))
                  c "Failed to send push notification:" w1)
        as (w2 & dc2 & dl2 & Run2 & Hg2 & Hon2 & Hoff2)
  end.
  rewrite Run2. exists w2, (dc1 ++ dc2), (dl1 ++ dl2).
  split; [reflexivity|].
  split; [exact (grew_trans _ _ _ _ _ _ _ _ _ Hg1 Hg2)|].
  rewrite emailsTo_app, pushesTo_app, Hp1, length_app.
  destruct (enabled UserSettings.pushNotificationsEnabled (findSettings (db w) uid)).
  - destruct (Hon2 eq_refl) as (r0 & ->). rewrite pushesTo_push.
    assert (He2 : forall a, emailsTo a [(SendToUser uid
              {| pp_title := title; pp_body := msg;
                 pp_data := match mid with
                            | Some m => if truthy mid
                                        then Some [("meetingId"%string, m)] else None
                            | None => None
                            end |}, r0)] = 0%nat) by reflexivity.
    rewrite He2. pose proof (emailsTo_le (User.email u) dc1).
    split; [lia|]. split; [intros Hoff; rewrite (Hoff1 Hoff); reflexivity|].
    split; [reflexivity|]. split; [simpl; lia|].
    apply Forall_app. split; [exact Hto|].
    constructor; [|constructor]. right. simpl. apply String.eqb_refl.
  - rewrite (Hoff2 eq_refl). pose proof (emailsTo_le (User.email u) dc1).
    change (emailsTo (User.email u) []) with 0%nat.
    change (pushesTo uid []) with 0%nat.
    split; [lia|]. split; [intros Hoff; rewrite (Hoff1 Hoff); reflexivity|].
    split; [reflexivity|]. split; [simpl; lia|].
    rewrite app_nil_r. exact Hto.
Qed.

(** X4.  No failure of the email sender or of the push sender makes the
    fan-out throw: it returns whatever they do.  It writes no row of the
    user, settings, meeting, participant, reminder, notification and
    audit tables.  It makes no call at all for a user the store does not
    know, and for a known user at most two calls, each one the email to
    that user's address or the push for that user: at most one email and
    none when the email channel is disabled, exactly one push when the
    push channel is enabled and none when it is disabled.  So the one
    table it can reach is the subscription table, which the push call for
    this user may prune. *)
Theorem sendExternalNotifications_failsafe (env : Env) (uid : Id) (title msg : string)
    (mid : option Id) (w : World) :
  let w' := snd (sendExternalNotifications env uid title msg mid w) in
  fst (sendExternalNotifications env uid title msg mid w) = Ok tt
  /\ (users (db w') = users (db w)
      /\ userSettings (db w') = userSettings (db w)
      /\ meetings (db w') = meetings (db w)
      /\ meetingParticipants (db w') = meetingParticipants (db w)
      /\ meetingReminders (db w') = meetingReminders (db w)
      /\ notifications (db w') = notifications (db w)
      /\ auditLogs (db w') = auditLogs (db w))
  /\ (findUser (db w) uid = None -> newCalls w w' = [])
  /\ (forall u, findUser (db w) uid = Some u ->
        (List.length (newCalls w w') <= 2)%nat
        /\ Forall (fun c => isEmailTo (User.email u) (fst c) = true
                            \/ isPushTo uid (fst c) = true) (newCalls w w')
        /\ (emailsTo (User.email u) (newCalls w w') <= 1)%nat
        /\ (enabled UserSettings.emailNotificationsEnabled (findSettings (db w) uid) = false ->
            emailsTo (User.email u) (newCalls w w') = 0%nat)
        /\ pushesTo uid (newCalls w w')
           = (if enabled UserSettings.pushNotificationsEnabled (findSettings (db w) uid)
              then 1 else 0)%nat).
Proof.
  intros w'. unfold w'.
  pose proof (storeKept_sendExternalNotifications env uid title msg mid (db w) w eq_refl) as H.
  split; [|split; [|split]].
  - destruct (sendExternalNotifications env uid title msg mid w) as [[[]|e] w1];
      [reflexivity | contradiction].
  - destruct (sendExternalNotifications env uid title msg mid w) as [[[]|e] w1];
      [|contradiction].
    cbn [snd]. rewrite H. repeat split.
  - intros Hnone. unfold sendExternalNotifications, bind, getDb. rewrite Hnone.
    cbn [snd ret]. unfold newCalls. apply skipn_all.
  - intros u Hu.
    destruct (sendExternalNotifications_calls env uid title msg mid u w Hu)
      as (w1 & dc & dl & Run & Hg & He & Hoff & Hp & Hlen & Hto).
    rewrite Run. cbn [snd]. destruct (grew_new _ _ _ _ _ Hg) as (-> & _ & _). auto.
Qed.

(** An in-app row followed by the fan-out, the shape shared by the
    invitation, update and cancellation notices. *)
Lemma announce_effect env (u : User.t) ty title msg mid w :
  findUser (db w) (User.id u) = Some u ->
  creatorKnown (db w) mid ->
  inAppReliable env mid ->
  eachChannelOnce u w
    ((create env (User.id u) ty title msg (Some mid) ;;;
      sendExternalNotifications env (User.id u) title msg (Some mid)) w).
Proof.
  intros Hu Hck Hrel. unfold eachChannelOnce, bind. rewrite create_run.
  destruct (enabled UserSettings.inAppNotificationsEnabled
              (findSettings (db w) (User.id u))) eqn:Hin.
  - unfold notificationCreate.
    rewrite (Hrel (calls w)
               {| nd_userId := User.id u; nd_type := ty; nd_title := title;
                  nd_message := msg; nd_relatedMeetingId := Some mid |} eq_refl).
    match goal with
    | |- context [sendExternalNotifications env _ _ _ _ ?wa] =>
        destruct (sendExternalNotifications_effect env (User.id u) title msg mid u wa Hu Hck)
          as (w' & dc & dl & Run & Hg & He & Hp);
        pose proof (grew_trans _ _ _ _ _ _ _ _ _ (grew_inserted w _) Hg) as Hall
    end.
    rewrite Run. cbn [fst snd].
    destruct (grew_new _ _ _ _ _ Hall) as (-> & _ & ->).
    split; [reflexivity|]. split; [reflexivity|].
    split; [repeat constructor|]. split; [exact He | exact Hp].
  - destruct (sendExternalNotifications_effect env (User.id u) title msg mid u w Hu Hck)
      as (w' & dc & dl & Run & Hg & He & Hp).
    rewrite Run. cbn [fst snd].
    destruct (grew_new _ _ _ _ _ Hg) as (-> & _ & ->).
    split; [reflexivity|]. split; [reflexivity|].
    split; [constructor|]. split; [exact He | exact Hp].
Qed.

(** X5.  An invitation, an update notice and a cancellation notice treat
    the three channels of the recipient independently: it returns, writes one in-app row for the
    user exactly when in-app is enabled, calls the email sender once
    exactly when email is enabled and the push sender once exactly when
    push is enabled, so switching in-app off does not silence email or
    push.  The store holds the user and the meeting's creator, and the
    in-app insert does not throw. *)
Theorem notices_serve_each_channel (env : Env) (u : User.t) (mid : Id)
    (title name : string) (w : World) :
  findUser (db w) (User.id u) = Some u ->
  creatorKnown (db w) mid ->
  inAppReliable env mid ->
  eachChannelOnce u w (createMeetingInvitation env (User.id u) mid title name w)
  /\ eachChannelOnce u w (createMeetingUpdate env (User.id u) mid title w)
  /\ eachChannelOnce u w (createMeetingCancellation env (User.id u) mid title name w).
Proof.
  intros Hu Hck Hrel. split; [|split].
  - apply (announce_effect env u MEETING_INVITATION "New Meeting Invitation"); assumption.
  - apply (announce_effect env u MEETING_UPDATED "Meeting Updated"); assumption.
  - apply (announce_effect env u MEETING_CANCELLED "Meeting Cancelled"); assumption.
Qed.

(** ** Push subscriptions *)

Lemma find_endpoint_none e rows :
  find (PushService.byEndpoint e) rows = None <->
  ~ In e (map PushSubscription.endpoint rows).
Proof.
  induction rows as [|r rows IH]; simpl; [tauto|].
  unfold PushService.byEndpoint at 1.
  destruct (String.eqb (PushSubscription.endpoint r) e) eqn:E.
  - apply String.eqb_eq in E. split; [discriminate | tauto].
  - apply String.eqb_neq in E. rewrite IH. tauto.
Qed.

Lemma map_endpoint_reassign uid i rows :
  map PushSubscription.endpoint
    (map (fun r => if String.eqb (PushSubscription.id r) i
                   then PushService.reassigned uid r else r) rows)
  = map PushSubscription.endpoint rows.
Proof.
  rewrite map_map. apply map_ext. intros r.
  now destruct (String.eqb (PushSubscription.id r) i).
Qed.

Lemma find_reassigned uid e rows existing :
  find (PushService.byEndpoint e) rows = Some existing ->
  find (PushService.byEndpoint e)
    (map (fun r => if String.eqb (PushSubscription.id r) (PushSubscription.id existing)
                   then PushService.reassigned uid r else r) rows)
  = Some (PushService.reassigned uid existing).
Proof.
  induction rows as [|r rows IH]; simpl; [discriminate|].
  destruct (PushService.byEndpoint e r) eqn:E.
  - intros [= ->]. rewrite String.eqb_refl. simpl.
    unfold PushService.byEndpoint in *. simpl. now rewrite E.
  - intros H. specialize (IH H).
    destruct (String.eqb (PushSubscription.id r) (PushSubscription.id existing)); simpl.
    + unfold PushService.byEndpoint in *. simpl. now rewrite E.
    + now rewrite E.
Qed.

Lemma find_appended e rows row :
  find (PushService.byEndpoint e) rows = None ->
  PushSubscription.endpoint row = e ->
  find (PushService.byEndpoint e) (rows ++ [row]) = Some row.
Proof.
  intros Hnone He. induction rows as [|r rows IH]; simpl in *.
  - unfold PushService.byEndpoint. now rewrite He, String.eqb_refl.
  - destruct (PushService.byEndpoint e r); [discriminate | auto].
Qed.

(** X6.  [subscribe] keeps endpoints unique and leaves the endpoint
    registered to the caller.  A new endpoint adds one row carrying the
    given keys; an endpoint already on record adds none: its row keeps its
    id and its stored keys and only changes owner.  Subscribing again is
    a no-op. *)
Theorem subscribe_registers_endpoint (newId userId : Id) (sub : SubscriptionInput)
    (rows : list PushSubscription.t) :
  NoDup (map PushSubscription.endpoint rows) ->
  let rows' := PushService.subscribe newId userId sub rows in
  NoDup (map PushSubscription.endpoint rows')
  /\ (exists r, find (PushService.byEndpoint (si_endpoint sub)) rows' = Some r
                /\ PushSubscription.userId r = userId)
  /\ (find (PushService.byEndpoint (si_endpoint sub)) rows = None ->
      rows' = rows ++ [PushSubscription.mk newId (si_endpoint sub) (si_p256dh sub)
                         (si_auth sub) userId])
  /\ (forall existing,
        find (PushService.byEndpoint (si_endpoint sub)) rows = Some existing ->
        List.length rows' = List.length rows
        /\ find (PushService.byEndpoint (si_endpoint sub)) rows'
           = Some (PushService.reassigned userId existing))
  /\ (forall otherId, PushService.subscribe otherId userId sub rows' = rows').
Proof.
  intros Hnd rows'. unfold rows', PushService.subscribe.
  destruct (find (PushService.byEndpoint (si_endpoint sub)) rows) as [existing|] eqn:Hfind.
  - destruct (String.eqb (PushSubscription.userId existing) userId) eqn:Hown; simpl.
    + apply String.eqb_eq in Hown.
      split; [exact Hnd|]. split; [eauto|]. split; [discriminate|].
      split.
      * intros ex [= <-]. split; [reflexivity|]. rewrite Hfind. f_equal.
        destruct existing. unfold PushService.reassigned. simpl in *. now subst.
      * intros otherId. rewrite Hfind.
        apply String.eqb_eq in Hown. now rewrite Hown.
    + pose proof (find_reassigned userId _ _ _ Hfind) as Hnew.
      split; [now rewrite map_endpoint_reassign|].
      split; [eexists; split; [exact Hnew | reflexivity]|].
      split; [discriminate|]. split.
      * intros ex [= <-]. split; [now rewrite length_map | exact Hnew].
      * intros otherId. rewrite Hnew. simpl. now rewrite String.eqb_refl.
  - pose proof (find_appended _ _ (PushSubscription.mk newId (si_endpoint sub)
                  (si_p256dh sub) (si_auth sub) userId) Hfind eq_refl) as Hnew.
    split.
    + rewrite map_app. simpl. apply NoDup_app.
      * exact Hnd.
      * repeat constructor. simpl. tauto.
      * intros e He [<-|[]]. now apply find_endpoint_none in Hfind.
    + split; [eexists; split; [exact Hnew | reflexivity]|].
      split; [reflexivity|]. split; [discriminate|].
      intros otherId. rewrite Hnew. simpl. now rewrite String.eqb_refl.
Qed.

Lemma filter_app_last {A} (f : A -> bool) l x :
  f x = false -> Forall (fun a => f a = true) l -> filter f (l ++ [x]) = l.
Proof.
  intros Hx Hl. rewrite filter_app. simpl. rewrite Hx, app_nil_r.
  induction Hl as [|a l Ha Hl IH]; simpl; [reflexivity|]. now rewrite Ha, IH.
Qed.

(** X7.  [unsubscribe] undoes [subscribe]: removing an endpoint that was
    not on record before it was subscribed gives back the table as it
    was, and after [unsubscribe] the endpoint is on record for nobody,
    whoever held it, while every other row stays. *)
Theorem unsubscribe_removes_endpoint (newId userId : Id) (sub : SubscriptionInput)
    (endpoint : string) (rows : list PushSubscription.t) :
  (find (PushService.byEndpoint (si_endpoint sub)) rows = None ->
   PushService.unsubscribe (si_endpoint sub)
     (PushService.subscribe newId userId sub rows) = rows)
  /\ find (PushService.byEndpoint endpoint) (PushService.unsubscribe endpoint rows) = None
  /\ (forall r, PushSubscription.endpoint r <> endpoint ->
        (In r (PushService.unsubscribe endpoint rows) <-> In r rows)).
Proof.
  split; [|split].
  - intros Hnone. unfold PushService.subscribe, PushService.unsubscribe.
    rewrite Hnone. apply filter_app_last.
    + unfold PushService.byEndpoint. simpl. now rewrite String.eqb_refl.
    + apply Forall_forall. intros r Hr.
      destruct (PushService.byEndpoint (si_endpoint sub) r) eqn:E; [|reflexivity].
      exfalso. apply find_endpoint_none in Hnone. apply Hnone.
      apply String.eqb_eq in E. rewrite <- E. now apply in_map.
  - apply find_endpoint_none. intros Hin. apply in_map_iff in Hin.
    destruct Hin as [r [He Hr]]. apply filter_In in Hr. destruct Hr as [_ Hr].
    unfold PushService.byEndpoint in Hr. rewrite He, String.eqb_refl in Hr.
    discriminate.
  - intros r Hne. unfold PushService.unsubscribe. rewrite filter_In.
    split; [tauto|]. intros Hr. split; [exact Hr|].
    unfold PushService.byEndpoint.
    destruct (String.eqb (PushSubscription.endpoint r) endpoint) eqn:E; [|reflexivity].
    now apply String.eqb_eq in E.
Qed.

Lemma filter_combine_map {A B} (f : A -> B) (g : B -> bool) l :
  map fst (filter (fun sr => g (snd sr)) (combine l (map f l)))
  = filter (fun a => g (f a)) l.
Proof.
  induction l as [|a l IH]; simpl; [reflexivity|].
  destruct (g (f a)); simpl; now rewrite IH.
Qed.

Lemma filter_nothing {A} (l : list A) : filter (fun _ => negb false) l = l.
Proof. induction l as [|a l IH]; simpl; [reflexivity | now f_equal]. Qed.

(** X8.  [sendToUser]: when push is not configured nothing is attempted
    and no subscription is removed.  When it is, every subscription of
    the user gets one delivery, and the subscriptions that remain are
    exactly the rows that are not a subscription of this user whose
    delivery was rejected with status 404 or 410: other users'
    subscriptions and those that failed otherwise are kept. *)
Theorem sendToUser_prunes_gone
    (sendNotification : string -> string -> string -> PushMessage -> Settled)
    (userId : Id) (payload : PushRequest) (rows : list PushSubscription.t) :
  NoDup (map PushSubscription.endpoint rows) ->
  let settled (r : PushSubscription.t) :=
    sendNotification (PushSubscription.endpoint r) (PushSubscription.p256dh r)
      (PushSubscription.auth r) (PushService.messageOf payload) in
  let off := PushService.sendToUser false sendNotification userId payload rows in
  let on := PushService.sendToUser true sendNotification userId payload rows in
  (attempted off = [] /\ remaining off = rows)
  /\ map fst (attempted on)
     = map PushSubscription.endpoint
         (filter (fun r => String.eqb (PushSubscription.userId r) userId) rows)
  /\ Forall (fun a => snd a = PushService.messageOf payload) (attempted on)
  /\ remaining on
     = filter (fun r => negb (String.eqb (PushSubscription.userId r) userId
                              && PushService.gone (settled r))) rows.
Proof.
  intros Hnd settled off on. split; [split; reflexivity|].
  split; [|split].
  - unfold on, PushService.sendToUser. simpl. now rewrite map_map.
  - unfold on, PushService.sendToUser. simpl. apply Forall_forall.
    intros a Ha. apply in_map_iff in Ha. now destruct Ha as [r [<- _]].
  - unfold on, PushService.sendToUser. simpl.
    set (subscriptions := filter (PushService.ownedBy userId) rows).
    set (failed := map _ (filter _ (combine subscriptions _))).
    assert (Hfailed : failed = map PushSubscription.endpoint
              (filter (fun r => PushService.gone (settled r)) subscriptions)).
    { unfold failed.
      rewrite <- (filter_combine_map settled PushService.gone subscriptions).
      now rewrite map_map. }
    assert (Hsame : filter (fun r => negb (existsb (String.eqb (PushSubscription.endpoint r))
                                             failed)) rows
                    = filter (fun r => negb (String.eqb (PushSubscription.userId r) userId
                                             && PushService.gone (settled r))) rows).
    { apply filter_ext_in. intros r Hr. f_equal.
      apply Bool.eq_true_iff_eq. rewrite existsb_exists, Bool.andb_true_iff.
      rewrite Hfailed. split.
      - intros [e [He Heq]]. apply String.eqb_eq in Heq.
        apply in_map_iff in He. destruct He as [s [Hs Hin]].
        apply filter_In in Hin. destruct Hin as [Hin Hgone].
        apply filter_In in Hin. destruct Hin as [Hin Hown].
        assert (s = r) as ->.
        { apply (NoDup_map_inj PushSubscription.endpoint rows); auto. congruence. }
        split; assumption.
      - intros [Hown Hgone]. exists (PushSubscription.endpoint r).
        split; [|apply String.eqb_refl].
        apply in_map. apply filter_In. split; [|exact Hgone].
        apply filter_In. split; assumption. }
    destruct failed as [|e failed'] eqn:Ef.
    + simpl. rewrite <- Hsame. simpl. symmetry. apply filter_nothing.
    + simpl. exact Hsame.
Qed.

(** ** Refresh tokens *)

Lemma find_filter_kept {A} (f keep : A -> bool) l a :
  find f l = Some a -> keep a = true -> find f (filter keep l) = Some a.
Proof.
  induction l as [|x l IH]; simpl; [discriminate|].
  destruct (f x) eqn:Fx.
  - intros [= ->] Hk. rewrite Hk. simpl. now rewrite Fx.
  - intros Hf Hk. destruct (keep x); simpl; [rewrite Fx|]; auto.
Qed.

Lemma find_filter_gone {A B} (key : A -> B) (f keep : A -> bool) l a :
  NoDup (map key l) ->
  (forall x y, f x = true -> f y = true -> key x = key y) ->
  find f l = Some a -> keep a = false -> find f (filter keep l) = None.
Proof.
  intros Hnd Hkey Hfind Hk.
  destruct (find f (filter keep l)) as [b|] eqn:Hb; [|reflexivity].
  exfalso. apply find_some in Hfind, Hb. destruct Hfind as [Ha Fa], Hb as [Hb Fb].
  apply filter_In in Hb. destruct Hb as [Hb Kb].
  assert (a = b) by (apply (NoDup_map_inj key l); auto). congruence.
Qed.

Lemma find_filter_none {A} (f keep : A -> bool) l :
  find f l = None -> find f (filter keep l) = None.
Proof.
  induction l as [|x l IH]; simpl; [reflexivity|].
  destruct (f x) eqn:Fx; [discriminate|].
  intros H. destruct (keep x); simpl; [rewrite Fx|]; auto.
Qed.

(** X9.  The hourly cleanup is invisible to [refresh]: at the time of
    the cleanup or any time after it, a token passes the store check of
    [refresh] on the cleaned table exactly when it passed it on the table
    before.  No expired token survives, and the line is printed exactly
    when a token was deleted. *)
Theorem cleanup_keeps_acceptable_tokens (now later : DateTime) (refreshToken : string)
    (tokens : list RefreshToken.t) :
  NoDup (map RefreshToken.token tokens) ->
  now <= later ->
  let cleaned := cleanupExpiredTokens now tokens in
  storedTokenAccepted later refreshToken (fst cleaned)
  = storedTokenAccepted later refreshToken tokens
  /\ Forall (fun t => now <= RefreshToken.expiresAt t) (fst cleaned)
  /\ (snd cleaned = [] <-> fst cleaned = tokens).
Proof.
  intros Hnd Hle cleaned. split; [|split].
  - unfold cleaned, cleanupExpiredTokens, storedTokenAccepted. cbn [fst].
    destruct (find (fun t => String.eqb (RefreshToken.token t) refreshToken) tokens)
      as [t|] eqn:Hfind.
    + destruct (RefreshToken.expiresAt t <? now) eqn:Hexp.
      * rewrite (find_filter_gone RefreshToken.token _ _ tokens t Hnd); auto.
        -- apply Z.ltb_lt in Hexp. symmetry. apply Bool.negb_false_iff.
           apply Z.ltb_lt. lia.
        -- intros x y Hx Hy. apply String.eqb_eq in Hx, Hy. congruence.
        -- now rewrite Hexp.
      * rewrite (find_filter_kept _ _ tokens t Hfind); [reflexivity|].
        now rewrite Hexp.
    + now rewrite find_filter_none.
  - apply Forall_forall. intros t Ht. unfold cleaned, cleanupExpiredTokens in Ht.
    cbn [fst] in Ht. apply filter_In in Ht. destruct Ht as [_ Ht].
    apply Bool.negb_true_iff, Z.ltb_ge in Ht. exact Ht.
  - unfold cleaned, cleanupExpiredTokens. cbn [fst snd].
    induction tokens as [|t tokens IH]; simpl; [tauto|].
    inversion Hnd as [|? ? _ Hnd']; subst. specialize (IH Hnd').
    destruct (RefreshToken.expiresAt t <? now) eqn:Hexp; simpl.
    + split; [discriminate|]. intros Heq. exfalso.
      assert (Hlen := filter_length_le
                (fun t => negb (RefreshToken.expiresAt t <? now)) tokens).
      rewrite Heq in Hlen. simpl in Hlen. lia.
    + rewrite IH. split; [now intros ->|]. now intros [= ->].
Qed.

(** ** Access rules of the meeting service *)

Lemma getById_run mid uid w :
  getById mid uid w
  = (match findMeeting (db w) mid with
     | None => Throw (AppError "Meeting not found" 404)
     | Some m =>
         if negb (existsb (linkedTo uid) (participants (includeMeeting (db w) m)))
            && negb (String.eqb (Meeting.createdByUserId m) uid)
         then Throw (AppError "Access denied" 403)
         else Ok (includeMeeting (db w) m)
     end, w).
Proof.
  unfold getById, bind, getDb. cbv beta iota.
  destruct (findMeeting (db w) mid) as [m|]; [|reflexivity].
  now destruct (negb _ && negb _).
Qed.

(** [cancel] gives up at one of its guards and leaves the world alone. *)
Lemma cancel_rejected env mid uid w :
  (forall m, findMeeting (db w) mid = Some m ->
     Meeting.createdByUserId m <> uid \/ Meeting.isCancelled m = true) ->
  exists msg code,
    cancel env mid uid w = (Throw (AppError msg code), w)
    /\ (code = 404 <-> findMeeting (db w) mid = None)
    /\ (code = 400 <->
        exists m, findMeeting (db w) mid = Some m /\ Meeting.createdByUserId m = uid)
    /\ (code = 404 \/ code = 403 \/ code = 400).
Proof.
  intros Hguard. unfold cancel, bind. rewrite getById_run.
  destruct (findMeeting (db w) mid) as [m|] eqn:Hfind.
  - specialize (Hguard m eq_refl).
    destruct (String.eqb (Meeting.createdByUserId m) uid) eqn:Hc.
    + apply String.eqb_eq in Hc. destruct Hguard as [Hne | Hcan]; [congruence|].
      rewrite andb_false_r. cbn [meeting_row includeMeeting].
      rewrite Hc, String.eqb_refl, Hcan. simpl.
      eexists _, _. split; [reflexivity|].
      split; [split; discriminate|]. split; [|auto].
      split; [eauto | reflexivity].
    + apply String.eqb_neq in Hc.
      assert (Hno : ~ exists m0, Some m = Some m0 /\ Meeting.createdByUserId m0 = uid).
      { intros [m0 [[= <-] ?]]. congruence. }
      destruct (negb (existsb _ _)); simpl.
      * eexists _, _. split; [reflexivity|].
        split; [split; discriminate|]. split; [|auto].
        split; [discriminate | intros H; now destruct Hno].
      * apply String.eqb_neq in Hc. rewrite Hc. simpl.
        eexists _, _. split; [reflexivity|].
        split; [split; discriminate|]. split; [|auto].
        split; [discriminate | intros H; now destruct Hno].
  - eexists _, _. split; [reflexivity|].
    split; [split; reflexivity|]. split; [|auto].
    split; [discriminate | intros [m [? _]]; discriminate].
Qed.

Lemma delete_rejected env mid uid w :
  (forall m, findMeeting (db w) mid = Some m -> Meeting.createdByUserId m <> uid) ->
  exists msg code,
    MeetingService.delete env mid uid w = (Throw (AppError msg code), w)
    /\ (code = 404 <-> findMeeting (db w) mid = None)
    /\ (code = 404 \/ code = 403).
Proof.
  intros Hguard. unfold MeetingService.delete, bind. rewrite getById_run.
  destruct (findMeeting (db w) mid) as [m|] eqn:Hfind.
  - specialize (Hguard m eq_refl). apply String.eqb_neq in Hguard.
    rewrite Hguard.
    destruct (negb (existsb _ _)); simpl.
    + eexists _, _. split; [reflexivity|]. split; [split; discriminate | auto].
    + rewrite Hguard. simpl.
      eexists _, _. split; [reflexivity|]. split; [split; discriminate | auto].
  - eexists _, _. split; [reflexivity|]. split; [split; reflexivity | auto].
Qed.

(** X10.  Only its creator cancels or deletes a meeting.  For anyone
    else, and for a meeting that does not exist, both [cancel] and
    [delete] throw an [AppError] with status 404 (no such meeting) or 403
    and change nothing: no row, no call, no console line. *)
Theorem only_creator_cancels_or_deletes (env : Env) (mid uid : Id) (w : World) :
  (forall m, findMeeting (db w) mid = Some m -> Meeting.createdByUserId m <> uid) ->
  (exists msg code,
     cancel env mid uid w = (Throw (AppError msg code), w)
     /\ (code = 404 <-> findMeeting (db w) mid = None)
     /\ (code = 404 \/ code = 403))
  /\ (exists msg code,
        MeetingService.delete env mid uid w = (Throw (AppError msg code), w)
        /\ (code = 404 <-> findMeeting (db w) mid = None)
        /\ (code = 404 \/ code = 403)).
Proof.
  intros Hguard. split; [|now apply delete_rejected].
  destruct (cancel_rejected env mid uid w) as (msg & code & Hrun & H404 & H400 & Hcode).
  { intros m Hm. left. now apply Hguard. }
  exists msg, code. split; [exact Hrun|]. split; [exact H404|].
  destruct Hcode as [?|[?|H]]; auto.
  apply H400 in H. destruct H as [m [Hm Hc]]. now apply Hguard in Hm.
Qed.

(** The store after a [cancel] that passed its guards. *)
Lemma cancel_store env mid uid m w :
  findMeeting (db w) mid = Some m ->
  Meeting.createdByUserId m = uid ->
  Meeting.isCancelled m = false ->
  findMeeting (db (snd (cancel env mid uid w))) mid = Some (Meeting.cancelled m).
Proof.
  intros Hfind Hcreator Hactive.
  rewrite (cancel_run env mid uid m w Hfind Hcreator Hactive).
  match goal with
  | |- context [announceCancellation env mid uid ?a ?b ?w2] =>
      pose proof (announceCancellation_keeps env w2 mid uid a b w2
                    (since_refl _ _ _ (fun l => eq_refl))) as Htail;
      destruct (announceCancellation env mid uid a b w2) as [[r|e] w3]
  end; simpl snd.
  all: unfold findMeeting; rewrite (since_meetings _ _ _ _ Htail); simpl;
       apply find_update; auto.
Qed.

(** X11.  Cancelling is final: once its creator has cancelled a meeting,
    every further [cancel] of it, by anyone and whatever the senders do,
    throws and changes nothing; the creator gets status 400, also when
    the first [cancel] threw while announcing the cancellation. *)
Theorem cancel_is_final (env env' : Env) (mid uid uid' : Id) (m : Meeting.t) (w : World) :
  findMeeting (db w) mid = Some m ->
  Meeting.createdByUserId m = uid ->
  Meeting.isCancelled m = false ->
  let w' := snd (cancel env mid uid w) in
  exists msg code,
    cancel env' mid uid' w' = (Throw (AppError msg code), w')
    /\ (uid' = uid -> msg = "Meeting is already cancelled"%string /\ code = 400)
    /\ (uid' <> uid -> code = 403).
Proof.
  intros Hfind Hcreator Hactive w'.
  pose proof (cancel_store env mid uid m w Hfind Hcreator Hactive) as Hstore.
  fold w' in Hstore.
  assert (Hc' : Meeting.createdByUserId (Meeting.cancelled m) = uid) by now destruct m.
  assert (Hx : Meeting.isCancelled (Meeting.cancelled m) = true) by now destruct m.
  destruct (String.string_dec uid' uid) as [->|Hne].
  - destruct (cancel_rejected env' mid uid w') as (msg & code & Hrun & _ & H400 & _).
    { intros m' Hm'. right. congruence. }
    exists msg, code. split; [exact Hrun|]. split; [|intros; contradiction].
    intros _. assert (Hcode : code = 400) by (apply H400; eauto).
    split; [|exact Hcode]. subst code.
    unfold cancel, bind in Hrun. rewrite getById_run, Hstore in Hrun.
    cbn [meeting_row includeMeeting] in Hrun.
    rewrite Hc', String.eqb_refl, andb_false_r in Hrun.
    cbn [negb] in Hrun. cbv iota in Hrun. rewrite ?Hx in Hrun.
    simpl in Hrun. rewrite Hcreator, String.eqb_refl in Hrun.
    simpl in Hrun. unfold throw in Hrun. congruence.
  - destruct (cancel_rejected env' mid uid' w') as (msg & code & Hrun & H404 & H400 & Hcode).
    { intros m' Hm'. left. congruence. }
    exists msg, code. split; [exact Hrun|]. split; [intros; contradiction|].
    intros _. destruct Hcode as [H|[H|H]]; [|exact H|].
    + apply H404 in H. congruence.
    + apply H400 in H. destruct H as [m' [Hm' Hcr]]. congruence.
Qed.

(** ** Deleting a meeting *)

(** [delete] by the creator: it returns, and the store is the one after
    the row deletion with the audit entry added, whatever the calendar
    call does. *)
Lemma delete_run env mid uid m w :
  findMeeting (db w) mid = Some m ->
  Meeting.createdByUserId m = uid ->
  fst (MeetingService.delete env mid uid w) = Ok tt
  /\ db (snd (MeetingService.delete env mid uid w))
     = with_auditLog (AuditLog.mk "MEETING_DELETED" "Meeting" (Some mid) (Some uid))
         (withoutMeeting mid (db w)).
Proof.
  intros Hfind Hcreator.
  unfold MeetingService.delete, bind. rewrite getById_run, Hfind.
  rewrite Hcreator, String.eqb_refl, andb_false_r.
  cbn [meeting_row includeMeeting]. rewrite Hcreator, String.eqb_refl.
  cbn [negb]. cbv iota.
  assert (Hrow : forall w1, db w1 = db w ->
            deleteMeetingRow mid w1 = (Ok tt, withDb (withoutMeeting mid) w1)).
  { intros w1 Hw1. unfold deleteMeetingRow. now rewrite Hw1, Hfind. }
  destruct (Meeting.googleCalendarEventId m) as [eventId|].
  - destruct (truthy (Some eventId)).
    + unfold tryCatch, invoke.
      destruct (callThrows env (calls w) (GoogleDeleteEvent uid eventId)).
      * unfold consoleError. rewrite Hrow by reflexivity. split; reflexivity.
      * rewrite Hrow by reflexivity. split; reflexivity.
    + change (ret tt w) with (Ok tt, w). cbv beta iota.
      rewrite Hrow by reflexivity. split; reflexivity.
  - change (ret tt w) with (Ok tt, w). cbv beta iota.
    rewrite Hrow by reflexivity. split; reflexivity.
Qed.

Lemma find_filtered_out {A} (f keep : A -> bool) l :
  (forall a, f a = true -> keep a = false) -> find f (filter keep l) = None.
Proof.
  intros H. induction l as [|a l IH]; simpl; [reflexivity|].
  destruct (keep a) eqn:K; [|exact IH]. simpl.
  destruct (f a) eqn:F; [|exact IH]. apply H in F. congruence.
Qed.

Lemma find_filter_same {A} (f keep : A -> bool) l :
  (forall a, f a = true -> keep a = true) -> find f (filter keep l) = find f l.
Proof.
  intros H. induction l as [|a l IH]; simpl; [reflexivity|].
  destruct (f a) eqn:F.
  - rewrite (H a F). simpl. now rewrite F.
  - destruct (keep a); simpl; [rewrite F|]; exact IH.
Qed.

Lemma eqb_other (a mid mid' : string) :
  mid' <> mid -> String.eqb a mid' = true -> negb (String.eqb a mid) = true.
Proof.
  intros Hne H. apply String.eqb_eq in H. subst a.
  apply Bool.negb_true_iff. now apply String.eqb_neq.
Qed.

Lemma filter_other {A} (key : A -> string) (mid mid' : string) l :
  mid' <> mid ->
  filter (fun a => String.eqb (key a) mid')
    (filter (fun a => negb (String.eqb (key a) mid)) l)
  = filter (fun a => String.eqb (key a) mid') l.
Proof.
  intros Hne. rewrite filter_filter. apply filter_ext. intros a.
  destruct (String.eqb (key a) mid') eqn:E; [|now rewrite andb_false_r].
  now rewrite (eqb_other _ mid mid' Hne E).
Qed.

Lemma unlinked_spec mid n :
  Notification.id (unlinked mid n) = Notification.id n
  /\ Notification.userId (unlinked mid n) = Notification.userId n
  /\ Notification.message (unlinked mid n) = Notification.message n
  /\ Notification.isRead (unlinked mid n) = Notification.isRead n
  /\ Notification.relatedMeetingId (unlinked mid n) <> Some mid.
Proof.
  unfold unlinked. destruct (Notification.relatedMeetingId n) as [m|] eqn:E.
  - destruct (String.eqb m mid) eqn:Em; simpl.
    + repeat split; discriminate.
    + repeat split; auto. rewrite E. intros [= ->].
      now rewrite String.eqb_refl in Em.
  - repeat split; auto. now rewrite E.
Qed.

(** X12.  [delete] by the creator returns, also when the calendar call
    fails, and removes the meeting with its participants and reminders:
    afterwards [getById] answers 404 to everyone and no selector run
    returns a reminder of the meeting.  Other meetings, their
    participants and their reminders are as before.  No notification row
    is deleted: each keeps its id, owner, text and read flag, and none
    refers to the meeting any more. *)
Theorem delete_removes_meeting (env : Env) (mid uid : Id) (m : Meeting.t) (w : World) :
  findMeeting (db w) mid = Some m ->
  Meeting.createdByUserId m = uid ->
  let r := MeetingService.delete env mid uid w in
  let w' := snd r in
  fst r = Ok tt
  /\ (forall uid', getById mid uid' w' = (Throw (AppError "Meeting not found" 404), w'))
  /\ participantsOf (db w') mid = []
  /\ remindersOf mid w' = []
  /\ (forall now x, In x (findDueReminders now (db w')) ->
        MeetingReminder.meetingId (reminder_row x) <> mid)
  /\ (forall mid', mid' <> mid ->
        findMeeting (db w') mid' = findMeeting (db w) mid'
        /\ participantsOf (db w') mid' = participantsOf (db w) mid'
        /\ remindersOf mid' w' = remindersOf mid' w)
  /\ Forall2 (fun n n' =>
                Notification.id n' = Notification.id n
                /\ Notification.userId n' = Notification.userId n
                /\ Notification.message n' = Notification.message n
                /\ Notification.isRead n' = Notification.isRead n
                /\ Notification.relatedMeetingId n' <> Some mid)
       (notifications (db w)) (notifications (db w')).
Proof.
  intros Hfind Hcreator r w'.
  destruct (delete_run env mid uid m w Hfind Hcreator) as [Hok Hdb].
  fold r in Hok. fold r w' in Hdb.
  assert (Hgone : findMeeting (db w') mid = None).
  { rewrite Hdb. unfold findMeeting. simpl. apply find_filtered_out.
    intros a ->. reflexivity. }
  split; [exact Hok|]. split; [|split; [|split; [|split; [|split]]]].
  - intros uid'. now rewrite getById_run, Hgone.
  - rewrite Hdb. unfold participantsOf. simpl. rewrite filter_filter.
    apply filter_none. intros p _. now destruct (String.eqb _ _).
  - unfold remindersOf. rewrite Hdb. simpl. rewrite filter_filter.
    apply filter_none. intros p _. now destruct (String.eqb _ _).
  - intros now x Hx. eapply cancelled_never_due; [|exact Hx].
    intros m' Hm'. congruence.
  - intros mid' Hne. unfold remindersOf. rewrite Hdb.
    unfold findMeeting, participantsOf. simpl.
    split; [|split].
    + apply find_filter_same. intros a Ha. now apply (eqb_other _ mid mid').
    + now apply (filter_other MeetingParticipant.meetingId).
    + now apply (filter_other MeetingReminder.meetingId).
  - rewrite Hdb. simpl. induction (notifications (db w)) as [|n l IH]; simpl.
    + constructor.
    + constructor; [apply unlinked_spec | exact IH].
Qed.

(** ** Responding to an invitation *)

Lemma find_present {A} (f : A -> bool) l x :
  In x l -> f x = true -> exists y, find f l = Some y /\ f y = true.
Proof.
  intros Hx Hf. destruct (find f l) as [y|] eqn:E.
  - exists y. split; [reflexivity|]. now apply find_some in E.
  - exfalso. pose proof (find_none _ _ E x Hx). congruence.
Qed.

Lemma find_existsb {A} (f : A -> bool) l x : find f l = Some x -> existsb f l = true.
Proof.
  intros H. apply find_some in H. apply existsb_exists. now exists x.
Qed.

Lemma find_absent {A} (f : A -> bool) l : find f l = None -> existsb f l = false.
Proof.
  intros H. destruct (existsb f l) eqn:E; [|reflexivity].
  apply existsb_exists in E. destruct E as [x [Hx Hf]].
  pose proof (find_none _ _ H x Hx). congruence.
Qed.

(** X13.  [respondToInvitation] on an existing meeting.  A caller with no
    participant row of the meeting gets status 403 and nothing changes.
    Otherwise the status is written to the caller's participant row and
    to no other row, no sender is called, and at most one notification
    is added, addressed to the creator and never to the caller.  The
    status write comes first and is never undone: it stays also when the
    notification insert that follows throws and the call fails; a call
    that returns gives back the caller's row with the new status. *)
Theorem respond_updates_own_row (env : Env) (mid uid : Id) (status : ParticipantStatus)
    (m : Meeting.t) (w : World) :
  findMeeting (db w) mid = Some m ->
  let r := MeetingService.respondToInvitation env mid uid status w in
  let w' := snd r in
  match find (linkedTo uid) (participants (includeMeeting (db w) m)) with
  | None => (exists msg, fst r = Throw (AppError msg 403)) /\ w' = w
  | Some p =>
      let pid := MeetingParticipant.id (participant p) in
      meetingParticipants (db w')
      = map (fun q => if String.eqb (MeetingParticipant.id q) pid
                      then MeetingService.withStatus status q else q)
            (meetingParticipants (db w))
      /\ calls w' = calls w
      /\ (exists dn,
            notifications (db w') = notifications (db w) ++ dn
            /\ (List.length dn <= 1)%nat
            /\ Forall (fun n => Notification.userId n = Meeting.createdByUserId m
                                /\ Notification.userId n <> uid
                                /\ Notification.type n = PARTICIPANT_RESPONDED) dn)
      /\ (forall res, fst r = Ok res ->
            MeetingParticipant.status res = status /\ MeetingParticipant.id res = pid)
  end.
Proof.
  intros Hfind r w'.
  assert (Hr : r = MeetingService.respondToInvitation env mid uid status w) by reflexivity.
  clearbody r. subst w'.
  unfold MeetingService.respondToInvitation, bind in Hr.
  rewrite getById_run, Hfind in Hr.
  destruct (find (linkedTo uid) (participants (includeMeeting (db w) m))) as [p|] eqn:Hp.
  - intros pid.
    assert (Hrow : exists p0,
              find (fun q => String.eqb (MeetingParticipant.id q) pid)
                   (meetingParticipants (db w)) = Some p0
              /\ MeetingParticipant.id p0 = pid).
    { apply find_some in Hp. destruct Hp as [Hin _].
      cbn [participants includeMeeting] in Hin.
      apply in_map_iff in Hin. destruct Hin as [q [<- Hq]].
      apply filter_In in Hq. destruct Hq as [Hq _].
      destruct (find_present (fun q0 => String.eqb (MeetingParticipant.id q0) pid)
                  _ q Hq) as [y [Hy Hid]].
      - unfold pid. simpl. apply String.eqb_refl.
      - exists y. split; [exact Hy|]. now apply String.eqb_eq in Hid. }
    destruct Hrow as [p0 [Hrow Hid]].
    rewrite (find_existsb _ _ _ Hp) in Hr. cbn [negb andb] in Hr. cbv iota in Hr.
    rewrite Hp in Hr. unfold MeetingService.updateParticipantStatus in Hr.
    fold pid in Hr. rewrite Hrow in Hr. unfold getDb in Hr. cbv beta iota in Hr.
    cbn [meeting_row includeMeeting] in Hr.
    set (w1 := withDb _ w) in Hr.
    change (findUser (db w1) uid) with (findUser (db w) uid) in Hr.
    assert (Hquiet :
              let rr : Outcome MeetingParticipant.t * World :=
                (Ok (MeetingService.withStatus status p0),
                 withDb (with_auditLog
                           (AuditLog.mk "PARTICIPANT_RESPONDED" "MeetingParticipant"
                              (Some pid) (Some uid))) w1) in
              meetingParticipants (db (snd rr))
              = map (fun q => if String.eqb (MeetingParticipant.id q) pid
                              then MeetingService.withStatus status q else q)
                    (meetingParticipants (db w))
              /\ calls (snd rr) = calls w
              /\ (exists dn,
                    notifications (db (snd rr)) = notifications (db w) ++ dn
                    /\ (List.length dn <= 1)%nat
                    /\ Forall (fun n => Notification.userId n = Meeting.createdByUserId m
                                        /\ Notification.userId n <> uid
                                        /\ Notification.type n = PARTICIPANT_RESPONDED) dn)
              /\ (forall res, fst rr = Ok res ->
                    MeetingParticipant.status res = status
                    /\ MeetingParticipant.id res = pid)).
    { intros rr. unfold rr. cbn [fst snd]. split; [reflexivity|]. split; [reflexivity|].
      split; [exists []; rewrite app_nil_r; repeat split; auto|].
      now intros res [= <-]. }
    destruct (findUser (db w) uid) as [u|]; [|rewrite Hr; exact Hquiet].
    destruct (String.eqb (Meeting.createdByUserId m) uid) eqn:Hc;
      cbn [negb] in Hr; cbv iota in Hr; [rewrite Hr; exact Hquiet|].
    apply String.eqb_neq in Hc.
    unfold createParticipantResponse, bind in Hr. rewrite create_run in Hr.
    destruct (enabled UserSettings.inAppNotificationsEnabled
                (findSettings (db w1) (Meeting.createdByUserId m))).
    + unfold notificationCreate in Hr.
      destruct (notificationCreateThrows env (calls w1) _) as [e|] eqn:Hthrow.
      * rewrite Hr. cbn [fst snd]. split; [reflexivity|]. split; [reflexivity|].
        split; [exists []; rewrite app_nil_r; repeat split; auto|].
        discriminate.
      * rewrite Hr. cbn [fst snd]. split; [reflexivity|]. split; [reflexivity|].
        split.
        { eexists [_]. split; [reflexivity|]. split; [simpl; lia|].
          repeat constructor; simpl; auto. }
        now intros res [= <-].
    + rewrite Hr. exact Hquiet.
  - rewrite (find_absent _ _ Hp) in Hr. cbn [negb andb] in Hr.
    destruct (String.eqb (Meeting.createdByUserId m) uid); cbn [negb] in Hr; cbv iota in Hr.
    + rewrite Hp in Hr. rewrite Hr. split; [eexists; reflexivity | reflexivity].
    + rewrite Hr. split; [eexists; reflexivity | reflexivity].
Qed.

(** ** Settings *)

Lemma find_app_last {A} (f : A -> bool) l d :
  find f (l ++ [d])
  = match find f l with
    | Some x => Some x
    | None => if f d then Some d else None
    end.
Proof.
  induction l as [|a l IH]; simpl; [reflexivity|]. now destruct (f a).
Qed.

Lemma find_map_key {A} (key : A -> string) (k : string) (g : A -> A) l :
  (forall x, key (g x) = key x) ->
  forall k',
    find (fun x => String.eqb (key x) k')
      (map (fun x => if String.eqb (key x) k then g x else x) l)
    = if String.eqb k' k
      then option_map g (find (fun x => String.eqb (key x) k) l)
      else find (fun x => String.eqb (key x) k') l.
Proof.
  intros Hkey k'. induction l as [|a l IH]; simpl.
  - now destruct (String.eqb k' k).
  - destruct (String.eqb (key a) k) eqn:Ea.
    + rewrite Hkey. apply String.eqb_eq in Ea.
      destruct (String.eqb k' k) eqn:Ek.
      * apply String.eqb_eq in Ek. subst k'. rewrite Ea, String.eqb_refl.
        reflexivity.
      * rewrite Ea. rewrite String.eqb_sym, Ek. rewrite IH. reflexivity.
    + destruct (String.eqb k' k) eqn:Ek.
      * apply String.eqb_eq in Ek. subst k'. rewrite Ea. exact IH.
      * destruct (String.eqb (key a) k'); [reflexivity | exact IH].
Qed.

(** [get] on a known user: the settings it returns are then on record,
    and they are the row that was there or the all-enabled defaults. *)
Lemma get_run uid u w :
  findUser (db w) uid = Some u ->
  exists st,
    SettingsService.get uid w
    = (Ok (u, st),
       match findSettings (db w) uid with
       | Some _ => w
       | None => withDb (with_userSettings
                           (fun l => l ++ [SettingsService.defaults uid]) 1) w
       end)
    /\ findSettings (db (snd (SettingsService.get uid w))) uid = Some st
    /\ st = match findSettings (db w) uid with
            | Some st0 => st0
            | None => SettingsService.defaults uid
            end.
Proof.
  intros Hu. unfold SettingsService.get, bind, getDb. cbv beta iota. rewrite Hu.
  destruct (findSettings (db w) uid) as [st0|] eqn:Hs.
  - exists st0. split; [reflexivity|]. split; [exact Hs | reflexivity].
  - exists (SettingsService.defaults uid). split; [reflexivity|].
    split; [|reflexivity].
    unfold findSettings in *. simpl. rewrite find_app_last, Hs.
    simpl. now rewrite String.eqb_refl.
Qed.

Lemma get_flags uid w flag :
  flag (SettingsService.defaults uid) = true ->
  forall uid',
    enabled flag (findSettings (db (snd (SettingsService.get uid w))) uid')
    = enabled flag (findSettings (db w) uid').
Proof.
  intros Hflag uid'. unfold SettingsService.get, bind, getDb. cbv beta iota.
  destruct (findUser (db w) uid) as [u|]; [|reflexivity].
  destruct (findSettings (db w) uid) as [st0|] eqn:Hs; [reflexivity|].
  unfold findSettings in *. simpl. rewrite find_app_last.
  destruct (find (fun x => String.eqb (UserSettings.userId x) uid') (userSettings (db w)))
    as [x|] eqn:Hx; [reflexivity|].
  simpl. destruct (String.eqb uid uid'); [exact Hflag | reflexivity].
Qed.

(** X14.  [SettingsService.get] throws 404 for an unknown user and
    changes nothing.  For a known user it returns the settings on
    record, creating the all-enabled row when there is none; a second
    [get] returns the same and writes nothing.  In no case does it change
    which channels are enabled for any user, as the dispatch reads them:
    a missing row and the row [get] creates mean the same. *)
Theorem get_settings_keeps_channels (uid : Id) (w : World) :
  let r := SettingsService.get uid w in
  (findUser (db w) uid = None -> r = (Throw (AppError "User not found" 404), w))
  /\ (forall u, findUser (db w) uid = Some u ->
        exists st,
          fst r = Ok (u, st)
          /\ findSettings (db (snd r)) uid = Some st
          /\ (forall st0, findSettings (db w) uid = Some st0 -> st = st0 /\ snd r = w)
          /\ (findSettings (db w) uid = None -> st = UserSettings.mk uid true true true)
          /\ SettingsService.get uid (snd r) = (Ok (u, st), snd r))
  /\ (forall uid',
        enabled UserSettings.emailNotificationsEnabled (findSettings (db (snd r)) uid')
        = enabled UserSettings.emailNotificationsEnabled (findSettings (db w) uid')
        /\ enabled UserSettings.pushNotificationsEnabled (findSettings (db (snd r)) uid')
           = enabled UserSettings.pushNotificationsEnabled (findSettings (db w) uid')
        /\ enabled UserSettings.inAppNotificationsEnabled (findSettings (db (snd r)) uid')
           = enabled UserSettings.inAppNotificationsEnabled (findSettings (db w) uid')).
Proof.
  intros r. split; [|split].
  - intros Hu. unfold r, SettingsService.get, bind, getDb. cbv beta iota.
    now rewrite Hu.
  - intros u Hu. destruct (get_run uid u w Hu) as (st & Hrun & Hst & Hwhich).
    fold r in Hrun, Hst. exists st.
    split; [now rewrite Hrun|]. split; [exact Hst|].
    split; [|split].
    + intros st0 Hs0. rewrite Hs0 in Hwhich, Hrun. split; [exact Hwhich|].
      now rewrite Hrun.
    + intros Hnone. now rewrite Hnone in Hwhich.
    + assert (Hu' : findUser (db (snd r)) uid = Some u).
      { rewrite Hrun. cbn [snd]. now destruct (findSettings (db w) uid). }
      destruct (get_run uid u (snd r) Hu') as (st' & Hrun' & _ & Hwhich').
      rewrite Hst in Hrun', Hwhich'. now subst st'.
  - intros uid'. split; [|split]; now apply get_flags.
Qed.

Lemma findSettings_defaults_other uid uid' (s : Store) :
  uid' <> uid ->
  findSettings (with_userSettings (fun l => l ++ [SettingsService.defaults uid]) 1 s) uid'
  = findSettings s uid'.
Proof.
  intros Hne. unfold findSettings. simpl. rewrite find_app_last.
  destruct (find _ (userSettings s)); [reflexivity|].
  simpl. destruct (String.eqb uid uid') eqn:E; [|reflexivity].
  apply String.eqb_eq in E. congruence.
Qed.

(** A tick makes no push call for a user whose row has push disabled. *)
Lemma tick_respects_push_flag env uid s w :
  findSettings (db w) uid = Some s ->
  UserSettings.pushNotificationsEnabled s = false ->
  pushesTo uid (newCalls w (snd (processReminders env w))) = 0%nat.
Proof.
  intros Hs Hoff.
  pose proof (keeps_processReminders env (fun c => isPushTo uid c = false) w
                (fun _ _ => eq_refl) (push_respected uid s w Hs Hoff)
                (fun _ _ _ => eq_refl) w (since_refl _ _ _ evolves_refl)) as H.
  destruct (processReminders env w) as [[[]|e] w']; [|contradiction].
  simpl. apply pushesTo_none. exact (since_new _ _ _ _ H).
Qed.

(** The settings table after [update] on a known user. *)
Lemma update_run uid input u w :
  findUser (db w) uid = Some u ->
  exists u' st w',
    SettingsService.update uid input w = (Ok (u', st), w')
    /\ findSettings (db w') uid = Some st
    /\ User.id u' = User.id u /\ User.email u' = User.email u
    /\ st = SettingsService.applyFlags input
              (match findSettings (db w) uid with
               | Some st0 => st0
               | None => SettingsService.defaults uid
               end)
    /\ (forall uid', uid' <> uid -> findSettings (db w') uid' = findSettings (db w) uid')
    /\ calls w' = calls w.
Proof.
  intros Hu.
  destruct (get_run uid u w Hu) as (st0 & Hrun & Hst0 & Hwhich).
  rewrite Hrun in Hst0. cbn [snd] in Hst0.
  unfold SettingsService.update, bind. rewrite Hrun.
  set (w1 := match findSettings (db w) uid with Some _ => w | None => _ end) in *.
  assert (Hu1 : findUser (db w1) uid = Some u).
  { unfold w1. now destruct (findSettings (db w) uid). }
  assert (Ho1 : forall uid', uid' <> uid ->
                  findSettings (db w1) uid' = findSettings (db w) uid').
  { intros uid' Hne. unfold w1. destruct (findSettings (db w) uid); [reflexivity|].
    now apply findSettings_defaults_other. }
  assert (Hc1 : calls w1 = calls w).
  { unfold w1. now destruct (findSettings (db w) uid). }
  rewrite <- Hwhich. clear Hwhich Hrun.
  (* the user row *)
  assert (Hstep2 : exists u2 w2,
            (if truthy (usi_name input) || truthy (usi_timezone input)
             then SettingsService.updateUserRow uid input else ret tt) w1 = (Ok tt, w2)
            /\ findUser (db w2) uid = Some u2
            /\ User.id u2 = User.id u /\ User.email u2 = User.email u
            /\ userSettings (db w2) = userSettings (db w1)
            /\ calls w2 = calls w1).
  { destruct (truthy (usi_name input) || truthy (usi_timezone input)).
    - unfold SettingsService.updateUserRow. rewrite Hu1.
      eexists _, _. split; [reflexivity|].
      split.
      { unfold findUser in *. cbn [db withDb users with_users].
        rewrite (find_map_key User.id uid
                   (fun u0 => User.mk (User.id u0) (User.email u0)
                                (SettingsService.orKeep (usi_name input) (User.name u0))))
          by reflexivity.
        rewrite String.eqb_refl, Hu1. reflexivity. }
      repeat split; reflexivity.
    - exists u, w1. repeat split; auto. }
  destruct Hstep2 as (u2 & w2 & Run2 & Hu2 & Hid2 & Hem2 & Hs2 & Hc2).
  rewrite Run2.
  assert (Hst2 : findSettings (db w2) uid = Some st0).
  { unfold findSettings in *. now rewrite Hs2. }
  (* the settings row *)
  assert (Hstep3 : exists w3,
            (if SettingsService.given (usi_emailNotificationsEnabled input)
                || SettingsService.given (usi_pushNotificationsEnabled input)
                || SettingsService.given (usi_inAppNotificationsEnabled input)
                || truthy (usi_themePreference input)
             then SettingsService.updateSettingsRow uid input else ret tt) w2 = (Ok tt, w3)
            /\ findSettings (db w3) uid = Some (SettingsService.applyFlags input st0)
            /\ (forall uid', uid' <> uid ->
                  findSettings (db w3) uid' = findSettings (db w2) uid')
            /\ users (db w3) = users (db w2)
            /\ calls w3 = calls w2).
  { destruct (SettingsService.given (usi_emailNotificationsEnabled input)
              || SettingsService.given (usi_pushNotificationsEnabled input)
              || SettingsService.given (usi_inAppNotificationsEnabled input)
              || truthy (usi_themePreference input)) eqn:Hany.
    - unfold SettingsService.updateSettingsRow. rewrite Hst2.
      eexists. split; [reflexivity|].
      split; [|split; [|split; reflexivity]].
      + unfold findSettings in *. cbn [db withDb userSettings with_userSettings].
        rewrite (find_map_key UserSettings.userId uid (SettingsService.applyFlags input))
          by reflexivity.
        now rewrite String.eqb_refl, Hst2.
      + intros uid' Hne. unfold findSettings. cbn [db withDb userSettings with_userSettings].
        rewrite (find_map_key UserSettings.userId uid (SettingsService.applyFlags input))
          by reflexivity.
        apply String.eqb_neq in Hne. now rewrite Hne.
    - exists w2. split; [reflexivity|].
      split; [|split; [|split; reflexivity]]; [|auto].
      rewrite Hst2. f_equal.
      apply Bool.orb_false_iff in Hany. destruct Hany as [Hany _].
      apply Bool.orb_false_iff in Hany. destruct Hany as [Hany H3].
      apply Bool.orb_false_iff in Hany. destruct Hany as [H1 H2].
      unfold SettingsService.applyFlags.
      destruct (usi_emailNotificationsEnabled input); [discriminate|].
      destruct (usi_pushNotificationsEnabled input); [discriminate|].
      destruct (usi_inAppNotificationsEnabled input); [discriminate|].
      now destruct st0. }
  destruct Hstep3 as (w3 & Run3 & Hst3 & Ho3 & Hus3 & Hc3).
  rewrite Run3. unfold createAuditLog, modifyDb. cbv beta iota.
  set (w4 := withDb _ w3).
  assert (Hu4 : findUser (db w4) uid = Some u2).
  { unfold findUser in *. cbn [w4 db withDb users with_auditLog]. now rewrite Hus3. }
  destruct (get_run uid u2 w4 Hu4) as (st4 & Run4 & _ & Hwhich4).
  assert (Hst4 : findSettings (db w4) uid = Some (SettingsService.applyFlags input st0))
    by exact Hst3.
  rewrite Hst4 in Run4, Hwhich4. rewrite Run4. subst st4.
  exists u2, (SettingsService.applyFlags input st0), w4.
  split; [reflexivity|]. split; [exact Hst4|].
  split; [exact Hid2|]. split; [exact Hem2|]. split; [reflexivity|].
  split.
  - intros uid' Hne. change (findSettings (db w4) uid') with (findSettings (db w3) uid').
    rewrite (Ho3 uid' Hne). unfold findSettings at 1. rewrite Hs2.
    exact (Ho1 uid' Hne).
  - change (calls w4) with (calls w3). congruence.
Qed.

(** X15.  [SettingsService.update] on a known user returns the settings
    then on record: each of the three channel flags is the value given in
    the input, or, when the input leaves it out, what the flag was before
    (enabled when the user had no row).  Other users' settings are
    untouched and no sender is called.  A push opt-out takes effect at
    once: the next tick makes no push call for the user. *)
Theorem update_sets_given_flags (env : Env) (uid : Id) (input : UpdateSettingsInput)
    (u : User.t) (w : World) :
  findUser (db w) uid = Some u ->
  let r := SettingsService.update uid input w in
  let w' := snd r in
  let before := findSettings (db w) uid in
  (exists u' st,
     fst r = Ok (u', st)
     /\ findSettings (db w') uid = Some st
     /\ User.id u' = User.id u /\ User.email u' = User.email u
     /\ UserSettings.emailNotificationsEnabled st
        = match usi_emailNotificationsEnabled input with
          | Some b => b
          | None => enabled UserSettings.emailNotificationsEnabled before
          end
     /\ UserSettings.pushNotificationsEnabled st
        = match usi_pushNotificationsEnabled input with
          | Some b => b
          | None => enabled UserSettings.pushNotificationsEnabled before
          end
     /\ UserSettings.inAppNotificationsEnabled st
        = match usi_inAppNotificationsEnabled input with
          | Some b => b
          | None => enabled UserSettings.inAppNotificationsEnabled before
          end)
  /\ (forall uid', uid' <> uid -> findSettings (db w') uid' = findSettings (db w) uid')
  /\ calls w' = calls w
  /\ (usi_pushNotificationsEnabled input = Some false ->
      pushesTo uid (newCalls w' (snd (processReminders env w'))) = 0%nat).
Proof.
  intros Hu r w' before.
  destruct (update_run uid input u w Hu)
    as (u' & st & w1 & Run & Hst & Hid & Hem & Hflags & Hother & Hcalls).
  unfold w', r. rewrite Run. cbn [fst snd].
  split; [|split; [exact Hother | split; [exact Hcalls|]]].
  - exists u', st. split; [reflexivity|]. split; [exact Hst|].
    split; [exact Hid|]. split; [exact Hem|].
    subst st. unfold before.
    destruct (findSettings (db w) uid) as [st0|]; simpl;
      (split; [|split]);
      match goal with |- _ = match ?o with _ => _ end => now destruct o end.
  - intros Hoff. apply (tick_respects_push_flag env uid st w1 Hst).
    subst st. simpl. now rewrite Hoff.
Qed.

(** ** Reminders that are already sent *)

(** The selector never returns a reminder that is marked. *)
Lemma marked_not_due rid w now y :
  marked rid w -> In y (findDueReminders now (db w)) ->
  MeetingReminder.id (reminder_row y) <> rid.
Proof.
  intros [_ Hall] Hy Hid.
  destruct (selected_is_due _ _ _ Hy) as (Hin & _ & _ & Hdue).
  apply dueWith_spec in Hdue. destruct Hdue as (_ & Hpending & _).
  destruct (Hall _ Hin Hid) as [Hsent _]. contradiction.
Qed.

(** ** What a tick does to the reminder table *)

(** X17.  A tick changes the reminder table only by marking reminders it
    selected: every row is afterwards the row it was, or, if the selector
    returned it, that row marked sent; no row is added, removed,
    rescheduled or unmarked.  Users, settings, meetings and participants
    are untouched, and a tick with nothing due changes nothing at all. *)
Theorem tick_only_marks_selected (env : Env) (w : World) :
  let batch := findDueReminders (dateNow env (calls w)) (db w) in
  let w' := snd (processReminders env w) in
  Forall2 (markedIfIn (map (fun x => MeetingReminder.id (reminder_row x)) batch))
    (meetingReminders (db w)) (meetingReminders (db w'))
  /\ users (db w') = users (db w)
  /\ userSettings (db w') = userSettings (db w)
  /\ meetings (db w') = meetings (db w)
  /\ meetingParticipants (db w') = meetingParticipants (db w)
  /\ (batch = [] -> w' = w).
Proof.
  intros batch w'.
  assert (Hs : since anyCall
                 (Forall2 (markedIfIn (map (fun x => MeetingReminder.id (reminder_row x)) batch)))
                 w w').
  { unfold w'. rewrite processReminders_unfold. cbv zeta. fold batch. unfold bind.
    pose proof (processBatch_rows env
                  (map (fun x => MeetingReminder.id (reminder_row x)) batch) batch w) as H.
    pose proof (processBatch_spec env batch w) as Hok.
    destruct (processBatch env batch w) as [[[]|e] w1]; [|contradiction].
    cbn [snd] in H.
    assert (H1 : since anyCall
                   (Forall2 (markedIfIn (map (fun x => MeetingReminder.id (reminder_row x))
                                           batch))) w w1).
    { apply H. intros x Hx.
      apply (in_map (fun x => MeetingReminder.id (reminder_row x))) in Hx. exact Hx. }
    destruct (0 <? List.length batch)%nat; cbn [snd]; [|exact H1].
    unfold consoleLog. cbn [snd]. now apply since_logged. }
  split; [exact (since_reminders _ _ _ _ Hs)|].
  split; [exact (since_users _ _ _ _ Hs)|].
  split; [exact (since_settings _ _ _ _ Hs)|].
  split; [exact (since_meetings _ _ _ _ Hs)|].
  split; [exact (since_participants _ _ _ _ Hs)|].
  intros Hnone. unfold w'. rewrite processReminders_unfold. cbv zeta. fold batch.
  rewrite Hnone. destruct w. reflexivity.
Qed.

(** X16.  A reminder that is fully sent is out of the reach of the
    dispatch loop.  No selector run, at whatever time, returns it; so a
    tick that starts from a store in which the reminder is fully sent
    does not have it in its batch, leaves its row exactly as it is, and
    ends with the reminder still fully sent and still never selected.
    Nothing is said here about a firing that starts while an earlier one
    has not yet written the update. *)
Theorem sent_reminder_not_selected_again (env : Env) (w : World) (rid : Id) :
  marked rid w ->
  let w' := snd (processReminders env w) in
  (forall now y, In y (findDueReminders now (db w)) ->
     MeetingReminder.id (reminder_row y) <> rid)
  /\ (forall r, In r (meetingReminders (db w)) -> MeetingReminder.id r = rid ->
        In r (meetingReminders (db w')))
  /\ marked rid w'
  /\ (forall now y, In y (findDueReminders now (db w')) ->
        MeetingReminder.id (reminder_row y) <> rid).
Proof.
  intros Hm w'.
  assert (Hm' : marked rid w').
  { unfold w'. pose proof (processReminders_spec env w) as H.
    destruct (processReminders env w) as [[[]|e] w1]; [|contradiction].
    destruct H as [Hs _]. cbn [snd]. eapply marked_stable; eauto. }
  split; [intros now y; now apply marked_not_due|].
  split; [|split; [exact Hm' | intros now y; now apply marked_not_due]].
  intros r Hr Hid.
  set (batch := findDueReminders (dateNow env (calls w)) (db w)).
  assert (Hs : since anyCall
                 (Forall2 (markedIfIn (map (fun x => MeetingReminder.id (reminder_row x)) batch)))
                 w (snd (processBatch env batch w))).
  { apply processBatch_rows. intros x Hx.
    apply (in_map (fun x => MeetingReminder.id (reminder_row x))) in Hx. exact Hx. }
  assert (Hdb : meetingReminders (db w') = meetingReminders (db (snd (processBatch env batch w)))).
  { unfold w'. rewrite processReminders_unfold. cbv zeta. fold batch. unfold bind.
    pose proof (processBatch_spec env batch w) as Hok.
    destruct (processBatch env batch w) as [[[]|e] w1]; [|contradiction].
    now destruct (0 <? List.length batch)%nat. }
  rewrite Hdb.
  apply (markedIfIn_kept _ _ _ r (since_reminders _ _ _ _ Hs) Hr).
  intros Hin. apply in_map_iff in Hin. destruct Hin as (y & Hy & Hbatch).
  apply (marked_not_due rid w _ y Hm Hbatch). congruence.
Qed.

(** ** When a regenerated reminder is due *)

Lemma newReminders_row env at_ mid start leadTimes : forall n r,
  In r (newReminders env at_ n
          (map (fun minutes =>
                  {| ri_meetingId := mid; ri_minutesBefore := minutes;
                     ri_scheduledFor := start - minutes * 60 * 1000 |}) leadTimes)) ->
  In (MeetingReminder.minutesBefore r) leadTimes
  /\ MeetingReminder.scheduledFor r = start - MeetingReminder.minutesBefore r * 60 * 1000
  /\ MeetingReminder.sentAt r = None.
Proof.
  induction leadTimes as [|lt rest IH]; intros n r; simpl; [tauto|].
  intros [<- | H]; simpl; [auto|].
  destruct (IH _ _ H) as (? & ? & ?). auto.
Qed.

Lemma newReminders_each env at_ mid start leadTimes lt : forall n,
  In lt leadTimes ->
  exists r,
    In r (newReminders env at_ n
            (map (fun minutes =>
                    {| ri_meetingId := mid; ri_minutesBefore := minutes;
                       ri_scheduledFor := start - minutes * 60 * 1000 |}) leadTimes))
    /\ MeetingReminder.minutesBefore r = lt.
Proof.
  induction leadTimes as [|a rest IH]; intros n; simpl; [tauto|].
  intros [-> | H].
  - eexists. split; [left; reflexivity | reflexivity].
  - destruct (IH (S n) H) as (r & Hr & Hlt). exists r. auto.
Qed.

Lemma regenerate_rows env mid start leadTimes w :
  remindersOf mid (snd (regenerate env mid start leadTimes w))
  = newReminders env (dateNow env (calls w)) (rowsCreated (db w) + 0)
      (map (fun minutes =>
              {| ri_meetingId := mid; ri_minutesBefore := minutes;
                 ri_scheduledFor := start - minutes * 60 * 1000 |})
           leadTimes).
Proof.
  destruct (regenerate_table env mid start leadTimes w) as [_ Htab].
  unfold remindersOf. rewrite Htab.
  rewrite filter_app, (filter_all _ (newReminders _ _ _ _)).
  - unfold remindersNotOf. rewrite filter_filter, filter_none; auto.
    intros r _. now destruct (String.eqb _ _).
  - intros r Hr. now rewrite (newReminders_meeting _ _ _ _ _ _ _ Hr), String.eqb_refl.
Qed.

(** X18.  After the reminders of a meeting are regenerated from its
    start time, the meeting has a reminder for every configured lead time
    and for no other.  Such a reminder, with lead time L, meets the
    [where] clause of the selector exactly when the meeting is not
    cancelled and the time is in the window from one minute before
    [start - L minutes] up to, but not including, the start.  So the
    selector returns it only in that window; and in that window it does
    return it provided no more than 100 reminders are due, the batch
    being cut at 100. *)
Theorem regenerated_reminder_due_window (env : Env) (mid : Id) (m : Meeting.t)
    (leadTimes : list Z) (w : World) :
  findMeeting (db w) mid = Some m ->
  let w' := snd (regenerate env mid (Meeting.startTime m) leadTimes w) in
  (forall lt, In lt leadTimes ->
     exists r, In r (remindersOf mid w') /\ MeetingReminder.minutesBefore r = lt)
  /\ (forall r, In r (remindersOf mid w') ->
        In (MeetingReminder.minutesBefore r) leadTimes
        /\ forall now,
             isDue now (db w') r = true <->
             Meeting.isCancelled m = false
             /\ inDueWindow (Meeting.startTime m) (MeetingReminder.minutesBefore r) now)
  /\ (forall now x,
        In x (findDueReminders now (db w')) ->
        MeetingReminder.meetingId (reminder_row x) = mid ->
        In (MeetingReminder.minutesBefore (reminder_row x)) leadTimes
        /\ Meeting.isCancelled m = false
        /\ inDueWindow (Meeting.startTime m)
             (MeetingReminder.minutesBefore (reminder_row x)) now)
  /\ (forall now r,
        In r (remindersOf mid w') ->
        Meeting.isCancelled m = false ->
        inDueWindow (Meeting.startTime m) (MeetingReminder.minutesBefore r) now ->
        (List.length (filter (isDue now (db w')) (meetingReminders (db w'))) <= 100)%nat ->
        In r (map reminder_row (findDueReminders now (db w')))).
Proof.
  intros Hfind w'.
  pose proof (regenerate_rows env mid (Meeting.startTime m) leadTimes w) as Hrows.
  fold w' in Hrows.
  assert (Hwhere : forall r, In r (remindersOf mid w') ->
            In (MeetingReminder.minutesBefore r) leadTimes
            /\ forall now,
                 isDue now (db w') r = true <->
                 Meeting.isCancelled m = false
                 /\ inDueWindow (Meeting.startTime m) (MeetingReminder.minutesBefore r) now).
  { intros r Hr.
    assert (Hmid : MeetingReminder.meetingId r = mid).
    { unfold remindersOf in Hr. apply filter_In in Hr. destruct Hr as [_ Hr].
      now apply String.eqb_eq in Hr. }
    rewrite Hrows in Hr. apply newReminders_row in Hr.
    destruct Hr as (Hin & Hsched & Hpending).
    split; [exact Hin|]. intros now.
    assert (Hm : findMeeting (db w') (MeetingReminder.meetingId r) = Some m).
    { rewrite Hmid. exact Hfind. }
    rewrite isDue_spec. unfold inDueWindow. split.
    + intros (m' & Hm' & Hdue). rewrite Hm in Hm'. injection Hm' as <-.
      apply dueWith_spec in Hdue. destruct Hdue as (Hs & _ & Hc & Hn).
      rewrite Hsched in Hs. split; [exact Hc|]. lia.
    + intros (Hc & Hlo & Hhi). exists m. split; [exact Hm|].
      apply dueWith_spec. rewrite Hsched. repeat split; auto. lia. }
  split; [|split; [exact Hwhere | split]].
  - intros lt Hlt. rewrite Hrows. now apply newReminders_each.
  - intros now x Hx Hmid.
    destruct (selected_is_due _ _ _ Hx) as (Hin & Hm & _ & Hdue).
    assert (Hr : In (reminder_row x) (remindersOf mid w')).
    { unfold remindersOf. apply filter_In. split; [exact Hin|].
      rewrite Hmid. apply String.eqb_refl. }
    destruct (Hwhere _ Hr) as [Hlt Hiff]. split; [exact Hlt|].
    apply Hiff. apply isDue_spec. eauto.
  - intros now r Hr Hc Hwin Hlen.
    rewrite selected_rows. unfold batchSize. rewrite firstn_all2 by exact Hlen.
    apply filter_In. split.
    + unfold remindersOf in Hr. apply filter_In in Hr. tauto.
    + apply (Hwhere _ Hr). auto.
Qed.

(** ** A participant who opted out of in-app notifications *)

(** X19.  For a participant whose account has the in-app channel
    disabled, dispatching one reminder always returns, inserts no
    notification row, and calls each sender at most once: the email
    sender once for the user's address when email is enabled, the push
    sender once for the user when push is enabled, and nothing else. *)
Theorem inapp_disabled_served_once (env : Env) (r : MeetingReminder.t)
    (mtg : MeetingWithParticipants) (p : ParticipantWithUser) (u : User.t) (w : World) :
  truthy (MeetingParticipant.userId (participant p)) = true ->
  user p = Some u ->
  createdBy mtg <> None ->
  enabled UserSettings.inAppNotificationsEnabled (findSettings (db w) (User.id u)) = false ->
  let st := findSettings (db w) (User.id u) in
  let w' := snd (processParticipant env r mtg p w) in
  fst (processParticipant env r mtg p w) = Ok tt
  /\ newNotifications w w' = []
  /\ emailsTo (User.email u) (newCalls w w')
     = (if enabled UserSettings.emailNotificationsEnabled st then 1 else 0)%nat
  /\ pushesTo (User.id u) (newCalls w w')
     = (if enabled UserSettings.pushNotificationsEnabled st then 1 else 0)%nat
  /\ List.length (newCalls w w')
     = ((if enabled UserSettings.emailNotificationsEnabled st then 1 else 0)
        + (if enabled UserSettings.pushNotificationsEnabled st then 1 else 0))%nat.
Proof.
  intros Ht Hu Hcb Hoff st w'.
  destruct (emailStep_effect env (enabled UserSettings.emailNotificationsEnabled st) u mtg
              (MeetingReminder.minutesBefore r) w)
    as (w2 & dcB & dlB & RunB & HgB & _ & HonB & HoffB).
  destruct (pushStep_effect env (enabled UserSettings.pushNotificationsEnabled st)
              (SendToUser (User.id u)
                 (reminderPush (meeting_row mtg) (MeetingReminder.minutesBefore r)))
              (pushFailed (User.id u)) w2)
    as (w3 & dcC & dlC & RunC & HgC & HonC & HoffC).
  assert (Hrun : processParticipant env r mtg p w = (Ok tt, w3)).
  { rewrite (processParticipant_run env r mtg p u w Ht Hu). cbv zeta.
    rewrite Hoff. rewrite bind_ret. fold st.
    unfold bind at 1. rewrite RunB. exact RunC. }
  unfold w'. rewrite Hrun. cbn [fst snd].
  destruct (grew_new _ _ _ _ _ (grew_trans _ _ _ _ _ _ _ _ _ HgB HgC)) as (Hc & _ & Hn).
  rewrite Hc, Hn. split; [reflexivity|]. split; [reflexivity|].
  rewrite emailsTo_app, pushesTo_app, length_app.
  destruct (enabled UserSettings.emailNotificationsEnabled st).
  - destruct (HonB eq_refl Hcb) as (d & r0 & ->).
    destruct (enabled UserSettings.pushNotificationsEnabled st).
    + destruct (HonC eq_refl) as (r1 & ->).
      rewrite emailsTo_reminder, pushesTo_push. repeat split.
    + rewrite (HoffC eq_refl), emailsTo_reminder. repeat split.
  - rewrite (HoffB eq_refl).
    destruct (enabled UserSettings.pushNotificationsEnabled st).
    + destruct (HonC eq_refl) as (r1 & ->). rewrite pushesTo_push. repeat split.
    + rewrite (HoffC eq_refl). repeat split.
Qed.

(** ** The properties on the sample deployment *)

Lemma markAsRead_checks_owner_witness :
  NoDup (map Notification.id (notifications Fixture.inbox))
  /\ NotificationService.getUnreadCount "u-bob"%string
       (snd (NotificationService.markAsRead "n-1"%string "u-alice"%string Fixture.inbox))
     = NotificationService.getUnreadCount "u-bob"%string Fixture.inbox.
Proof.
  assert (Hnd : NoDup (map Notification.id (notifications Fixture.inbox))).
  { simpl. repeat constructor; simpl; intuition discriminate. }
  split; [exact Hnd|].
  destruct (markAsRead_checks_owner "n-1"%string "u-alice"%string Fixture.inbox Hnd)
    as [(Hfail & _) | (n & _ & _ & _ & _ & _ & _ & Hothers)].
  - vm_compute in Hfail. discriminate.
  - apply Hothers. discriminate.
Defined.

Lemma notices_serve_each_channel_witness :
  findUser (db Sample.world) (User.id Sample.alice) = Some Sample.alice
  /\ creatorKnown (db Sample.world) "m-1"%string
  /\ inAppReliable Sample.calm "m-1"%string
  /\ eachChannelOnce Sample.alice Sample.world
       (createMeetingInvitation Sample.calm (User.id Sample.alice) "m-1"%string
          "Standup"%string "Bob"%string Sample.world).
Proof.
  assert (H1 : findUser (db Sample.world) (User.id Sample.alice) = Some Sample.alice)
    by reflexivity.
  assert (H2 : creatorKnown (db Sample.world) "m-1"%string).
  { intros m Hm. vm_compute in Hm. injection Hm as <-. vm_compute. discriminate. }
  assert (H3 : inAppReliable Sample.calm "m-1"%string).
  { intros h d _. reflexivity. }
  split; [exact H1|]. split; [exact H2|]. split; [exact H3|].
  exact (proj1 (notices_serve_each_channel Sample.calm Sample.alice "m-1"%string
                  "Standup"%string "Bob"%string Sample.world H1 H2 H3)).
Defined.

Lemma subscribe_registers_endpoint_witness :
  NoDup (map PushSubscription.endpoint Fixture.subscriptions)
  /\ NoDup (map PushSubscription.endpoint
              (PushService.subscribe "s-3"%string "u-carol"%string Fixture.carolOnLaptop
                 Fixture.subscriptions)).
Proof.
  assert (Hnd : NoDup (map PushSubscription.endpoint Fixture.subscriptions)).
  { simpl. repeat constructor; simpl; intuition discriminate. }
  split; [exact Hnd|].
  exact (proj1 (subscribe_registers_endpoint "s-3"%string "u-carol"%string
                  Fixture.carolOnLaptop Fixture.subscriptions Hnd)).
Defined.

Lemma sendToUser_prunes_gone_witness :
  NoDup (map PushSubscription.endpoint Fixture.subscriptions)
  /\ map fst (attempted (PushService.sendToUser true Fixture.laptopGone "u-alice"%string
                           Fixture.hello Fixture.subscriptions))
     = map PushSubscription.endpoint
         (filter (fun r => String.eqb (PushSubscription.userId r) "u-alice"%string)
            Fixture.subscriptions).
Proof.
  assert (Hnd : NoDup (map PushSubscription.endpoint Fixture.subscriptions)).
  { simpl. repeat constructor; simpl; intuition discriminate. }
  split; [exact Hnd|].
  exact (proj1 (proj2 (sendToUser_prunes_gone Fixture.laptopGone "u-alice"%string
                         Fixture.hello Fixture.subscriptions Hnd))).
Defined.

Lemma cleanup_keeps_acceptable_tokens_witness :
  NoDup (map RefreshToken.token Fixture.tokens)
  /\ Sample.noon <= Sample.noon + Sample.minute
  /\ storedTokenAccepted (Sample.noon + Sample.minute) "token-new"%string
       (fst (cleanupExpiredTokens Sample.noon Fixture.tokens))
     = storedTokenAccepted (Sample.noon + Sample.minute) "token-new"%string Fixture.tokens.
Proof.
  assert (Hnd : NoDup (map RefreshToken.token Fixture.tokens)).
  { simpl. repeat constructor; simpl; intuition discriminate. }
  assert (Hle : Sample.noon <= Sample.noon + Sample.minute) by (vm_compute; discriminate).
  split; [exact Hnd|]. split; [exact Hle|].
  exact (proj1 (cleanup_keeps_acceptable_tokens Sample.noon (Sample.noon + Sample.minute)
                  "token-new"%string Fixture.tokens Hnd Hle)).
Defined.

Lemma only_creator_cancels_or_deletes_witness :
  (forall m, findMeeting (db Sample.world) "m-1"%string = Some m ->
     Meeting.createdByUserId m <> "u-bob"%string)
  /\ exists msg code,
       cancel Sample.calm "m-1"%string "u-bob"%string Sample.world
       = (Throw (AppError msg code), Sample.world)
       /\ (code = 404 <-> findMeeting (db Sample.world) "m-1"%string = None)
       /\ (code = 404 \/ code = 403).
Proof.
  assert (H : forall m, findMeeting (db Sample.world) "m-1"%string = Some m ->
                Meeting.createdByUserId m <> "u-bob"%string).
  { intros m Hm. vm_compute in Hm. injection Hm as <-. vm_compute. discriminate. }
  split; [exact H|].
  exact (proj1 (only_creator_cancels_or_deletes Sample.calm "m-1"%string "u-bob"%string
                  Sample.world H)).
Defined.

Lemma cancel_is_final_witness :
  findMeeting (db Sample.world) "m-1"%string = Some Sample.standup
  /\ Meeting.createdByUserId Sample.standup = "u-alice"%string
  /\ Meeting.isCancelled Sample.standup = false
  /\ exists msg code,
       cancel Sample.smtpDown "m-1"%string "u-alice"%string
         (snd (cancel Sample.calm "m-1"%string "u-alice"%string Sample.world))
       = (Throw (AppError msg code),
          snd (cancel Sample.calm "m-1"%string "u-alice"%string Sample.world))
       /\ ("u-alice"%string = "u-alice"%string ->
           msg = "Meeting is already cancelled"%string /\ code = 400)
       /\ ("u-alice"%string <> "u-alice"%string -> code = 403).
Proof.
  assert (H1 : findMeeting (db Sample.world) "m-1"%string = Some Sample.standup) by reflexivity.
  assert (H2 : Meeting.createdByUserId Sample.standup = "u-alice"%string) by reflexivity.
  assert (H3 : Meeting.isCancelled Sample.standup = false) by reflexivity.
  split; [exact H1|]. split; [exact H2|]. split; [exact H3|].
  exact (cancel_is_final Sample.calm Sample.smtpDown "m-1"%string "u-alice"%string
           "u-alice"%string Sample.standup Sample.world H1 H2 H3).
Defined.

Lemma delete_removes_meeting_witness :
  findMeeting (db Sample.world) "m-1"%string = Some Sample.standup
  /\ Meeting.createdByUserId Sample.standup = "u-alice"%string
  /\ fst (MeetingService.delete Sample.calm "m-1"%string "u-alice"%string Sample.world)
     = Ok tt.
Proof.
  assert (H1 : findMeeting (db Sample.world) "m-1"%string = Some Sample.standup) by reflexivity.
  assert (H2 : Meeting.createdByUserId Sample.standup = "u-alice"%string) by reflexivity.
  split; [exact H1|]. split; [exact H2|].
  exact (proj1 (delete_removes_meeting Sample.calm "m-1"%string "u-alice"%string
                  Sample.standup Sample.world H1 H2)).
Defined.

Lemma respond_updates_own_row_witness :
  findMeeting (db Sample.world) "m-1"%string = Some Sample.standup
  /\ calls (snd (MeetingService.respondToInvitation Sample.calm "m-1"%string
                   "u-bob"%string ACCEPTED Sample.world))
     = calls Sample.world.
Proof.
  assert (H1 : findMeeting (db Sample.world) "m-1"%string = Some Sample.standup) by reflexivity.
  assert (Hp : find (linkedTo "u-bob"%string)
                 (participants (includeMeeting (db Sample.world) Sample.standup))
               = Some (includeUser Sample.store Sample.pBob)) by reflexivity.
  split; [exact H1|].
  pose proof (respond_updates_own_row Sample.calm "m-1"%string "u-bob"%string ACCEPTED
                Sample.standup Sample.world H1) as H.
  cbv zeta in H. rewrite Hp in H. exact (proj1 (proj2 H)).
Defined.

Lemma update_sets_given_flags_witness :
  findUser (db Sample.world) "u-alice"%string = Some Sample.alice
  /\ usi_pushNotificationsEnabled Fixture.pushOff = Some false
  /\ pushesTo "u-alice"%string
       (newCalls (snd (SettingsService.update "u-alice"%string Fixture.pushOff Sample.world))
          (snd (processReminders Sample.calm
                  (snd (SettingsService.update "u-alice"%string Fixture.pushOff
                          Sample.world)))))
     = 0%nat.
Proof.
  assert (H1 : findUser (db Sample.world) "u-alice"%string = Some Sample.alice) by reflexivity.
  assert (H2 : usi_pushNotificationsEnabled Fixture.pushOff = Some false) by reflexivity.
  split; [exact H1|]. split; [exact H2|].
  exact (proj2 (proj2 (proj2 (update_sets_given_flags Sample.calm "u-alice"%string
                                Fixture.pushOff Sample.alice Sample.world H1))) H2).
Defined.

Lemma sent_reminder_not_selected_again_witness :
  marked "r-15"%string (snd (processReminders Sample.calm Sample.world))
  /\ marked "r-15"%string
       (snd (processReminders Sample.calm (snd (processReminders Sample.calm Sample.world)))).
Proof.
  assert (H : marked "r-15"%string (snd (processReminders Sample.calm Sample.world))).
  { pose proof (processReminders_spec Sample.calm Sample.world) as Hspec.
    destruct (processReminders Sample.calm Sample.world) as [[[]|e] w1]; [|contradiction].
    destruct Hspec as [_ Hall]. cbn [snd].
    apply (Hall Sample.due).
    - vm_compute. left. reflexivity.
    - intros h d _. reflexivity. }
  split; [exact H|].
  exact (proj1 (proj2 (proj2 (sent_reminder_not_selected_again Sample.calm
                                (snd (processReminders Sample.calm Sample.world))
                                "r-15"%string H)))).
Defined.

Lemma regenerated_reminder_due_window_witness :
  findMeeting (db Sample.world) "m-1"%string = Some Sample.standup
  /\ forall lt, In lt [30; 10] ->
       exists r,
         In r (remindersOf "m-1"%string
                 (snd (regenerate Sample.calm "m-1"%string (Meeting.startTime Sample.standup)
                         [30; 10] Sample.world)))
         /\ MeetingReminder.minutesBefore r = lt.
Proof.
  assert (H1 : findMeeting (db Sample.world) "m-1"%string = Some Sample.standup) by reflexivity.
  split; [exact H1|].
  exact (proj1 (regenerated_reminder_due_window Sample.calm "m-1"%string Sample.standup
                  [30; 10] Sample.world H1)).
Defined.

Lemma inapp_disabled_served_once_witness :
  truthy (MeetingParticipant.userId (participant (includeUser Sample.store Sample.pCarol)))
  = true
  /\ user (includeUser Sample.store Sample.pCarol) = Some Sample.carol
  /\ createdBy (meeting Sample.due) <> None
  /\ enabled UserSettings.inAppNotificationsEnabled
       (findSettings (db Sample.world) (User.id Sample.carol)) = false
  /\ fst (processParticipant Sample.calm Sample.r15 (meeting Sample.due)
            (includeUser Sample.store Sample.pCarol) Sample.world) = Ok tt.
Proof.
  assert (H1 : truthy (MeetingParticipant.userId
                         (participant (includeUser Sample.store Sample.pCarol))) = true)
    by reflexivity.
  assert (H2 : user (includeUser Sample.store Sample.pCarol) = Some Sample.carol)
    by reflexivity.
  assert (H3 : createdBy (meeting Sample.due) <> None).
  { vm_compute. discriminate. }
  assert (H4 : enabled UserSettings.inAppNotificationsEnabled
                 (findSettings (db Sample.world) (User.id Sample.carol)) = false)
    by reflexivity.
  split; [exact H1|]. split; [exact H2|]. split; [exact H3|]. split; [exact H4|].
  exact (proj1 (inapp_disabled_served_once Sample.calm Sample.r15 (meeting Sample.due)
                  (includeUser Sample.store Sample.pCarol) Sample.carol Sample.world
                  H1 H2 H3 H4)).
Defined.
